(** * dwdatareader: the Python wrapper around DWDataReaderLib

    A shallow embedding of [dwdatareader/__init__.py].  The wrapper holds no
    decoding logic of its own: every piece of data comes from the native
    library through the global [DLL].  The library is therefore an interface
    here (class [Library]); the wrapper's functions are programs over it in a
    state-and-exception monad that also records every native call made. *)

From Stdlib Require Import ZArith Lia Ascii.
From stdpp Require Import base option list sorting gmap strings pretty.
Open Scope string_scope.
Open Scope list_scope.
Open Scope Z_scope.

(** ** C data *)

(** A [void*] reader handle; [0] is the NULL pointer ctypes passes for
    [None]. *)
Abbreviation handle := Z (only parsing).

(** A C [double].  The wrapper never computes with samples or timestamps: it
    moves them and, inside [np.unique], compares them.  They are modelled by
    integers, a totally ordered stand-in; NaN is outside the model. *)
Abbreviation double := Z (only parsing).

(** [class DWStatus(IntEnum)] *)
Inductive DWStatus :=
| DWSTAT_OK
| DWSTAT_ERROR
| DWSTAT_ERROR_FILE_CANNOT_OPEN
| DWSTAT_ERROR_FILE_ALREADY_IN_USE
| DWSTAT_ERROR_FILE_CORRUPT
| DWSTAT_ERROR_NO_MEMORY_ALLOC
| DWSTAT_ERROR_CREATE_DEST_FILE
| DWSTAT_ERROR_EXTRACTING_FILE
| DWSTAT_ERROR_CANNOT_OPEN_EXTRACTED_FILE
| DWSTAT_ERROR_INVALID_IB_LEVEL
| DWSTAT_ERROR_CAN_NOT_SUPPORTED
| DWSTAT_ERROR_INVALID_READER
| DWSTAT_ERROR_INVALID_INDEX
| DWSTAT_ERROR_INSUFFICENT_BUFFER.

(** The integer value of an enumeration member; native calls return plain C
    ints and the wrapper compares them with the members by value. *)
Definition status_value (s : DWStatus) : Z :=
  match s with
  | DWSTAT_OK => 0
  | DWSTAT_ERROR => 1
  | DWSTAT_ERROR_FILE_CANNOT_OPEN => 2
  | DWSTAT_ERROR_FILE_ALREADY_IN_USE => 3
  | DWSTAT_ERROR_FILE_CORRUPT => 4
  | DWSTAT_ERROR_NO_MEMORY_ALLOC => 5
  | DWSTAT_ERROR_CREATE_DEST_FILE => 6
  | DWSTAT_ERROR_EXTRACTING_FILE => 7
  | DWSTAT_ERROR_CANNOT_OPEN_EXTRACTED_FILE => 8
  | DWSTAT_ERROR_INVALID_IB_LEVEL => 9
  | DWSTAT_ERROR_CAN_NOT_SUPPORTED => 10
  | DWSTAT_ERROR_INVALID_READER => 11
  | DWSTAT_ERROR_INVALID_INDEX => 12
  | DWSTAT_ERROR_INSUFFICENT_BUFFER => 13
  end.

(** [class DWChannelProps(IntEnum)] *)
Inductive DWChannelProps :=
| DW_DATA_TYPE
| DW_DATA_TYPE_LEN_BYTES
| DW_CH_INDEX
| DW_CH_INDEX_LEN
| DW_CH_TYPE
| DW_CH_SCALE
| DW_CH_OFFSET
| DW_CH_XML
| DW_CH_XML_LEN
| DW_CH_XMLPROPS
| DW_CH_XMLPROPS_LEN
| DW_CH_CUSTOMPROPS
| DW_CH_CUSTOMPROPS_COUNT
| DW_CH_LONGNAME
| DW_CH_LONGNAME_LEN.

(** [class DWMeasurementInfo(ctypes.Structure)] *)
Record DWMeasurementInfo := {
  sample_rate : double;
  _start_measure_time : double;
  _start_store_time : double;
  duration : double
}.

(** [class DWArrayInfoStruct(ctypes.Structure)].  A [c_char * n] field reads
    as the bytes before the first NUL; it is kept as that byte string. *)
Record DWArrayInfoStruct := {
  ax_index : Z;
  ax_name_ : string;
  ax_unit_ : string;
  ax_size : Z
}.

(** [class DWChannelStruct(ctypes.Structure)] *)
Record DWChannelStruct := {
  index : Z;
  _name : string;
  _unit : string;
  _description : string;
  color : Z;
  array_size : Z;
  data_type : Z
}.

(** The numpy record [reduced_dtype] of [DWChannel.reduced]. *)
Record DWReducedValue := {
  time_stamp : double;
  ave : double;
  min : double;
  max : double;
  rms : double
}.

(** A zero-initialised ctypes structure, as [(T * n)()] creates them. *)
Definition zero_channel_struct : DWChannelStruct :=
  {| index := 0; _name := ""; _unit := ""; _description := "";
     color := 0; array_size := 0; data_type := 0 |}.

Definition zero_array_struct : DWArrayInfoStruct :=
  {| ax_index := 0; ax_name_ := ""; ax_unit_ := ""; ax_size := 0 |}.

Definition zero_info : DWMeasurementInfo :=
  {| sample_rate := 0; _start_measure_time := 0; _start_store_time := 0;
     duration := 0 |}.

(** ** The native library *)

(** The buffer handed to [DWIGetChannelProps]: a [c_int], a [c_double] or a
    string buffer of a given length. *)
Inductive propbuf :=
| IntBuf
| DoubleBuf
| StrBuf (len : Z).

Definition propbuf_out (b : propbuf) : Type :=
  match b with
  | IntBuf => Z
  | DoubleBuf => double
  | StrBuf _ => string
  end.

(** The native entry points the wrapper calls.  A [call R] carries the
    arguments passed by value; [R] is what the call leaves in the buffers
    passed by reference. *)
Inductive call : Type -> Type :=
| DWICreateReader : call handle
| DWIDestroyReader (h : handle) : call unit
| DWIOpenDataFile (h : handle) (path : string) : call DWMeasurementInfo
| DWICloseDataFile (h : handle) : call unit
| DWIGetMeasurementInfo (h : handle) : call DWMeasurementInfo
| DWIGetChannelListCount (h : handle) : call Z
| DWIGetChannelList (h : handle) : call (list DWChannelStruct)
| DWIGetScaledSamplesCount (h : handle) (ch : Z) : call Z
| DWIGetScaledSamples (h : handle) (ch pos n : Z)
    : call (list double * list double)
| DWIGetReducedValuesCount (h : handle) (ch : Z) : call (Z * double)
| DWIGetReducedValues (h : handle) (ch pos n : Z) : call (list DWReducedValue)
| DWIGetChannelProps (h : handle) (ch : Z) (prop : DWChannelProps)
    (b : propbuf) : call (propbuf_out b)
| DWIGetArrayInfoCount (h : handle) (ch : Z) : call Z
| DWIGetArrayInfoList (h : handle) (ch : Z) : call (list DWArrayInfoStruct)
| DWIGetHeaderEntryCount (h : handle) : call Z
| DWIGetHeaderEntryTextF (h : handle) (i : Z) (len : Z) : call string
| DWIGetHeaderEntryNameF (h : handle) (i : Z) (len : Z) : call string
| DWGetLastStatus (len : Z) : call (Z * string * Z).

(** The global [DLL]: some state, and for every call the status it returns
    together with the contents of the out-buffers. *)
Class Library := {
  lib_state : Type;
  lib_call : forall R, call R -> lib_state -> lib_state * (Z * R)
}.

(** One native call, as recorded in the trace. *)
Definition event : Type := { R : Type & call R }.

Definition is_destroy (e : event) : bool :=
  match projT2 e with
  | DWIDestroyReader _ => true
  | _ => false
  end.

Definition is_close_file (e : event) : bool :=
  match projT2 e with
  | DWICloseDataFile _ => true
  | _ => false
  end.

Definition is_last_status (e : event) : bool :=
  match projT2 e with
  | DWGetLastStatus _ => true
  | _ => false
  end.

(** The handle released by a [DWIDestroyReader] event. *)
Definition destroyed_handle (e : event) : option handle :=
  match projT2 e with
  | DWIDestroyReader h => Some h
  | _ => None
  end.

(** ** Python values that the wrapper inspects by type *)

(** [class DWChannel(DWChannelStruct)]: the structure plus the reader handle
    object it was built with (the file's [c_void_p], or [None]). *)
Record DWChannel := {
  base : DWChannelStruct;
  reader_handle : option handle
}.

(** A subscript key of [DWFile.__getitem__]. *)
Inductive pykey :=
| KeyChannel (c : DWChannel)
| KeyStr (s : string)
| KeyInt (z : Z).

(** ** Exceptions and outcomes *)

Inductive exn :=
| RuntimeError (msg : string)
| IndexError (msg : string)
| KeyError (key : pykey)
| ValueError (msg : string)
| TypeError (msg : string)
| AttributeError (msg : string)
| OverflowError (msg : string)
| ParseError.

(** What running a piece of the wrapper gives: a value, a Python exception,
    an exhausted step budget (the only unbounded loop is in
    [check_lib_status]), or a native write past the end of a buffer. *)
Inductive outcome (A : Type) :=
| Ret (a : A)
| Raise (e : exn)
| Diverge
| Fault.
Arguments Ret {A} a.
Arguments Raise {A} e.
Arguments Diverge {A}.
Arguments Fault {A}.

(** The interpreter's view of the native side: the library's state and the
    native calls made so far, oldest first. *)
Record world `{Library} := {
  lib : lib_state;
  trace : list event
}.

(** Programs over a state [St] that may raise. *)
Definition M (St A : Type) : Type := St -> outcome A * St.

Definition ret {St A} (a : A) : M St A := fun s => (Ret a, s).
Definition raise {St A} (e : exn) : M St A := fun s => (Raise e, s).
Definition fault {St A} : M St A := fun s => (Fault, s).
Definition diverge {St A} : M St A := fun s => (Diverge, s).

Definition bind {St A B} (m : M St A) (k : A -> M St B) : M St B :=
  fun s =>
    match m s with
    | (Ret a, s') => k a s'
    | (Raise e, s') => (Raise e, s')
    | (Diverge, s') => (Diverge, s')
    | (Fault, s') => (Fault, s')
    end.

Notation "x <- m ;; k" := (bind m (fun x => k))
  (at level 100, m at next level, right associativity).
Notation "m ;;; k" := (bind m (fun _ => k))
  (at level 100, right associativity).

(** Run a program on the native side while some Python object [O] (the
    [self] of a [DWFile] method, the chunks a generator has yielded) is
    carried along. *)
Definition lift `{Library} {O A} (m : M world A) : M (O * world) A :=
  fun s =>
    let '(o, w) := m (snd s) in (o, (fst s, w)).

Definition get_obj `{Library} {O} : M (O * world) O :=
  fun s => (Ret (fst s), s).

Definition set_obj `{Library} {O} (f : O -> O) : M (O * world) unit :=
  fun s => (Ret tt, (f (fst s), snd s)).

(** [DLL.f(...)]: perform the call, log it, hand back status and outputs. *)
Definition native `{Library} {R} (c : call R) : M world (Z * R) :=
  fun w =>
    let '(s, r) := lib_call R c (lib w) in
    (Ret r, {| lib := s; trace := trace w ++ [existT R c] |}).

(** [try: body  except RuntimeError as e: handler; raise] *)
Definition try_except_RuntimeError {St A}
    (body : M St A) (handler : string -> M St unit) : M St A :=
  fun s =>
    match body s with
    | (Raise (RuntimeError msg), s') =>
        match handler msg s' with
        | (Ret _, s'') => (Raise (RuntimeError msg), s'')
        | (Raise e, s'') => (Raise e, s'')
        | (Diverge, s'') => (Diverge, s'')
        | (Fault, s'') => (Fault, s'')
        end
    | r => r
    end.

(** ** Buffers *)

(** A native call writes [written] at the start of a caller's buffer [buf];
    writing more than the buffer holds is a write out of bounds. *)
Definition poke {A} (buf written : list A) : option (list A) :=
  if (length written <=? length buf)%nat
  then Some (written ++ drop (length written) buf)
  else None.

Definition poke_M {St A} (buf written : list A) : M St (list A) :=
  match poke buf written with
  | Some b => ret b
  | None => fault
  end.

(** [np.zeros(n)]; a negative dimension raises [ValueError]. *)
Definition np_zeros {St} (n : Z) : M St (list double) :=
  if n <? 0 then raise (ValueError "negative dimensions are not allowed")
  else ret (replicate (Z.to_nat n) 0).

(** ** Text *)

(** [s.rstrip('\x00')] *)
Fixpoint rstrip_nul (s : string) : string :=
  match s with
  | EmptyString => EmptyString
  | String c s' =>
      match rstrip_nul s' with
      | EmptyString => if Ascii.eqb c Ascii.zero then EmptyString
                       else String c EmptyString
      | t => String c t
      end
  end.

(** Text is kept as its UTF-8 bytes, so a [str] and the [bytes] that encode
    it are the same string here.  Decoding with [errors='replace'] copies the
    well-formed sequences and puts U+FFFD in the place of every maximal
    ill-formed part. *)
Definition byte_val (c : ascii) : Z := Z.of_N (N_of_ascii c).

(** U+FFFD as its UTF-8 bytes, [EF BF BD]. *)
Definition replacement : string :=
  String (ascii_of_N 239) (String (ascii_of_N 191)
    (String (ascii_of_N 189) EmptyString)).

(** The decoder is between two characters, or inside a multi-byte sequence:
    the bytes of it read so far, the number of continuation bytes still
    missing, and the range the next byte must lie in. *)
Inductive utf8_state :=
| Idle
| Pending (seen : string) (need : nat) (lo hi : Z).

(** A byte read between two characters: an ASCII byte is a character, a
    lead byte opens a sequence of two, three or four bytes (overlong forms,
    surrogates and values above U+10FFFF are excluded by the range of the
    second byte), any other byte is ill-formed. *)
Definition utf8_lead (c : ascii) : string * utf8_state :=
  let b := byte_val c in
  let start := String c EmptyString in
  if b <? 0x80 then (start, Idle)
  else if b <? 0xC2 then (replacement, Idle)
  else if b <? 0xE0 then (EmptyString, Pending start 1 0x80 0xBF)
  else if b =? 0xE0 then (EmptyString, Pending start 2 0xA0 0xBF)
  else if b =? 0xED then (EmptyString, Pending start 2 0x80 0x9F)
  else if b <? 0xF0 then (EmptyString, Pending start 2 0x80 0xBF)
  else if b =? 0xF0 then (EmptyString, Pending start 3 0x90 0xBF)
  else if b <? 0xF4 then (EmptyString, Pending start 3 0x80 0xBF)
  else if b =? 0xF4 then (EmptyString, Pending start 3 0x80 0x8F)
  else (replacement, Idle).

(** One byte: what is written out and the state after it.  A byte that
    cannot continue the open sequence ends it as ill-formed and is read
    again as the start of the next character. *)
Definition utf8_step (st : utf8_state) (c : ascii) : string * utf8_state :=
  match st with
  | Idle => utf8_lead c
  | Pending seen need lo hi =>
      if (lo <=? byte_val c) && (byte_val c <=? hi) then
        match need with
        | S (S n) =>
            (EmptyString, Pending (seen +:+ String c EmptyString) (S n)
                            0x80 0xBF)
        | _ => (seen +:+ String c EmptyString, Idle)
        end
      else
        let '(out, st') := utf8_lead c in (replacement +:+ out, st')
  end.

(** The end of the input inside a sequence is ill-formed as well. *)
Definition utf8_flush (st : utf8_state) : string :=
  match st with
  | Idle => EmptyString
  | Pending _ _ _ _ => replacement
  end.

Fixpoint utf8_run (st : utf8_state) (s : string) : string :=
  match s with
  | EmptyString => utf8_flush st
  | String c s' =>
      let '(out, st') := utf8_step st c in out +:+ utf8_run st' s'
  end.

(** The ranges of the decoder's open sequences start at [0x80] or above. *)
Definition utf8_wf (st : utf8_state) : Prop :=
  match st with
  | Idle => True
  | Pending _ _ lo _ => 0x80 <= lo
  end.

(** [bs.decode(encoding='utf-8', errors='replace')] *)
Definition utf8_decode_replace (bs : string) : string := utf8_run Idle bs.

(** [decode_bytes], for the [bytes] argument every caller passes: decode as
    UTF-8, ill-formed input replaced, and strip trailing NULs. *)
Definition decode_bytes (byte_string : string) : string :=
  rstrip_nul (utf8_decode_replace byte_string).
Arguments decode_bytes : simpl never.

(** ** [check_lib_status] *)

(** The [while DLL.DWGetLastStatus(...) == DWSTAT_ERROR_NO_MEMORY_ALLOC]
    loop.  Each turn queries with the current length; on the retry status the
    buffer is re-created with the length the library wrote back
    ([create_string_buffer] of a negative length raises [ValueError]).  The
    loop has no bound in the source; [fuel] bounds the turns here. *)
Fixpoint last_status_loop `{Library} (fuel : nat) (err_msg_len : Z)
    : M world string :=
  match fuel with
  | O => diverge
  | S fuel' =>
      reply <- native (DWGetLastStatus err_msg_len) ;;
      let '(r, (_, err_msg, len')) := reply in
      if r =? status_value DWSTAT_ERROR_NO_MEMORY_ALLOC
      then if len' <? 0
           then raise (ValueError "negative buffer length")
           else last_status_loop fuel' len'
      else ret err_msg
  end.

Definition check_lib_status `{Library} (fuel : nat) (status : Z)
    : M world unit :=
  if status =? status_value DWSTAT_OK then ret tt
  else
    err_msg <- last_status_loop fuel 1024 ;;
    raise (RuntimeError
             ("Error " +:+ pretty status +:+ ": " +:+ decode_bytes err_msg)).

(** ** numpy and Python helpers *)

(** [np.unique(ar, return_index=True)]: the distinct values in ascending
    order, each with the index of its first occurrence in [ar].
    [insert_first t i s] adds an element found at the earlier index [i] to the
    result [s] of the later ones, replacing an equal value's index. *)
Fixpoint insert_first (t : double) (i : nat) (s : list (double * nat))
    : list (double * nat) :=
  match s with
  | [] => [(t, i)]
  | (u, j) :: s' =>
      if t <? u then (t, i) :: s
      else if t =? u then (t, i) :: s'
      else (u, j) :: insert_first t i s'
  end.

Fixpoint unique_from (i : nat) (ar : list double) : list (double * nat) :=
  match ar with
  | [] => []
  | t :: ar' => insert_first t i (unique_from (S i) ar')
  end.

Definition np_unique (ar : list double) : list double * list nat :=
  let s := unique_from 0 ar in (s.*1, s.*2).

(** [range(0, stop, step)] for a positive [step]. *)
Definition py_range (stop step : Z) : list Z :=
  (fun k => Z.of_nat k * step) <$> seq 0 (Z.to_nat ((stop + step - 1) / step)).

(** [seq[i]] for a Python list: negative indices count from the end. *)
Definition py_index {St A} (l : list A) (i : Z) : M St A :=
  let n := Z.of_nat (length l) in
  let j := if i <? 0 then i + n else i in
  if (j <? 0) || (n <=? j)
  then raise (IndexError "list index out of range")
  else match l !! Z.to_nat j with
       | Some x => ret x
       | None => raise (IndexError "list index out of range")
       end.

(** [data.reshape(-1, array_size)[ix, array_index]]: the two-dimensional
    view needs a positive column count dividing the length; the column index
    may be negative (counted from the end); the rows [ix] are picked in the
    order given. *)
Definition reshape_pick {St} (data : list double) (array_size : Z)
    (ix : list nat) (array_index : Z) : M St (list double) :=
  if (array_size <=? 0) || negb (Z.of_nat (length data) mod array_size =? 0)
  then raise (ValueError "cannot reshape array")
  else
    let col := if array_index <? 0 then array_index + array_size
               else array_index in
    if (col <? 0) || (array_size <=? col)
    then raise (IndexError "index is out of bounds for axis 1")
    else
      match mapM (fun i => data !! (i * Z.to_nat array_size + Z.to_nat col)%nat)
                 ix with
      | Some vs => ret vs
      | None => raise (IndexError "index is out of bounds for axis 0")
      end.

(** [str.split(sep)] for a one-character separator. *)
Fixpoint split_on (sep : ascii) (s : string) : list string :=
  match s with
  | EmptyString => [EmptyString]
  | String c s' =>
      if Ascii.eqb c sep then EmptyString :: split_on sep s'
      else match split_on sep s' with
           | [] => [String c EmptyString]
           | w :: ws => String c w :: ws
           end
  end.

(** Python's [==] between an [int] and a [str], and between [bytes] and a
    [str]: values of different types are never equal. *)
Definition py_eq_int_str (_ : Z) (_ : string) : bool := false.
Definition py_eq_bytes_str (_ : string) (_ : string) : bool := false.

(** Run [m] [n] times and collect the results, as a list comprehension over
    [range(n)] does. *)
Fixpoint repeat_M {St A} (n : nat) (m : M St A) : M St (list A) :=
  match n with
  | O => ret []
  | S n' => x <- m ;; xs <- repeat_M n' m ;; ret (x :: xs)
  end.

(** ** [xml.etree.ElementTree] *)

#[warnings="-register-all"] Inductive Element :=
| mkElement (tag : string) (text : option string) (children : list Element).

Definition tag (e : Element) : string :=
  match e with mkElement t _ _ => t end.
Definition text (e : Element) : option string :=
  match e with mkElement _ t _ => t end.
Definition children (e : Element) : list Element :=
  match e with mkElement _ _ c => c end.

(** [ElementTree.fromstring] is the standard library's XML parser; it is a
    parameter of the model.  [None] stands for [ParseError]. *)
Class XmlParser := {
  fromstring : string -> option Element
}.

(** [root.findall('./t1/t2/...')]: descend through children carrying the
    successive tags, in document order. *)
Fixpoint findall (path : list string) (e : Element) : list Element :=
  match path with
  | [] => [e]
  | t :: path' =>
      flat_map (fun c => if String.eqb (tag c) t then findall path' c else [])
               (children e)
  end.

(** [root.find(path)]: the first match, or [None]. *)
Definition find (path : list string) (e : Element) : option Element :=
  head (findall path e).

(** ** [DWMeasurementInfo] *)

(** A [datetime] in UTC, as its day number in the proleptic Gregorian
    calendar ([date.toordinal]); the model's doubles carry whole days. *)
Record datetime := { toordinal : Z }.

(** [timedelta(days)] *)
Definition timedelta (days : double) : outcome Z :=
  if (days <? -999999999) || (999999999 <? days)
  then Raise (OverflowError "days out of range")
  else Ret days.

(** [datetime(1899, 12, 30, tzinfo=timezone.utc)] *)
Definition epoch_1899 : datetime := {| toordinal := 693594 |}.

(** [dt + td]; the result must lie in years 1..9999. *)
Definition datetime_add (dt : datetime) (td : outcome Z) : outcome datetime :=
  match td with
  | Ret d =>
      let o := toordinal dt + d in
      if (o <? 1) || (3652059 <? o)
      then Raise (OverflowError "date value out of range")
      else Ret {| toordinal := o |}
  | Raise e => Raise e
  | Diverge => Diverge
  | Fault => Fault
  end.

Definition start_store_time (self : DWMeasurementInfo) : outcome datetime :=
  let epoch := epoch_1899 in
  datetime_add epoch (timedelta (_start_store_time self)).

Definition start_measure_time (self : DWMeasurementInfo) : outcome datetime :=
  let epoch := epoch_1899 in
  datetime_add epoch (timedelta (_start_store_time self)).

(** ** [DWChannel] *)

(** A reader handle as ctypes passes it: [None] becomes NULL. *)
Definition c_arg (h : option handle) : handle := default 0 h.

(** [DWChannelStruct.name] *)
Definition name (self : DWChannel) : string := decode_bytes (_name (base self)).

(** [DWChannel.number_of_samples] *)
Definition number_of_samples `{Library} (fuel : nat) (self : DWChannel)
    : M world Z :=
  r <- native (DWIGetScaledSamplesCount (c_arg (reader_handle self))
                 (index (base self))) ;;
  let '(status, count) := r in
  check_lib_status fuel status ;;;
  ret count.

(** [DWChannel._chan_prop_int]: the same [c_int] serves as value buffer and
    as length. *)
Definition _chan_prop_int `{Library} (fuel : nat) (self : DWChannel)
    (chan_prop : DWChannelProps) : M world Z :=
  r <- native (DWIGetChannelProps (c_arg (reader_handle self))
                 (index (base self)) chan_prop IntBuf) ;;
  let '(status, count) := r in
  check_lib_status fuel status ;;;
  ret count.

(** [DWChannel._chan_prop_double] *)
Definition _chan_prop_double `{Library} (fuel : nat) (self : DWChannel)
    (chan_prop : DWChannelProps) : M world double :=
  r <- native (DWIGetChannelProps (c_arg (reader_handle self))
                 (index (base self)) chan_prop DoubleBuf) ;;
  let '(status, p_buff) := r in
  check_lib_status fuel status ;;;
  ret p_buff.

(** [DWChannel._chan_prop_str]: ask for the length, then fetch into a buffer
    of that length ([ctypes.create_string_buffer] of a negative length raises
    [ValueError]). *)
Definition _chan_prop_str `{Library} (fuel : nat) (self : DWChannel)
    (chan_prop chan_prop_len : DWChannelProps) : M world string :=
  len_str <- _chan_prop_int fuel self chan_prop_len ;;
  (if len_str <? 0 then raise (ValueError "negative buffer length")
   else ret tt) ;;;
  r <- native (DWIGetChannelProps (c_arg (reader_handle self))
                 (index (base self)) chan_prop (StrBuf len_str)) ;;
  let '(status, p_buff) := r in
  check_lib_status fuel status ;;;
  ret (decode_bytes p_buff).

Definition channel_type `{Library} (fuel : nat) (self : DWChannel)
    : M world Z :=
  _chan_prop_int fuel self DW_CH_TYPE.

Definition channel_index `{Library} (fuel : nat) (self : DWChannel)
    : M world string :=
  _chan_prop_str fuel self DW_CH_INDEX DW_CH_INDEX_LEN.

Definition channel_xml `{Library} (fuel : nat) (self : DWChannel)
    : M world string :=
  _chan_prop_str fuel self DW_CH_XML DW_CH_XML_LEN.

Definition long_name `{Library} (fuel : nat) (self : DWChannel)
    : M world string :=
  _chan_prop_str fuel self DW_CH_LONGNAME DW_CH_LONGNAME_LEN.

Definition scale `{Library} (fuel : nat) (self : DWChannel)
    : M world double :=
  _chan_prop_double fuel self DW_CH_SCALE.

Definition offset `{Library} (fuel : nat) (self : DWChannel)
    : M world double :=
  _chan_prop_double fuel self DW_CH_OFFSET.

(** [class DWArrayInfo(DWArrayInfoStruct)]: the structure plus the channel
    it belongs to. *)
Record DWArrayInfo := {
  ax_base : DWArrayInfoStruct;
  channel : DWChannel
}.

(** [DWChannel.array_info] *)
Definition array_info `{Library} (fuel : nat) (self : DWChannel)
    : M world (list DWArrayInfo) :=
  if array_size (base self) <? 2 then ret []
  else
    r <- native (DWIGetArrayInfoCount (c_arg (reader_handle self))
                   (index (base self))) ;;
    let '(status, narray_infos) := r in
    check_lib_status fuel status ;;;
    if narray_infos <? 1
    then raise (IndexError "DWIGetArrayInfoCount should be >0")
    else
      let axes := replicate (Z.to_nat narray_infos) zero_array_struct in
      r <- native (DWIGetArrayInfoList (c_arg (reader_handle self))
                     (index (base self))) ;;
      let '(status, written) := r in
      axes <- poke_M axes written ;;
      check_lib_status fuel status ;;;
      ret ((fun ax => {| ax_base := ax; channel := self |}) <$> axes).

(** [DWChannel.scaled].  The sample count is queried twice: once to size the
    buffers, once for the request. *)
Definition scaled `{Library} (fuel : nat) (self : DWChannel) (array_index : Z)
    : M world (list double * list double) :=
  if negb ((0 <=? array_index) && (array_index <? array_size (base self)))
  then raise (IndexError "array index is out of range")
  else
    count <- number_of_samples fuel self ;;
    data <- np_zeros (count * array_size (base self)) ;;
    time <- np_zeros count ;;
    n <- number_of_samples fuel self ;;
    r <- native (DWIGetScaledSamples (c_arg (reader_handle self))
                   (index (base self)) 0 n) ;;
    let '(status, (wdata, wtime)) := r in
    data <- poke_M data wdata ;;
    time <- poke_M time wtime ;;
    check_lib_status fuel status ;;;
    ret (time, data).

(** A [pandas.Series]: index, values and name. *)
Record Series := {
  s_index : list double;
  s_data : list double;
  s_name : string
}.

(** The local variables of [series_generator] that change from one turn of
    its loop to the next.  [data] is allocated once; [time] is rebound to the
    array [np.unique] returns, and that array is the buffer of the next
    native call. *)
Record gen_locals := {
  chunk_size : Z;
  data : list double;
  time : list double
}.

(** One turn of the loop of [series_generator], for the start [chunk]. *)
Definition series_step `{Library} (fuel : nat) (self : DWChannel)
    (array_index count : Z) (loc : gen_locals) (chunk : Z)
    : M (list Series * world) gen_locals :=
  let chunk_size := Z.min (chunk_size loc) (count - chunk) in
  r <- lift (native (DWIGetScaledSamples (c_arg (reader_handle self))
                       (index (base self)) chunk chunk_size)) ;;
  let '(status, (wdata, wtime)) := r in
  data <- poke_M (data loc) wdata ;;
  time <- poke_M (time loc) wtime ;;
  lift (check_lib_status fuel status) ;;;
  let '(time, ix) := np_unique (take (Z.to_nat chunk_size) time) in
  values <- reshape_pick data (array_size (base self)) ix array_index ;;
  set_obj (fun ys => ys ++ [{| s_index := time; s_data := values;
                               s_name := name self |}]) ;;;
  ret {| chunk_size := chunk_size; data := data; time := time |}.

Fixpoint series_loop `{Library} (fuel : nat) (self : DWChannel)
    (array_index count : Z) (loc : gen_locals) (starts : list Z)
    : M (list Series * world) unit :=
  match starts with
  | [] => ret tt
  | chunk :: starts' =>
      loc' <- series_step fuel self array_index count loc chunk ;;
      series_loop fuel self array_index count loc' starts'
  end.

(** [DWChannel.series_generator].  The chunks yielded so far are the object
    carried along; [range] is evaluated once, with the chunk size clipped to
    the sample count (a zero step raises [ValueError]). *)
Definition series_generator `{Library} (fuel : nat) (self : DWChannel)
    (chunk_size array_index : Z) : M (list Series * world) unit :=
  count <- lift (number_of_samples fuel self) ;;
  let chunk_size := Z.min chunk_size count in
  data <- np_zeros (chunk_size * array_size (base self)) ;;
  time <- np_zeros chunk_size ;;
  if chunk_size =? 0 then raise (ValueError "range() arg 3 must not be zero")
  else
    series_loop fuel self array_index count
      {| chunk_size := chunk_size; data := data; time := time |}
      (py_range count chunk_size).

(** [DWChannel.reduced] *)
Definition reduced `{Library} (fuel : nat) (self : DWChannel)
    : M world (list DWReducedValue) :=
  r <- native (DWIGetReducedValuesCount (c_arg (reader_handle self))
                 (index (base self))) ;;
  let '(status, (count, block_size)) := r in
  check_lib_status fuel status ;;;
  (if count <? 0 then raise (ValueError "negative dimensions are not allowed")
   else ret tt) ;;;
  let data := replicate (Z.to_nat count)
                {| time_stamp := 0; ave := 0; min := 0; max := 0; rms := 0 |} in
  r <- native (DWIGetReducedValues (c_arg (reader_handle self))
                 (index (base self)) 0 count) ;;
  let '(status, written) := r in
  data <- poke_M data written ;;
  check_lib_status fuel status ;;;
  ret data.

(** ** [DWArrayInfo] *)

(** [DWArrayInfo.name].  [self._name] is a [bytes] object and ['_'] a [str],
    so the comparison is between values of different types; the branch it
    guards reads the attribute [colums], which the class does not define. *)
Definition DWArrayInfo_name {St} (self : DWArrayInfo) : M St string :=
  if py_eq_bytes_str (ax_name_ (ax_base self)) "_"
  then raise (AttributeError "'DWArrayInfo' object has no attribute 'colums'")
  else ret (decode_bytes (ax_name_ (ax_base self))).

(** [DWArrayInfo.columns] *)
Definition columns `{Library} `{XmlParser} (fuel : nat) (self : DWArrayInfo)
    : M world (list string) :=
  xml <- channel_xml fuel (channel self) ;;
  match fromstring xml with
  | None => raise ParseError
  | Some root =>
      match find ["ArrayInfo"; "Axis"; "StringValues"] root with
      | None =>
          raise (AttributeError "'NoneType' object has no attribute 'text'")
      | Some found =>
          let element := text found in
          let column_names :=
            match element with
            | Some e => Some (drop 1 (split_on ";" e))
            | None => None
            end in
          let prefix := name (channel self) in
          match column_names with
          | Some column_names =>
              ret ((fun col_name => prefix +:+ "_" +:+ col_name)
                     <$> column_names)
          | None =>
              repeat_M (Z.to_nat (ax_size (ax_base self)))
                (axes <- array_info fuel (channel self) ;;
                 ax <- py_index axes (ax_index (ax_base self)) ;;
                 DWArrayInfo_name ax)
          end
      end
  end.

(** ** [DWFile] *)

(** The attributes of a [DWFile] object. *)
Record DWFile := {
  f_name : string;
  closed : bool;
  info : option DWMeasurementInfo;
  channels : option (list DWChannel);
  f_reader_handle : option handle
}.

Definition set_closed (b : bool) (f : DWFile) : DWFile :=
  {| f_name := f_name f; closed := b; info := info f;
     channels := channels f; f_reader_handle := f_reader_handle f |}.

Definition set_info (i : DWMeasurementInfo) (f : DWFile) : DWFile :=
  {| f_name := f_name f; closed := closed f; info := Some i;
     channels := channels f; f_reader_handle := f_reader_handle f |}.

Definition set_channels (c : list DWChannel) (f : DWFile) : DWFile :=
  {| f_name := f_name f; closed := closed f; info := info f;
     channels := Some c; f_reader_handle := f_reader_handle f |}.

Definition set_reader_handle (h : option handle) (f : DWFile) : DWFile :=
  {| f_name := f_name f; closed := closed f; info := info f;
     channels := channels f; f_reader_handle := h |}.

(** A method of [DWFile]: a program over [self] and the native side. *)
Definition method `{Library} (A : Type) : Type := M (DWFile * world) A.

(** [DWFile.close].  The status of the two native calls is not looked at. *)
Definition close `{Library} : method unit :=
  self <- get_obj ;;
  if negb (closed self) then
    lift (native (DWICloseDataFile (c_arg (f_reader_handle self)))) ;;;
    match f_reader_handle self with
    | Some h =>
        lift (native (DWIDestroyReader h)) ;;;
        set_obj (set_reader_handle None)
    | None => ret tt
    end ;;;
    set_obj (set_closed true) ;;;
    set_obj (set_channels [])
  else ret tt.

(** The body of the [try] in [DWFile.open]. *)
Definition open_body `{Library} (fuel : nat) (source : string) : method unit :=
  set_obj (set_info zero_info) ;;;
  self <- get_obj ;;
  r <- lift (native (DWIOpenDataFile (c_arg (f_reader_handle self)) source)) ;;
  let '(status, i) := r in
  set_obj (set_info i) ;;;
  lift (check_lib_status fuel status) ;;;
  r <- lift (native (DWIGetMeasurementInfo (c_arg (f_reader_handle self)))) ;;
  let '(status, i) := r in
  set_obj (set_info i) ;;;
  lift (check_lib_status fuel status) ;;;
  set_obj (set_closed false) ;;;
  r <- lift (native (DWIGetChannelListCount (c_arg (f_reader_handle self)))) ;;
  let '(status, ch_count) := r in
  lift (check_lib_status fuel status) ;;;
  (if ch_count <? 0 then raise (ValueError "Array length must be >= 0")
   else ret tt) ;;;
  let channel_structs := replicate (Z.to_nat ch_count) zero_channel_struct in
  r <- lift (native (DWIGetChannelList (c_arg (f_reader_handle self)))) ;;
  let '(status, written) := r in
  channel_structs <- poke_M channel_structs written ;;
  lift (check_lib_status fuel status) ;;;
  set_obj (set_channels
             ((fun ch => {| base := ch;
                            reader_handle := f_reader_handle self |})
                <$> channel_structs)).

(** [DWFile.open]: on [RuntimeError] the message is printed, the session is
    closed and the error raised again. *)
Definition open `{Library} (fuel : nat) (source : string) : method unit :=
  try_except_RuntimeError (open_body fuel source) (fun e => close).

(** The attributes [DWFile.__init__] sets before it touches the library. *)
Definition new_file : DWFile :=
  {| f_name := ""; closed := true; info := None; channels := None;
     f_reader_handle := None |}.

(** [DWFile.__init__]; it starts from [new_file].  [atexit.register] makes
    the interpreter call [close] once more when it shuts down. *)
Definition DWFile_init `{Library} (fuel : nat) (source : option string)
    : method unit :=
  r <- lift (native DWICreateReader) ;;
  let '(status, h) := r in
  lift (check_lib_status fuel status) ;;;
  set_obj (set_reader_handle (Some h)) ;;;
  match source with
  | Some s => if String.eqb s "" then ret tt else open fuel s
  | None => ret tt
  end.

(** [DWFile.__exit__] and [DWFile.__del__] *)
Definition DWFile_exit `{Library} : method unit := close.
Definition DWFile_del `{Library} : method unit := close.

(** The loop of [DWFile.header] over one entry. *)
Definition header_entry `{Library} (fuel : nat) (h : handle)
    (header : gmap string string) (i : Z) : M world (gmap string string) :=
  r <- native (DWIGetHeaderEntryTextF h i 200) ;;
  let '(status, text_) := r in
  check_lib_status fuel status ;;;
  let text := decode_bytes text_ in
  if negb (String.length text =? 0)%nat
     && negb (String.prefix "Select..." text
              || String.prefix "To fill out" text)
  then
    r <- native (DWIGetHeaderEntryNameF h i 100) ;;
    let '(status, name_) := r in
    check_lib_status fuel status ;;;
    ret (<[decode_bytes name_ := text]> header)
  else ret header.

Fixpoint header_loop `{Library} (fuel : nat) (h : handle)
    (header : gmap string string) (entries : list Z)
    : M world (gmap string string) :=
  match entries with
  | [] => ret header
  | i :: entries' =>
      header' <- header_entry fuel h header i ;;
      header_loop fuel h header' entries'
  end.

(** [DWFile.header] *)
Definition header `{Library} (fuel : nat) : method (gmap string string) :=
  self <- get_obj ;;
  let h := c_arg (f_reader_handle self) in
  r <- lift (native (DWIGetHeaderEntryCount h)) ;;
  let '(status, count) := r in
  lift (check_lib_status fuel status) ;;;
  lift (header_loop fuel h ∅ (Z.of_nat <$> seq 0 (Z.to_nat count))).

(** The two brute-force scans of [DWFile.__getitem__]; falling off the end
    of the loop returns [None]. *)
Fixpoint getitem_channel (chs : list DWChannel) (key : DWChannel)
    : option DWChannel :=
  match chs with
  | [] => None
  | ch :: chs' =>
      if (index (base ch) =? index (base key))
         || String.eqb (name ch) (name key)
      then Some ch
      else getitem_channel chs' key
  end.

Fixpoint getitem_str (chs : list DWChannel) (key : string)
    : option DWChannel :=
  match chs with
  | [] => None
  | ch :: chs' =>
      if py_eq_int_str (index (base ch)) key || String.eqb (name ch) key
      then Some ch
      else getitem_str chs' key
  end.

(** Iterating over [self.channels]; it is [None] until [open] succeeds. *)
Definition iter_channels {St} (self : DWFile) : M St (list DWChannel) :=
  match channels self with
  | Some chs => ret chs
  | None => raise (TypeError "'NoneType' object is not iterable")
  end.

(** [DWFile.__getitem__] *)
Definition getitem {St} (self : DWFile) (key : pykey)
    : M St (option DWChannel) :=
  match key with
  | KeyChannel k =>
      chs <- iter_channels self ;; ret (getitem_channel chs k)
  | KeyStr k =>
      chs <- iter_channels self ;; ret (getitem_str chs k)
  | _ => raise (KeyError key)
  end.

(** [DWFile.__len__] *)
Definition DWFile_len {St} (self : DWFile) : M St Z :=
  match channels self with
  | Some chs => ret (Z.of_nat (length chs))
  | None => raise (TypeError "object of type 'NoneType' has no len()")
  end.

(** ** A reference library

    DWDataReaderLib is a closed binary outside the repository.  [RefLib] is a
    small store behaving the way the wrapper expects of it: readers are
    created and destroyed, one data file can be opened per reader, a call on
    a handle that is not a live reader is answered with
    [DWSTAT_ERROR_INVALID_READER], and the text of the last failure is served
    by [DWGetLastStatus], which answers [DWSTAT_ERROR_NO_MEMORY_ALLOC] and the
    needed length when the caller's buffer is too short.  It is used to run
    the wrapper on concrete inputs. *)

Record RefChannel := {
  rc_struct : DWChannelStruct;
  rc_samples : list (double * list double);
  rc_xml : string;
  rc_axes : list DWArrayInfoStruct;
  rc_reduced : list DWReducedValue
}.

Record RefFile := {
  rf_path : string;
  rf_info : DWMeasurementInfo;
  rf_channels : list RefChannel;
  rf_header : list (string * string)
}.

(** The step of [open] at which the store fails, if any. *)
Inductive ref_step := AtOpen | AtInfo | AtCount | AtList.

Definition ref_step_eqb (a b : ref_step) : bool :=
  match a, b with
  | AtOpen, AtOpen | AtInfo, AtInfo | AtCount, AtCount | AtList, AtList => true
  | _, _ => false
  end.

Record RefState := {
  rs_file : RefFile;
  rs_fault : option (ref_step * Z);
  rs_next : handle;
  rs_readers : list (handle * bool);
  rs_last : Z * string
}.

Definition ref_message (status : Z) : string :=
  if status =? 11 then "invalid reader"
  else if status =? 12 then "invalid index"
  else if status =? 2 then "file cannot be opened"
  else if status =? 4 then "file is corrupt"
  else "error".

Definition ref_reader (s : RefState) (h : handle) : option bool :=
  match list_find (fun r => bool_decide (fst r = h)) (rs_readers s) with
  | Some (_, r) => Some (snd r)
  | None => None
  end.

Definition ref_set_readers (rs : list (handle * bool)) (s : RefState)
    : RefState :=
  {| rs_file := rs_file s; rs_fault := rs_fault s; rs_next := rs_next s;
     rs_readers := rs; rs_last := rs_last s |}.

Definition ref_fail {R} (s : RefState) (status : Z) (r : R)
    : RefState * (Z * R) :=
  ({| rs_file := rs_file s; rs_fault := rs_fault s; rs_next := rs_next s;
      rs_readers := rs_readers s; rs_last := (status, ref_message status) |},
   (status, r)).

Definition ref_fault_at (s : RefState) (st : ref_step) : option Z :=
  match rs_fault s with
  | Some (st', status) => if ref_step_eqb st st' then Some status else None
  | None => None
  end.

(** A call that needs a reader with an open file. *)
Definition ref_on_file {R} (s : RefState) (h : handle) (dflt : R)
    (k : RefFile -> RefState * (Z * R)) : RefState * (Z * R) :=
  match ref_reader s h with
  | Some true => k (rs_file s)
  | Some false => ref_fail s 1 dflt
  | None => ref_fail s 11 dflt
  end.

(** A call that needs a channel of the open file. *)
Definition ref_on_channel {R} (s : RefState) (h : handle) (ch : Z) (dflt : R)
    (k : RefChannel -> RefState * (Z * R)) : RefState * (Z * R) :=
  ref_on_file s h dflt (fun f =>
    match list_find (fun c => bool_decide (index (rc_struct c) = ch))
                    (rf_channels f) with
    | Some (_, c) => k c
    | None => ref_fail s 12 dflt
    end).

(** The [n] items of [l] from position [pos] on. *)
Definition window {A} (pos n : Z) (l : list A) : list A :=
  take (Z.to_nat n) (drop (Z.to_nat pos) l).

Definition ref_in_range {A} (pos n : Z) (l : list A) : bool :=
  (0 <=? pos) && (0 <=? n) && (pos + n <=? Z.of_nat (length l)).

(** Text written into a buffer of [len] bytes: at most [len - 1] characters
    and the terminating NUL. *)
Definition ref_text (len : Z) (t : string) : string :=
  String.substring 0 (Z.to_nat (len - 1)) t.

Definition ref_props (s : RefState) (c : RefChannel) (prop : DWChannelProps)
    (b : propbuf) : RefState * (Z * propbuf_out b) :=
  match b return RefState * (Z * propbuf_out b) with
  | IntBuf =>
      match prop with
      | DW_CH_XML_LEN => (s, (0, Z.of_nat (String.length (rc_xml c)) + 1))
      | DW_CH_INDEX_LEN | DW_CH_LONGNAME_LEN => (s, (0, 1))
      | _ => (s, (0, 0))
      end
  | DoubleBuf =>
      match prop with
      | DW_CH_SCALE => (s, (0, 1))
      | _ => (s, (0, 0))
      end
  | StrBuf len =>
      match prop with
      | DW_CH_XML =>
          if Z.of_nat (String.length (rc_xml c)) <? len
          then (s, (0, rc_xml c))
          else ref_fail s 13 ""
      | _ => (s, (0, ""))
      end
  end.

Definition ref_call (R : Type) (c : call R) (s : RefState)
    : RefState * (Z * R) :=
  match c in call R return RefState * (Z * R) with
  | DWICreateReader =>
      ({| rs_file := rs_file s; rs_fault := rs_fault s;
          rs_next := rs_next s + 1;
          rs_readers := (rs_next s, false) :: rs_readers s;
          rs_last := rs_last s |}, (0, rs_next s))
  | DWIDestroyReader h =>
      match ref_reader s h with
      | Some _ =>
          (ref_set_readers
             (filter (fun r => fst r ≠ h) (rs_readers s)) s, (0, tt))
      | None => ref_fail s 11 tt
      end
  | DWIOpenDataFile h path =>
      match ref_reader s h with
      | None => ref_fail s 11 zero_info
      | Some _ =>
          match ref_fault_at s AtOpen with
          | Some status => ref_fail s status zero_info
          | None =>
              if String.eqb path (rf_path (rs_file s))
              then (ref_set_readers
                      ((h, true) :: filter (fun r => fst r ≠ h) (rs_readers s))
                      s, (0, rf_info (rs_file s)))
              else ref_fail s 2 zero_info
          end
      end
  | DWICloseDataFile h =>
      ref_on_file s h tt (fun _ =>
        (ref_set_readers
           ((h, false) :: filter (fun r => fst r ≠ h) (rs_readers s)) s,
         (0, tt)))
  | DWIGetMeasurementInfo h =>
      ref_on_file s h zero_info (fun f =>
        match ref_fault_at s AtInfo with
        | Some status => ref_fail s status zero_info
        | None => (s, (0, rf_info f))
        end)
  | DWIGetChannelListCount h =>
      ref_on_file s h 0 (fun f =>
        match ref_fault_at s AtCount with
        | Some status => ref_fail s status 0
        | None => (s, (0, Z.of_nat (length (rf_channels f))))
        end)
  | DWIGetChannelList h =>
      ref_on_file s h [] (fun f =>
        match ref_fault_at s AtList with
        | Some status => ref_fail s status []
        | None => (s, (0, rc_struct <$> rf_channels f))
        end)
  | DWIGetScaledSamplesCount h ch =>
      ref_on_channel s h ch 0 (fun c =>
        (s, (0, Z.of_nat (length (rc_samples c)))))
  | DWIGetScaledSamples h ch pos n =>
      ref_on_channel s h ch ([], []) (fun c =>
        if ref_in_range pos n (rc_samples c)
        then (s, (0, (concat (snd <$> window pos n (rc_samples c)),
                      fst <$> window pos n (rc_samples c))))
        else ref_fail s 12 ([], []))
  | DWIGetReducedValuesCount h ch =>
      ref_on_channel s h ch (0, 0) (fun c =>
        (s, (0, (Z.of_nat (length (rc_reduced c)), 1))))
  | DWIGetReducedValues h ch pos n =>
      ref_on_channel s h ch [] (fun c =>
        if ref_in_range pos n (rc_reduced c)
        then (s, (0, window pos n (rc_reduced c)))
        else ref_fail s 12 [])
  | DWIGetChannelProps h ch prop b =>
      ref_on_channel s h ch
        (match b return propbuf_out b with
         | IntBuf => 0 | DoubleBuf => 0 | StrBuf _ => "" end)
        (fun c => ref_props s c prop b)
  | DWIGetArrayInfoCount h ch =>
      ref_on_channel s h ch 0 (fun c =>
        (s, (0, Z.of_nat (length (rc_axes c)))))
  | DWIGetArrayInfoList h ch =>
      ref_on_channel s h ch [] (fun c => (s, (0, rc_axes c)))
  | DWIGetHeaderEntryCount h =>
      ref_on_file s h 0 (fun f => (s, (0, Z.of_nat (length (rf_header f)))))
  | DWIGetHeaderEntryTextF h i len =>
      ref_on_file s h "" (fun f =>
        match rf_header f !! Z.to_nat i with
        | Some (_, t) => if i <? 0 then ref_fail s 12 ""
                         else (s, (0, ref_text len t))
        | None => ref_fail s 12 ""
        end)
  | DWIGetHeaderEntryNameF h i len =>
      ref_on_file s h "" (fun f =>
        match rf_header f !! Z.to_nat i with
        | Some (n, _) => if i <? 0 then ref_fail s 12 ""
                         else (s, (0, ref_text len n))
        | None => ref_fail s 12 ""
        end)
  | DWGetLastStatus len =>
      let need := Z.of_nat (String.length (snd (rs_last s))) + 1 in
      if len <? need
      then (s, (5, (fst (rs_last s), "", need)))
      else (s, (0, (fst (rs_last s), snd (rs_last s), len)))
  end.

Definition RefLib : Library :=
  {| lib_state := RefState; lib_call := ref_call |}.

(** A store holding the file [f], with no reader yet. *)
Definition ref_store (f : RefFile) (fault : option (ref_step * Z))
    : RefState :=
  {| rs_file := f; rs_fault := fault; rs_next := 4096; rs_readers := [];
     rs_last := (0, "") |}.

Definition ref_world (f : RefFile) (fault : option (ref_step * Z))
    : @world RefLib :=
  @Build_world RefLib (ref_store f fault) [].

(** A reference parser: it knows the three metadata documents used below
    and rejects everything else. *)
Definition doc_no_values : string :=
  "<Channel><ArrayInfo><Axis/></ArrayInfo></Channel>".
Definition doc_empty_values : string :=
  "<Channel><ArrayInfo><Axis><StringValues/></Axis></ArrayInfo></Channel>".
Definition doc_labels : string :=
  "<Channel><ArrayInfo><Axis><StringValues>2;X;Y</StringValues></Axis></ArrayInfo></Channel>".

Definition ref_fromstring (s : string) : option Element :=
  if String.eqb s doc_no_values then
    Some (mkElement "Channel" None
            [mkElement "ArrayInfo" None [mkElement "Axis" None []]])
  else if String.eqb s doc_empty_values then
    Some (mkElement "Channel" None
            [mkElement "ArrayInfo" None
               [mkElement "Axis" None [mkElement "StringValues" None []]]])
  else if String.eqb s doc_labels then
    Some (mkElement "Channel" None
            [mkElement "ArrayInfo" None
               [mkElement "Axis" None
                  [mkElement "StringValues" (Some "2;X;Y") []]]])
  else None.

Definition RefXml : XmlParser := {| fromstring := ref_fromstring |}.

(** ** A sample measurement file *)

Definition demo_scalar : RefChannel :=
  {| rc_struct := {| index := 0; _name := "AI 1"; _unit := "V";
                     _description := "voltage"; color := 0; array_size := 1;
                     data_type := 0 |};
     rc_samples := [(0, [10]); (1, [11]); (2, [12]); (3, [13]); (4, [14])];
     rc_xml := "<Channel/>"; rc_axes := []; rc_reduced := [] |}.

Definition demo_axis : DWArrayInfoStruct :=
  {| ax_index := 0; ax_name_ := "_"; ax_unit_ := ""; ax_size := 2 |}.

Definition demo_array (xml : string) : RefChannel :=
  {| rc_struct := {| index := 1; _name := "FFT"; _unit := "V";
                     _description := "spectrum"; color := 0; array_size := 2;
                     data_type := 0 |};
     rc_samples := [(0, [1; 2]); (1, [3; 4]); (2, [5; 6])];
     rc_xml := xml; rc_axes := [demo_axis]; rc_reduced := [] |}.

Definition demo_file (xml : string) : RefFile :=
  {| rf_path := "demo.d7d";
     rf_info := {| sample_rate := 1000; _start_measure_time := 45000;
                   _start_store_time := 45001; duration := 5 |};
     rf_channels := [demo_scalar; demo_array xml];
     rf_header := [("Operator", "Ann"); ("Site", "Select... one");
                   ("Note", "")] |}.

(** The channel objects [open] builds for the sample file with reader 4096. *)
Definition demo_ch0 : DWChannel :=
  {| base := rc_struct demo_scalar; reader_handle := Some 4096 |}.
Definition demo_ch1 : DWChannel :=
  {| base := rc_struct (demo_array ""); reader_handle := Some 4096 |}.

(** [f = DWFile(); f.open(source)] on a fresh store; the result is the
    outcome of [open], the object and the native side. *)
Definition demo_open (xml : string) (fault : option (ref_step * Z))
    : outcome unit * (DWFile * @world RefLib) :=
  match @DWFile_init RefLib 4 None (new_file, ref_world (demo_file xml) fault)
  with
  | (Ret _, s) => @open RefLib 4 "demo.d7d" s
  | r => r
  end.

(** The same, followed by [f.close()]. *)
Definition demo_closed (xml : string) (fault : option (ref_step * Z))
    : outcome unit * (DWFile * @world RefLib) :=
  @close RefLib (snd (demo_open xml fault)).

(** ** Descriptions of the store's behaviour *)

(** The [DWGetLastStatus] calls made with the successive buffer lengths. *)
Definition last_status_calls (lens : list Z) : list event :=
  (fun len => existT _ (DWGetLastStatus len) : event) <$> lens.

(** The store, asked for its last status text from state [s] with a buffer
    of [len] bytes, reports the buffer as too short for all but the last of
    the lengths [lens], each time naming the next length, and then answers
    with another status, leaving [msg] in the buffer and the store in [s']. *)
Inductive negotiates `{Library}
    : lib_state -> Z -> list Z -> lib_state -> string -> Prop :=
| negotiates_done s len s' r e msg len' :
    lib_call _ (DWGetLastStatus len) s = (s', (r, (e, msg, len'))) ->
    r <> status_value DWSTAT_ERROR_NO_MEMORY_ALLOC ->
    negotiates s len [len] s' msg
| negotiates_retry s len s1 e m len' lens s' msg :
    lib_call _ (DWGetLastStatus len) s
      = (s1, (status_value DWSTAT_ERROR_NO_MEMORY_ALLOC, (e, m, len'))) ->
    0 <= len' ->
    negotiates s1 len' lens s' msg ->
    negotiates s len (len :: lens) s' msg.

(** The text of the [RuntimeError] raised for [status] with message [msg]. *)
Definition error_text (status : Z) (msg : string) : string :=
  "Error " +:+ pretty status +:+ ": " +:+ decode_bytes msg.

(** A store whose last status text does not fit the wrapper's first buffer
    of 1024 bytes. *)
Fixpoint padding (n : nat) : string :=
  match n with
  | O => ""
  | S n' => String "." (padding n')
  end.

Definition long_message : string := "invalid reader" +:+ padding 1100.

Definition ref_long_world : @world RefLib :=
  @Build_world RefLib
    {| rs_file := demo_file ""; rs_fault := None; rs_next := 4097;
       rs_readers := []; rs_last := (11, long_message) |} [].

(** [close()] called [n] times in a row. *)
Fixpoint closes `{Library} (n : nat) : method unit :=
  match n with
  | O => ret tt
  | S n' => close ;;; closes n'
  end.

(** How many times a trace releases a reader, and how many times it closes
    a data file. *)
Definition released (tr : list event) : nat :=
  length (List.filter is_destroy tr).

Definition files_closed (tr : list event) : nat :=
  length (List.filter is_close_file tr).

(** The store answers the call [c], made in state [s], with [status], and
    then gives out its last status text within [fuel] queries. *)
Definition answers `{Library} {R} (fuel : nat) (c : call R) (s : lib_state)
    (status : Z) : Prop :=
  (lib_call R c s).2.1 = status
  /\ exists lens s' msg,
       negotiates (lib_call R c s).1 1024 lens s' msg
       /\ (length lens <= fuel)%nat.

(** The store refuses the call [c] in every state satisfying [Inv]: it
    answers with [status], gives out its last status text within [fuel]
    queries, and is then again in a state satisfying [Inv]. *)
Definition refuses `{Library} {R} (fuel : nat) (Inv : lib_state -> Prop)
    (c : call R) (status : Z) : Prop :=
  forall s, Inv s ->
    (lib_call R c s).2.1 = status
    /\ exists lens s' msg,
         negotiates (lib_call R c s).1 1024 lens s' msg
         /\ (length lens <= fuel)%nat
         /\ Inv s'.

(** The store does not serve a released reader: [DWIDestroyReader h] leaves
    it in a state satisfying [Inv], and there it refuses, with [status], the
    queries that the methods of channel [i] start with. *)
Definition rejects_released `{Library} (fuel : nat) (Inv : lib_state -> Prop)
    (h : handle) (i : Z) (status : Z) : Prop :=
  (forall s, Inv (lib_call _ (DWIDestroyReader h) s).1)
  /\ refuses fuel Inv (DWIGetScaledSamplesCount h i) status
  /\ refuses fuel Inv (DWIGetReducedValuesCount h i) status
  /\ refuses fuel Inv (DWIGetArrayInfoCount h i) status
  /\ (forall p, refuses fuel Inv (DWIGetChannelProps h i p IntBuf) status)
  /\ (forall p, refuses fuel Inv (DWIGetChannelProps h i p DoubleBuf) status).

(** The outcome of a call that the store refused with [status]: the
    [RuntimeError] built from that status, the store again in a state
    satisfying [Inv]. *)
Definition refused `{Library} {A} (status : Z) (Inv : lib_state -> Prop)
    (r : outcome A * world) : Prop :=
  exists msg,
    r.1 = Raise (RuntimeError (error_text status msg)) /\ Inv (lib r.2).

(** A store that gives a released handle out again, as an allocator reuses a
    freed address: [DWICreateReader] starts again from the first handle when
    no reader is alive.  Everything else is [RefLib]. *)
Definition is_create {R} (c : call R) : bool :=
  match c with
  | DWICreateReader => true
  | _ => false
  end.

Definition ref_rewind (s : RefState) : RefState :=
  {| rs_file := rs_file s; rs_fault := rs_fault s; rs_next := 4096;
     rs_readers := rs_readers s; rs_last := rs_last s |}.

Definition reuse_call (R : Type) (c : call R) (s : RefState)
    : RefState * (Z * R) :=
  ref_call R c
    (if is_create c && match rs_readers s with [] => true | _ => false end
     then ref_rewind s else s).

Definition ReuseLib : Library :=
  {| lib_state := RefState; lib_call := reuse_call |}.

(** [f = DWFile("demo.d7d"); f.close(); g = DWFile("demo.d7d")] on the
    reusing store: the session [f] when open, [f] after its [close()], and the
    native side once [g] is open. *)
Definition reuse_reopened : DWFile * DWFile * @world ReuseLib :=
  let w0 := @Build_world ReuseLib (ref_store (demo_file "") None) [] in
  let opened :=
    (@DWFile_init ReuseLib 4 (Some "demo.d7d") (new_file, w0)).2 in
  let shut := (@close ReuseLib opened).2 in
  let again :=
    (@DWFile_init ReuseLib 4 (Some "demo.d7d") (new_file, shut.2)).2 in
  (opened.1, shut.1, again.2).

(** A header text that starts with one of the two placeholder prefixes. *)
Definition placeholder (text : string) : bool :=
  String.prefix "Select..." text || String.prefix "To fill out" text.

(** The test [DWFile.header] applies to a decoded text before it stores the
    entry. *)
Definition kept (text : string) : bool :=
  negb (String.length text =? 0)%nat && negb (placeholder text).

(** The store serves the header entries [entries] (name and text, as left
    in the wrapper's buffers) to reader [h], in every state satisfying the
    invariant [Inv]. *)
Definition serves_header `{Library} (Inv : lib_state -> Prop) (h : handle)
    (entries : list (string * string)) : Prop :=
  (forall s, Inv s ->
     exists s', lib_call _ (DWIGetHeaderEntryCount h) s
                = (s', (0, Z.of_nat (length entries))) /\ Inv s')
  /\ (forall s i n t, Inv s -> entries !! i = Some (n, t) ->
        (exists s', lib_call _ (DWIGetHeaderEntryTextF h (Z.of_nat i) 200) s
                    = (s', (0, t)) /\ Inv s')
        /\ (exists s', lib_call _ (DWIGetHeaderEntryNameF h (Z.of_nat i) 100) s
                       = (s', (0, n)) /\ Inv s')).

(** The dictionary [DWFile.header] builds from the entries, in order. *)
Definition header_of (entries : list (string * string))
    (m0 : gmap string string) : gmap string string :=
  fold_left (fun m e => if kept (decode_bytes e.2)
                        then <[decode_bytes e.1 := decode_bytes e.2]> m
                        else m)
            entries m0.

(** Column [col] of a list of samples (timestamp and row of values). *)
Definition column (col : nat) (rows : list (Z * list Z)) : list Z :=
  (fun r => default 0 (r.2 !! col)) <$> rows.

(** The store serves the samples [rows] of channel [ch] to reader [h], in
    every state satisfying the invariant [Inv]: their number, and any window
    of them, values row by row and timestamps. *)
Definition serves_samples `{Library} (Inv : lib_state -> Prop) (h : handle)
    (ch : Z) (rows : list (Z * list Z)) : Prop :=
  (forall s, Inv s ->
     exists s', lib_call _ (DWIGetScaledSamplesCount h ch) s
                = (s', (0, Z.of_nat (length rows))) /\ Inv s')
  /\ (forall s pos n, Inv s ->
        0 <= pos -> 0 <= n -> pos + n <= Z.of_nat (length rows) ->
        exists s', lib_call _ (DWIGetScaledSamples h ch pos n) s
                   = (s', (0, (concat (snd <$> window pos n rows),
                               fst <$> window pos n rows)))
                   /\ Inv s').

(** The window of samples that the chunk starting at [start] covers. *)
Definition chunk_rows (rows : list (Z * list Z)) (chunk_size start : Z)
    : list (Z * list Z) :=
  window start (Z.min chunk_size (Z.of_nat (length rows) - start)) rows.

(** The chunk expected for the window starting at [start]: its timestamps
    and column [array_index] of its rows. *)
Definition chunk_series (ch : DWChannel) (array_index : Z)
    (rows : list (Z * list Z)) (chunk_size start : Z) : Series :=
  {| s_index := (chunk_rows rows chunk_size start).*1;
     s_data := column (Z.to_nat array_index)
                 (chunk_rows rows chunk_size start);
     s_name := name ch |}.

(** The native request for the window starting at [start]. *)
Definition chunk_request (ch : DWChannel) (count chunk_size start : Z)
    : event :=
  existT _ (DWIGetScaledSamples (c_arg (reader_handle ch)) (index (base ch))
              start (Z.min chunk_size (count - start))).

(** A file whose only channel repeats a timestamp inside its first chunk of
    two samples. *)
Definition repeats_file : RefFile :=
  {| rf_path := "demo.d7d";
     rf_info := zero_info;
     rf_channels :=
       [{| rc_struct := rc_struct demo_scalar;
           rc_samples := [(0, [10]); (0, [11]); (1, [12]); (2, [13])];
           rc_xml := ""; rc_axes := []; rc_reduced := [] |}];
     rf_header := [] |}.

(** [f = DWFile(); f.open(source)] on a store holding [repeats_file]. *)
Definition repeats_open : outcome unit * (DWFile * @world RefLib) :=
  match @DWFile_init RefLib 4 None (new_file, ref_world repeats_file None)
  with
  | (Ret _, s) => @open RefLib 4 "demo.d7d" s
  | r => r
  end.

(** * Further parts of the wrapper *)

(** ** Fixed-width text fields *)

(** [n] NUL bytes, the padding of a fixed-width [c_char] field. *)
Fixpoint nuls (n : nat) : string :=
  match n with
  | O => EmptyString
  | S n' => String Ascii.zero (nuls n')
  end.

(** Whether every byte of a string is an ASCII byte. *)
Fixpoint is_ascii (s : string) : bool :=
  match s with
  | EmptyString => true
  | String c s' => (byte_val c <? 0x80) && is_ascii s'
  end.

(** Whether the last byte of a string is NUL. *)
Fixpoint ends_with_nul (s : string) : bool :=
  match s with
  | EmptyString => false
  | String c s' =>
      match s' with
      | EmptyString => Ascii.eqb c Ascii.zero
      | String _ _ => ends_with_nul s'
      end
  end.

(** ** pandas containers *)

(** A [pandas.Series] as [series] builds it: no name is given. *)
Record PdSeries := {
  ps_index : list Z;
  ps_values : list Z;
  ps_name : option string
}.

(** [pd.Series(data, index=index)] for a one-dimensional array: the lengths
    must agree. *)
Definition pd_Series {St} (data index : list Z) : M St PdSeries :=
  if (length data =? length index)%nat
  then ret {| ps_index := index; ps_values := data; ps_name := None |}
  else raise (ValueError "Length of values does not match length of index").

(** [DWChannel.series] *)
Definition series `{Library} (fuel : nat) (self : DWChannel)
    : M world PdSeries :=
  r <- scaled fuel self 0 ;;
  let '(time, data) := r in
  pd_Series data time.

(** A [pandas.DataFrame] of doubles: row labels, column labels, rows. *)
Record DataFrame := {
  df_index : list Z;
  df_columns : list string;
  df_values : list (list Z)
}.

(** The rows of a flat array seen as [n] rows of [a] values. *)
Definition rows_of (data : list Z) (n a : nat) : list (list Z) :=
  (fun i => take a (drop (i * a) data)) <$> seq 0 n.

(** [data.reshape(n, a)]: the shape as (rows, columns) and the rows.  One of
    the two sizes may be [-1] and is then inferred; other negative sizes, and
    sizes that do not multiply to the length, raise [ValueError]. *)
Definition np_reshape {St} (data : list Z) (n a : Z)
    : M St (nat * nat * list (list Z)) :=
  let len := Z.of_nat (length data) in
  let bad := raise (ValueError "cannot reshape array") in
  if (n =? -1) && (a =? -1) then bad
  else if n =? -1 then
    if (a <=? 0) || negb (len mod a =? 0) then bad
    else ret (Z.to_nat (len / a), Z.to_nat a,
              rows_of data (Z.to_nat (len / a)) (Z.to_nat a))
  else if a =? -1 then
    if (n <=? 0) || negb (len mod n =? 0) then bad
    else ret (Z.to_nat n, Z.to_nat (len / n),
              rows_of data (Z.to_nat n) (Z.to_nat (len / n)))
  else if (n <? 0) || (a <? 0) || negb (n * a =? len) then bad
  else ret (Z.to_nat n, Z.to_nat a, rows_of data (Z.to_nat n) (Z.to_nat a)).

(** [arr[ix, :]]: the rows with the given indices, in that order. *)
Definition pick_rows {St} (arr : list (list Z)) (ix : list nat)
    : M St (list (list Z)) :=
  match mapM (fun i => arr !! i) ix with
  | Some rows => ret rows
  | None => raise (IndexError "index is out of bounds for axis 0")
  end.

(** [pd.DataFrame(data=values, index=index, columns=columns)] for a
    two-dimensional array with [ncols] columns: the labels must match the
    shape. *)
Definition pd_DataFrame {St} (values : list (list Z)) (ncols : nat)
    (index : list Z) (columns : list string) : M St DataFrame :=
  if (length values =? length index)%nat && (ncols =? length columns)%nat
  then ret {| df_index := index; df_columns := columns;
              df_values := values |}
  else raise (ValueError "Shape of passed values does not match the labels").

(** A [for] loop that collects the results of its body. *)
Fixpoint map_M {St A B} (f : A -> M St B) (l : list A) : M St (list B) :=
  match l with
  | [] => ret []
  | x :: l' => y <- f x ;; ys <- map_M f l' ;; ret (y :: ys)
  end.

(** [DWChannel.dataframe].  The sample count is queried once more for the
    reshape. *)
Definition dataframe `{Library} `{XmlParser} (fuel : nat) (self : DWChannel)
    : M world DataFrame :=
  r <- scaled fuel self 0 ;;
  let '(time, data) := r in
  columns <-
    (if array_size (base self) =? 1 then ret [name self]
     else
       axes <- array_info fuel self ;;
       cols <- map_M (columns fuel) axes ;;
       ret (concat cols)) ;;
  let '(time, ix) := np_unique time in
  n <- number_of_samples fuel self ;;
  arr <- np_reshape data n (array_size (base self)) ;;
  let '(_, ncols, rows) := arr in
  values <- pick_rows rows ix ;;
  pd_DataFrame values ncols time columns.

(** ** Events *)

(** [class DWEvent(ctypes.Structure)] *)
Record DWEvent := {
  event_type : Z;
  ev_time_stamp : Z;
  _event_text : string
}.

Definition zero_event : DWEvent :=
  {| event_type := 0; ev_time_stamp := 0; _event_text := "" |}.

(** [DWEvent.event_text] *)
Definition event_text (e : DWEvent) : string := decode_bytes (_event_text e).

(** The two native entry points [DWFile.events] calls. *)
Inductive event_call : Type -> Type :=
| DWIGetEventListCount (h : handle) : event_call Z
| DWIGetEventList (h : handle) : event_call (list DWEvent).

(** A library that also answers the event calls, on the same state. *)
Class EventLibrary `{Library} := {
  lib_event_call : forall R, event_call R -> lib_state -> lib_state * (Z * R)
}.

(** [DLL.f(...)] for an event call; the trace keeps to the calls of
    [call]. *)
Definition native_event `{EventLibrary} {R} (c : event_call R)
    : M world (Z * R) :=
  fun w =>
    let '(s, r) := lib_event_call R c (lib w) in
    (Ret r, {| lib := s; trace := trace w |}).

(** The frame [DWFile.events] returns: the index and the two columns. *)
Record EventFrame := {
  ef_index : list Z;
  ef_type : list Z;
  ef_text : list string
}.

(** [DWFile.events] *)
Definition events `{EventLibrary} (fuel : nat) : method EventFrame :=
  self <- get_obj ;;
  let h := c_arg (f_reader_handle self) in
  r <- lift (native_event (DWIGetEventListCount h)) ;;
  let '(status, count) := r in
  lift (check_lib_status fuel status) ;;;
  if count =? 0
  then ret {| ef_index := []; ef_type := []; ef_text := [] |}
  else
    (if count <? 0 then raise (ValueError "Array length must be >= 0")
     else ret tt) ;;;
    let events_ := replicate (Z.to_nat count) zero_event in
    r <- lift (native_event (DWIGetEventList h)) ;;
    let '(status, written) := r in
    events_ <- poke_M events_ written ;;
    lift (check_lib_status fuel status) ;;;
    ret {| ef_index := ev_time_stamp <$> events_;
           ef_type := event_type <$> events_;
           ef_text := event_text <$> events_ |}.

(** ** Scoped use *)

(** [open_file(source)]: [return DWFile(source)], a new object on which
    [__init__] runs; it starts from [new_file]. *)
Definition open_file `{Library} (fuel : nat) (source : option string)
    : method unit :=
  DWFile_init fuel source.

(** [try: body  finally: cleanup] *)
Definition finally {St A} (body : M St A) (cleanup : M St unit) : M St A :=
  fun s =>
    match body s with
    | (Ret a, s') =>
        match cleanup s' with
        | (Ret _, s'') => (Ret a, s'')
        | (Raise e, s'') => (Raise e, s'')
        | (Diverge, s'') => (Diverge, s'')
        | (Fault, s'') => (Fault, s'')
        end
    | (Raise e, s') =>
        match cleanup s' with
        | (Ret _, s'') => (Raise e, s'')
        | (Raise e', s'') => (Raise e', s'')
        | (Diverge, s'') => (Diverge, s'')
        | (Fault, s'') => (Fault, s'')
        end
    | r => r
    end.

(** [with f: body] for a session object [f]: [__enter__] returns the
    object, [__exit__] closes it and lets an exception of the body pass. *)
Definition with_session `{Library} {A} (body : method A) : method A :=
  finally body DWFile_exit.

(** [with open_file(source) as f: body]: the object is built first. *)
Definition with_open_file `{Library} {A} (fuel : nat)
    (source : option string) (body : method A) : method A :=
  open_file fuel source ;;; with_session body.

(** ** More reference stores *)

(** What a call leaves in its buffers when the store writes nothing. *)
Definition call_default (R : Type) (c : call R) : R :=
  match c in call R return R with
  | DWICreateReader => 0
  | DWIDestroyReader _ => tt
  | DWIOpenDataFile _ _ => zero_info
  | DWICloseDataFile _ => tt
  | DWIGetMeasurementInfo _ => zero_info
  | DWIGetChannelListCount _ => 0
  | DWIGetChannelList _ => []
  | DWIGetScaledSamplesCount _ _ => 0
  | DWIGetScaledSamples _ _ _ _ => ([], [])
  | DWIGetReducedValuesCount _ _ => (0, 0)
  | DWIGetReducedValues _ _ _ _ => []
  | DWIGetChannelProps _ _ _ b =>
      match b return propbuf_out b with
      | IntBuf => 0
      | DoubleBuf => 0
      | StrBuf _ => ""
      end
  | DWIGetArrayInfoCount _ _ => 0
  | DWIGetArrayInfoList _ _ => []
  | DWIGetHeaderEntryCount _ => 0
  | DWIGetHeaderEntryTextF _ _ _ => ""
  | DWIGetHeaderEntryNameF _ _ _ => ""
  | DWGetLastStatus len => (1, "", len)
  end.

(** A store without state that fails every call with status 1 and answers
    every [DWGetLastStatus] with the retry status and the length [len']. *)
Definition retry_call (len' : Z) (R : Type) (c : call R) (s : unit)
    : unit * (Z * R) :=
  match c in call R return unit * (Z * R) with
  | DWGetLastStatus _ => (tt, (5, (1, "", len')))
  | c' => (tt, (1, call_default _ c'))
  end.

Definition RetryLib (len' : Z) : Library :=
  {| lib_state := unit; lib_call := retry_call len' |}.

(** The events the reference store serves for an open file. *)
Definition demo_events : list DWEvent :=
  [{| event_type := 1; ev_time_stamp := 0;
      _event_text := "storing started" |};
   {| event_type := 2; ev_time_stamp := 5;
      _event_text := "storing stopped" |}].

Definition ref_event_call (R : Type) (c : event_call R) (s : RefState)
    : RefState * (Z * R) :=
  match c in event_call R return RefState * (Z * R) with
  | DWIGetEventListCount h =>
      ref_on_file s h 0 (fun _ => (s, (0, Z.of_nat (length demo_events))))
  | DWIGetEventList h =>
      ref_on_file s h [] (fun _ => (s, (0, demo_events)))
  end.

Definition RefEvents : @EventLibrary RefLib :=
  @Build_EventLibrary RefLib ref_event_call.

(** The object and the native side after [__init__] has run, without a
    source, on a fresh store holding the sample file. *)
Definition demo_init (xml : string) (fault : option (ref_step * Z))
    : DWFile * @world RefLib :=
  (@DWFile_init RefLib 4 None (new_file, ref_world (demo_file xml) fault)).2.

(** The channel objects [open] builds from the structures the store wrote
    into a catalog buffer of [n] entries, for a session with handle [h]. *)
Definition catalog (h : option handle) (n : Z) (written : list DWChannelStruct)
    : list DWChannel :=
  (fun ch => {| base := ch; reader_handle := h |})
    <$> (written ++ drop (length written)
                      (replicate (Z.to_nat n) zero_channel_struct)).

(** A file whose only channel has reduced values. *)
Definition reduced_file : RefFile :=
  {| rf_path := "demo.d7d";
     rf_info := zero_info;
     rf_channels :=
       [{| rc_struct := rc_struct demo_scalar;
           rc_samples := [(0, [10]); (1, [12])];
           rc_xml := ""; rc_axes := [];
           rc_reduced :=
             [{| time_stamp := 0; ave := 11; min := 10; max := 12;
                 rms := 11 |}] |}];
     rf_header := [] |}.

(** [f = DWFile(); f.open(source)] on a store holding [reduced_file]. *)
Definition reduced_open : outcome unit * (DWFile * @world RefLib) :=
  match @DWFile_init RefLib 4 None (new_file, ref_world reduced_file None)
  with
  | (Ret _, s) => @open RefLib 4 "demo.d7d" s
  | r => r
  end.

(** * Properties *)

(** ** Running programs *)

Lemma native_run `{Library} {R} (c : call R) (w : world) :
  native c w =
    (Ret (snd (lib_call R c (lib w))),
     {| lib := fst (lib_call R c (lib w));
        trace := trace w ++ [existT R c] |}).
Proof. unfold native. destruct (lib_call R c (lib w)); reflexivity. Qed.

Lemma check_lib_status_ok `{Library} (fuel : nat) (w : world) :
  check_lib_status fuel 0 w = (Ret tt, w).
Proof. reflexivity. Qed.

Lemma bind_Ret {St A B} (m : M St A) (k : A -> M St B) s a s' :
  m s = (Ret a, s') -> bind m k s = k a s'.
Proof. intros Hm. unfold bind. rewrite Hm. reflexivity. Qed.

Lemma bind_Raise {St A B} (m : M St A) (k : A -> M St B) s e s' :
  m s = (Raise e, s') -> bind m k s = (Raise e, s').
Proof. intros Hm. unfold bind. rewrite Hm. reflexivity. Qed.

Lemma native_eq `{Library} {R} (c : call R) (w : world) s1 r :
  lib_call R c (lib w) = (s1, r) ->
  native c w = (Ret r, {| lib := s1; trace := trace w ++ [existT R c] |}).
Proof. intros Hc. rewrite native_run, Hc. reflexivity. Qed.

Lemma lift_eq `{Library} {O A} (m : M world A) (o : O) (w : world) r w' :
  m w = (r, w') -> lift m (o, w) = (r, (o, w')).
Proof. intros Hm. unfold lift. cbn. rewrite Hm. reflexivity. Qed.

(** One step of a program whose head is a native call with a known answer,
    or a status check on [DWSTAT_OK]. *)
Ltac step_native E :=
  first
    [ erewrite bind_Ret; [|eapply lift_eq, native_eq; exact E]
    | erewrite bind_Ret; [|eapply native_eq; exact E] ];
  cbv beta iota.

Ltac step_ok :=
  first
    [ erewrite bind_Ret; [|eapply lift_eq, check_lib_status_ok]
    | erewrite bind_Ret; [|eapply check_lib_status_ok]
    | erewrite bind_Ret; [|reflexivity] ];
  cbv beta iota.

Lemma last_status_loop_negotiates `{Library} s len lens s' msg :
  negotiates s len lens s' msg ->
  forall fuel tr, (length lens <= fuel)%nat ->
  last_status_loop fuel len {| lib := s; trace := tr |} =
    (Ret msg, {| lib := s'; trace := tr ++ last_status_calls lens |}).
Proof.
  induction 1 as [s len s' r e msg len' Hc Hr
                 |s len s1 e m len' lens s' msg Hc Hl _ IH];
    intros [|fuel] tr Hf; simpl in Hf; try lia.
  - cbn [last_status_loop]. unfold bind. rewrite native_run. cbn.
    rewrite Hc. cbn. cbn in Hr.
    destruct (Z.eqb_spec r 5); [contradiction|reflexivity].
  - cbn [last_status_loop]. unfold bind. rewrite native_run. cbn.
    rewrite Hc. cbn.
    destruct (Z.ltb_spec len' 0); [lia|].
    rewrite IH by lia. unfold last_status_calls. cbn.
    rewrite <- app_assoc. reflexivity.
Qed.

Lemma last_status_loop_inv `{Library} fuel :
  forall len w msg w',
  last_status_loop fuel len w = (Ret msg, w') ->
  exists lens, negotiates (lib w) len lens (lib w') msg
               /\ (length lens <= fuel)%nat
               /\ trace w' = trace w ++ last_status_calls lens.
Proof.
  induction fuel as [|fuel IH]; intros len w msg w' Hrun;
    cbn [last_status_loop] in Hrun.
  - discriminate.
  - unfold bind in Hrun. rewrite native_run in Hrun. cbn in Hrun.
    destruct (lib_call _ (DWGetLastStatus len) (lib w))
      as [s1 [r [[e m] len']]] eqn:Hc.
    cbn in Hrun.
    destruct (Z.eqb_spec r 5) as [->|Hr].
    + destruct (Z.ltb_spec len' 0); [discriminate|].
      apply IH in Hrun as (lens & Hn & Hl & Ht). cbn in Hn, Ht.
      exists (len :: lens). split; [|split].
      * eapply negotiates_retry; eauto.
      * simpl. lia.
      * rewrite Ht. unfold last_status_calls. cbn.
        rewrite <- app_assoc. reflexivity.
    + injection Hrun as <- <-. exists [len]. split; [|split].
      * eapply negotiates_done; eauto.
      * simpl. lia.
      * reflexivity.
Qed.

Lemma check_lib_status_raises `{Library} fuel status (w : world) lens s' msg :
  status <> 0 ->
  negotiates (lib w) 1024 lens s' msg ->
  (length lens <= fuel)%nat ->
  check_lib_status fuel status w =
    (Raise (RuntimeError (error_text status msg)),
     {| lib := s'; trace := trace w ++ last_status_calls lens |}).
Proof.
  intros Hs Hn Hf. unfold check_lib_status. cbn [status_value].
  destruct (Z.eqb_spec status 0); [contradiction|].
  unfold bind. destruct w as [s tr]. cbn in Hn.
  rewrite (last_status_loop_negotiates _ _ _ _ _ Hn fuel tr Hf).
  reflexivity.
Qed.

Lemma check_lib_status_not_ret `{Library} fuel status (w : world) r w' :
  check_lib_status fuel status w = (Ret r, w') -> status = 0.
Proof.
  unfold check_lib_status. cbn [status_value].
  destruct (Z.eqb_spec status 0); [trivial|].
  unfold bind. destruct (last_status_loop fuel 1024 w) as [[]]; discriminate.
Qed.

(** ** Error/status translation *)

(** C6: [check_lib_status] returns normally exactly when the status is OK (and
    then calls nothing).  For any other status, when the store reports its
    message buffer as too short for the lengths [lens] up to the last and then
    answers otherwise, leaving [msg], the function raises one [RuntimeError]
    whose text carries the status number and [msg]; the queries it made are
    exactly those with the lengths [lens], starting at 1024. *)
Theorem check_lib_status_spec `{Library} (fuel : nat) (status : Z) (w : world)
    (lens : list Z) (s' : lib_state) (msg : string) :
  negotiates (lib w) 1024 lens s' msg ->
  (length lens <= fuel)%nat ->
  (status = status_value DWSTAT_OK ->
     check_lib_status fuel status w = (Ret tt, w))
  /\ (status <> status_value DWSTAT_OK ->
     check_lib_status fuel status w =
       (Raise (RuntimeError
                 ("Error " +:+ pretty status +:+ ": " +:+ decode_bytes msg)),
        {| lib := s'; trace := trace w ++ last_status_calls lens |}))
  /\ (forall fuel' r w',
        check_lib_status fuel' status w = (Ret r, w') ->
        status = status_value DWSTAT_OK).
Proof.
  intros Hn Hf. split; [|split].
  - intros ->. apply check_lib_status_ok.
  - intros Hs. apply check_lib_status_raises; assumption.
  - intros fuel' r w'. apply check_lib_status_not_ret.
Qed.

Lemma ref_long_negotiates :
  @negotiates RefLib (@lib RefLib ref_long_world) 1024 [1024; 1115]
    (@lib RefLib ref_long_world) long_message.
Proof.
  eapply (@negotiates_retry RefLib); [reflexivity|lia|].
  eapply (@negotiates_done RefLib); [reflexivity|discriminate].
Qed.

Lemma check_lib_status_spec_witness :
  @check_lib_status RefLib 2 11 ref_long_world =
    (Raise (RuntimeError ("Error 11: " +:+ long_message)),
     @Build_world RefLib (@lib RefLib ref_long_world)
       (last_status_calls [1024; 1115])).
Proof.
  exact (proj1 (proj2 (@check_lib_status_spec RefLib 2 11 ref_long_world
                         [1024; 1115] _ long_message
                         ref_long_negotiates (le_n 2)))
               ltac:(discriminate)).
Defined.

(** ** Measurement metadata *)

(** C10: the two exposed start times are computed from [_start_store_time]
    alone: on any two records that agree on that field, whatever their other
    fields, [start_measure_time] of one equals [start_store_time] of the
    other; in particular they agree on every record, and
    [_start_measure_time] influences neither. *)
Theorem start_measure_time_eq_start_store_time
    (sr sr' m m' st d d' : double) :
  start_measure_time
    {| sample_rate := sr; _start_measure_time := m;
       _start_store_time := st; duration := d |}
  = start_store_time
      {| sample_rate := sr'; _start_measure_time := m';
         _start_store_time := st; duration := d' |}
  /\ start_measure_time
       {| sample_rate := sr; _start_measure_time := m;
          _start_store_time := st; duration := d |}
     = start_measure_time
         {| sample_rate := sr; _start_measure_time := m';
            _start_store_time := st; duration := d |}
  /\ start_store_time
       {| sample_rate := sr; _start_measure_time := m;
          _start_store_time := st; duration := d |}
     = start_store_time
         {| sample_rate := sr; _start_measure_time := m';
            _start_store_time := st; duration := d |}.
Proof. repeat split. Qed.

(** ** Timestamp de-duplication *)

Lemma insert_first_fst t i s v :
  v ∈ (insert_first t i s).*1 <-> v = t \/ v ∈ s.*1.
Proof.
  induction s as [|[u j] s IH]; cbn.
  - rewrite list_elem_of_singleton, elem_of_nil. tauto.
  - destruct (Z.ltb_spec t u); [cbn; rewrite !elem_of_cons; tauto|].
    destruct (Z.eqb_spec t u) as [->|]; cbn.
    + rewrite !elem_of_cons. tauto.
    + rewrite !elem_of_cons, IH. tauto.
Qed.

Lemma insert_first_sorted t i s :
  StronglySorted Z.lt s.*1 -> StronglySorted Z.lt (insert_first t i s).*1.
Proof.
  induction s as [|[u j] s IH]; cbn; intros Hs.
  - repeat constructor.
  - apply StronglySorted_inv in Hs as [Hs Hu].
    destruct (Z.ltb_spec t u).
    + cbn. constructor; [constructor; assumption|].
      constructor; [assumption|].
      eapply Forall_impl; [exact Hu|]. cbn. intros; lia.
    + destruct (Z.eqb_spec t u) as [->|]; cbn.
      * constructor; assumption.
      * constructor; [auto|].
        apply Forall_forall. intros v Hv.
        apply insert_first_fst in Hv as [->|Hv]; [lia|].
        rewrite Forall_forall in Hu. auto.
Qed.

Lemma insert_first_elem t i s v j :
  StronglySorted Z.lt s.*1 ->
  (v, j) ∈ insert_first t i s <->
  (v = t /\ j = i) \/ ((v, j) ∈ s /\ v <> t).
Proof.
  induction s as [|[u k] s IH]; cbn; intros Hs.
  - rewrite list_elem_of_singleton. split.
    + intros [= -> ->]. auto.
    + intros [[-> ->]|[Hin _]]; [reflexivity|inversion Hin].
  - apply StronglySorted_inv in Hs as [Hs Hu].
    rewrite Forall_forall in Hu.
    assert (Hgt : forall v' j', (v', j') ∈ s -> u < v').
    { intros v' j' Hin. apply Hu.
      apply list_elem_of_fmap. exists (v', j'). auto. }
    assert (Hfin : forall P : Prop, (v, j) ∈ s -> (u < v -> P) -> P).
    { intros P Hin HP. apply HP. eapply Hgt, Hin. }
    destruct (Z.ltb_spec t u).
    + rewrite !elem_of_cons. split.
      * intros [Heq|[Heq|Hin]]; simplify_eq; auto;
          right; (split; [auto|]); [lia|].
        apply (Hfin _ Hin). lia.
      * intros [[-> ->]|[[Heq|Hin] _]]; simplify_eq; auto.
    + destruct (Z.eqb_spec t u) as [->|].
      * rewrite !elem_of_cons. split.
        -- intros [Heq|Hin]; simplify_eq; auto.
           right. split; [auto|]. apply (Hfin _ Hin). lia.
        -- intros [[-> ->]|[[Heq|Hin] Hne]]; simplify_eq; auto.
      * rewrite !elem_of_cons, (IH Hs). split.
        -- intros [Heq|[[-> ->]|[Hin Hne]]]; simplify_eq; auto.
        -- intros [[-> ->]|[[Heq|Hin] Hne]]; simplify_eq; auto.
Qed.

Lemma unique_from_sorted ar :
  forall i, StronglySorted Z.lt (unique_from i ar).*1.
Proof.
  induction ar as [|t ar IH]; intros i; cbn.
  - constructor.
  - apply insert_first_sorted, IH.
Qed.

Lemma unique_from_elem ar :
  forall i v j,
  (v, j) ∈ unique_from i ar <->
  exists k, j = (i + k)%nat /\ ar !! k = Some v
            /\ forall k', (k' < k)%nat -> ar !! k' <> Some v.
Proof.
  induction ar as [|t ar IH]; intros i v j; cbn.
  - split; [intros Hin; inversion Hin|intros (k & _ & Hk & _); discriminate].
  - rewrite insert_first_elem by apply unique_from_sorted.
    rewrite IH. split.
    + intros [[-> ->]|[(k & -> & Hk & Hfirst) Hne]].
      * exists 0%nat. split; [lia|]. split; [reflexivity|]. intros; lia.
      * exists (S k). split; [lia|]. split; [exact Hk|].
        intros [|k'] Hlt; cbn; [congruence|]. apply Hfirst. lia.
    + intros ([|k] & -> & Hk & Hfirst); cbn in Hk.
      * left. split; [congruence|lia].
      * right. split.
        -- exists k. split; [lia|]. split; [exact Hk|].
           intros k' Hlt. apply (Hfirst (S k')). lia.
        -- intros ->. apply (Hfirst 0%nat); [lia|reflexivity].
Qed.

Lemma unique_from_increasing ar :
  forall i, StronglySorted Z.lt ar ->
  unique_from i ar = zip ar (seq i (length ar)).
Proof.
  induction ar as [|t ar IH]; intros i Hs; cbn; [reflexivity|].
  apply StronglySorted_inv in Hs as [Hs Ht].
  rewrite (IH (S i) Hs).
  destruct ar as [|u ar]; cbn; [reflexivity|].
  apply Forall_inv in Ht.
  destruct (Z.ltb_spec t u); [reflexivity|lia].
Qed.

Lemma np_unique_increasing ar :
  StronglySorted Z.lt ar -> np_unique ar = (ar, seq 0 (length ar)).
Proof.
  intros Hs. unfold np_unique. rewrite (unique_from_increasing ar 0 Hs).
  rewrite fst_zip by (rewrite length_seq; lia).
  rewrite snd_zip by (rewrite length_seq; lia). reflexivity.
Qed.

(** C4, as stated, fails: [np.unique] returns the distinct timestamps in
    ascending order, so a duplicate-free sequence that is not ascending comes
    back reordered. *)
Lemma np_unique_reorders :
  NoDup [2; 1] /\ np_unique [2; 1] = ([1; 2], [1; 0]%nat)
  /\ (np_unique [2; 1]).1 <> [2; 1].
Proof.
  split; [|split].
  - repeat constructor; rewrite ?elem_of_cons, ?elem_of_nil; intuition lia.
  - reflexivity.
  - discriminate.
Qed.

(** C4, amended: de-duplication returns the distinct timestamps in strictly
    ascending order, each paired with the index of its first occurrence in
    the input (so of equal timestamps the first is kept); applying it again to
    its own result changes nothing; and a sequence that is already strictly
    increasing is returned unchanged, every index kept. *)
Theorem np_unique_keeps_first (ar : list double) :
  StronglySorted Z.lt (np_unique ar).1
  /\ (forall v j,
        (v, j) ∈ zip (np_unique ar).1 (np_unique ar).2 <->
        ar !! j = Some v /\ forall k, (k < j)%nat -> ar !! k <> Some v)
  /\ (np_unique (np_unique ar).1).1 = (np_unique ar).1
  /\ (StronglySorted Z.lt ar -> np_unique ar = (ar, seq 0 (length ar))).
Proof.
  split; [|split; [|split]].
  - apply unique_from_sorted.
  - intros v j. unfold np_unique. cbn [fst snd]. rewrite zip_fst_snd.
    rewrite unique_from_elem. split.
    + intros (k & -> & Hk & Hfirst). auto.
    + intros [Hj Hfirst]. exists j. auto.
  - rewrite (np_unique_increasing (np_unique ar).1); [reflexivity|].
    apply unique_from_sorted.
  - apply np_unique_increasing.
Qed.

Lemma np_unique_keeps_first_witness :
  StronglySorted Z.lt [1; 2; 4]
  /\ np_unique [1; 2; 4] = ([1; 2; 4], seq 0 (length [1; 2; 4])).
Proof.
  assert (Hs : StronglySorted Z.lt [1; 2; 4]).
  { repeat constructor; lia. }
  split; [exact Hs|].
  exact (proj2 (proj2 (proj2 (np_unique_keeps_first [1; 2; 4]))) Hs).
Defined.

(** ** Channel lookup *)

Lemma getitem_str_Some (chs : list DWChannel) (key : string) (ch : DWChannel) :
  getitem_str chs key = Some ch -> ch ∈ chs /\ name ch = key.
Proof.
  induction chs as [|c chs IH]; cbn; [discriminate|].
  destruct (String.eqb_spec (name c) key) as [Heq|Hne].
  - intros [= ->]. split; [apply list_elem_of_here|exact Heq].
  - intros Hfound. destruct (IH Hfound) as [Hin Hname].
    split; [apply list_elem_of_further, Hin|exact Hname].
Qed.

Lemma getitem_str_None (chs : list DWChannel) (key : string) :
  getitem_str chs key = None <-> forall ch, ch ∈ chs -> name ch <> key.
Proof.
  induction chs as [|c chs IH]; cbn.
  - split; [intros _ ch Hin; inversion Hin|reflexivity].
  - destruct (String.eqb_spec (name c) key) as [Heq|Hne].
    + split; [discriminate|]. intros Hall.
      destruct (Hall c (list_elem_of_here _ _) Heq).
    + rewrite IH. split.
      * intros Hall ch Hin. apply elem_of_cons in Hin as [->|Hin]; auto.
      * intros Hall ch Hin. apply Hall, list_elem_of_further, Hin.
Qed.

(** C3, the code at the failing inputs: an integer key never reaches a
    scan, it raises [KeyError] whatever the catalog holds, also when it is
    the index of a catalogued channel; a string key that names no channel
    falls off the end of the scan and yields [None] without any error; only
    the lookup by name finds the channel. *)
Theorem getitem_int_key_and_missing_name :
  (forall (St : Type) (self : DWFile) (z : Z) (s : St),
     getitem self (KeyInt z) s = (Raise (KeyError (KeyInt z)), s))
  /\ getitem (set_channels [demo_ch0; demo_ch1] new_file)
       (KeyInt (index (base demo_ch0))) tt
     = (Raise (KeyError (KeyInt 0)), tt)
  /\ getitem (set_channels [demo_ch0; demo_ch1] new_file)
       (KeyStr "no such channel") tt
     = (Ret None, tt)
  /\ getitem (set_channels [demo_ch0; demo_ch1] new_file)
       (KeyStr (name demo_ch0)) tt
     = (Ret (Some demo_ch0), tt)
  /\ getitem (set_channels [demo_ch0; demo_ch1] new_file)
       (KeyChannel demo_ch1) tt
     = (Ret (Some demo_ch1), tt).
Proof. repeat split. Qed.

(** ** Session life cycle *)

Lemma close_closed `{Library} (self : DWFile) (w : world) :
  closed self = true -> close (self, w) = (Ret tt, (self, w)).
Proof.
  intros Hc. unfold close, bind, get_obj. cbn. rewrite Hc. reflexivity.
Qed.

Lemma closes_closed `{Library} (n : nat) (self : DWFile) (w : world) :
  closed self = true -> closes n (self, w) = (Ret tt, (self, w)).
Proof.
  intros Hc. induction n as [|n IH]; cbn; [reflexivity|].
  unfold bind. rewrite close_closed by assumption. exact IH.
Qed.

Lemma close_run `{Library} (self : DWFile) (w : world) :
  exists self' w' calls,
    close (self, w) = (Ret tt, (self', w'))
    /\ closed self' = true
    /\ trace w' = trace w ++ calls
    /\ released calls
       = (if negb (closed self) && bool_decide (is_Some (f_reader_handle self))
          then 1 else 0)%nat
    /\ files_closed calls = (if closed self then 0 else 1)%nat.
Proof.
  destruct (closed self) eqn:Hc.
  - exists self, w, []. rewrite close_closed by assumption.
    rewrite app_nil_r. auto.
  - unfold close, bind, get_obj, lift, set_obj. cbn. rewrite Hc. cbn.
    rewrite native_run. cbn.
    destruct (f_reader_handle self) as [h|] eqn:Hh; cbn.
    + rewrite native_run. cbn. do 3 eexists.
      split; [reflexivity|]. split; [reflexivity|]. cbn.
      split; [rewrite <- app_assoc; reflexivity|].
      split; reflexivity.
    + do 3 eexists. split; [reflexivity|]. split; [reflexivity|]. cbn.
      split; [reflexivity|]. split; reflexivity.
Qed.

Lemma close_open_session `{Library} (self : DWFile) (w : world) (h : handle) :
  closed self = false ->
  f_reader_handle self = Some h ->
  close (self, w)
  = (Ret tt,
     (set_channels [] (set_closed true (set_reader_handle None self)),
      {| lib := (lib_call _ (DWIDestroyReader h)
                   (lib_call _ (DWICloseDataFile h) (lib w)).1).1;
         trace := (trace w ++ [existT _ (DWICloseDataFile h)])
                  ++ [existT _ (DWIDestroyReader h)] |})).
Proof.
  intros Hc Hh. unfold close. step_ok. cbn [fst snd].
  rewrite Hc, Hh. cbn [negb c_arg default].
  destruct (lib_call _ (DWICloseDataFile h) (lib w)) as [s1 r1] eqn:E1.
  cbn [fst].
  destruct (lib_call _ (DWIDestroyReader h) s1) as [s2 r2] eqn:E2.
  cbn [fst].
  step_native E1.
  erewrite bind_Ret; cycle 1.
  { step_native E2. reflexivity. }
  step_ok. reflexivity.
Qed.

(** C8, the code at the failing input: after an [open] that the store
    refuses at [DWIOpenDataFile], the session is still marked closed, so
    neither the [close()] in the handler of [open] nor any later [close()]
    releases the reader created by [__init__]: it is released zero times and
    stays alive in the store.  After an [open] that succeeds, the same two
    [close()] calls release the reader exactly once. *)
Theorem close_after_refused_open_releases_nothing :
  let failed := demo_open "" (Some (AtOpen, 2)) in
  let after := @closes RefLib 2 failed.2 in
  let opened := demo_open "" None in
  let after_ok := @closes RefLib 2 opened.2 in
  failed.1 = Raise (RuntimeError "Error 2: file cannot be opened")
  /\ f_reader_handle failed.2.1 = Some 4096
  /\ after.1 = Ret tt
  /\ released (@trace RefLib after.2.2) = 0%nat
  /\ rs_readers (@lib RefLib after.2.2) = [(4096, false)]
  /\ opened.1 = Ret tt
  /\ after_ok.1 = Ret tt
  /\ released (@trace RefLib after_ok.2.2) = 1%nat
  /\ rs_readers (@lib RefLib after_ok.2.2) = [].
Proof. vm_compute. repeat split. Qed.

(** X24: [close()] is idempotent.  It never raises and leaves the session
    marked closed; any number of further [close()] calls make no native call
    and change nothing; over all of them the reader is released once if the
    session was open (flag clear, handle present) at the first call, and not
    at all otherwise -- never twice. *)
Theorem close_idempotent `{Library} (self : DWFile) (w : world) (n : nat) :
  exists self' w' calls,
    close (self, w) = (Ret tt, (self', w'))
    /\ closed self' = true
    /\ closes n (self', w') = (Ret tt, (self', w'))
    /\ closes (S n) (self, w) = (Ret tt, (self', w'))
    /\ trace w' = trace w ++ calls
    /\ released calls
       = (if negb (closed self) && bool_decide (is_Some (f_reader_handle self))
          then 1 else 0)%nat.
Proof.
  destruct (close_run self w) as (self' & w' & calls & Hrun & Hc & Ht & Hr & _).
  exists self', w', calls. repeat split; try assumption.
  - apply closes_closed, Hc.
  - cbn. unfold bind. rewrite Hrun. apply closes_closed, Hc.
Qed.

(** C7, the code at the failing input: when the store accepts
    [DWIOpenDataFile] and then fails [DWIGetMeasurementInfo], [open] raises
    but its [close()] does nothing, because [closed] is still [True]: no data
    file is closed, no reader released, the object keeps its handle and the
    store keeps the reader with its file open.  A failure one step later, at
    [DWIGetChannelListCount] or [DWIGetChannelList], is rolled back: file
    closed, reader released, handle dropped. *)
Theorem open_failure_at_measurement_info_leaks :
  let at_info := demo_open "" (Some (AtInfo, 4)) in
  let at_count := demo_open "" (Some (AtCount, 4)) in
  let at_list := demo_open "" (Some (AtList, 4)) in
  (at_info.1 = Raise (RuntimeError "Error 4: file is corrupt")
   /\ released (@trace RefLib at_info.2.2) = 0%nat
   /\ files_closed (@trace RefLib at_info.2.2) = 0%nat
   /\ closed at_info.2.1 = true
   /\ f_reader_handle at_info.2.1 = Some 4096
   /\ rs_readers (@lib RefLib at_info.2.2) = [(4096, true)]
   /\ (@closes RefLib 2 at_info.2).2 = at_info.2)
  /\ (at_count.1 = Raise (RuntimeError "Error 4: file is corrupt")
      /\ released (@trace RefLib at_count.2.2) = 1%nat
      /\ files_closed (@trace RefLib at_count.2.2) = 1%nat
      /\ closed at_count.2.1 = true
      /\ f_reader_handle at_count.2.1 = None
      /\ channels at_count.2.1 = Some []
      /\ rs_readers (@lib RefLib at_count.2.2) = [])
  /\ (at_list.1 = Raise (RuntimeError "Error 4: file is corrupt")
      /\ released (@trace RefLib at_list.2.2) = 1%nat
      /\ files_closed (@trace RefLib at_list.2.2) = 1%nat
      /\ closed at_list.2.1 = true
      /\ f_reader_handle at_list.2.1 = None
      /\ rs_readers (@lib RefLib at_list.2.2) = []).
Proof. vm_compute. repeat split. Qed.

Lemma released_last_status_calls lens :
  released (last_status_calls lens) = 0%nat
  /\ files_closed (last_status_calls lens) = 0%nat.
Proof. induction lens as [|len lens [IH1 IH2]]; split; cbn; auto. Qed.

(** The defect behind C7 on any library: a session whose [closed] flag is
    set (as [__init__] leaves it), a store that accepts [DWIOpenDataFile] and
    answers [DWIGetMeasurementInfo] with a failure status.  [open] raises,
    and among the native calls it made there is neither a
    [DWICloseDataFile] nor a [DWIDestroyReader]. *)
Lemma open_measurement_info_failure `{Library} fuel source self (w : world)
    status :
  closed self = true ->
  (lib_call _ (DWIOpenDataFile (c_arg (f_reader_handle self)) source)
     (lib w)).2.1 = 0 ->
  answers fuel (DWIGetMeasurementInfo (c_arg (f_reader_handle self)))
    (lib_call _ (DWIOpenDataFile (c_arg (f_reader_handle self)) source)
       (lib w)).1 status ->
  status <> 0 ->
  exists msg self' w' calls,
    open fuel source (self, w) = (Raise (RuntimeError msg), (self', w'))
    /\ trace w' = trace w ++ calls
    /\ released calls = 0%nat
    /\ files_closed calls = 0%nat
    /\ closed self' = true
    /\ f_reader_handle self' = f_reader_handle self.
Proof.
  intros Hc Hopen [Hst (lens & s' & msg & Hn & Hf)] Hne.
  destruct (lib_call _ (DWIOpenDataFile (c_arg (f_reader_handle self)) source)
              (lib w)) as [s1 [st1 i1]] eqn:E1.
  cbn in Hopen, Hst, Hn. subst st1.
  destruct (lib_call _ (DWIGetMeasurementInfo (c_arg (f_reader_handle self)))
              s1) as [s2 [st2 i2]] eqn:E2.
  cbn in Hst, Hn. subst st2.
  destruct (released_last_status_calls lens) as [Hr Hfc].
  assert (Hbody : open_body fuel source (self, w) =
    (Raise (RuntimeError (error_text status msg)),
     (set_info i2 (set_info i1 (set_info zero_info self)),
      {| lib := s';
         trace := ((trace w ++ [existT _ (DWIOpenDataFile
                                   (c_arg (f_reader_handle self)) source)])
                   ++ [existT _ (DWIGetMeasurementInfo
                                   (c_arg (f_reader_handle self)))])
                  ++ last_status_calls lens |}))).
  { unfold open_body.
    step_ok. step_ok. step_native E1. step_ok. step_ok.
    step_native E2. step_ok.
    erewrite bind_Raise; [reflexivity|].
    eapply lift_eq, check_lib_status_raises; eauto. }
  unfold open, try_except_RuntimeError. rewrite Hbody.
  rewrite close_closed by (cbn; exact Hc).
  do 4 eexists. split; [reflexivity|]. cbn [trace].
  split; [rewrite <- !app_assoc; reflexivity|].
  unfold released, files_closed in *. cbn.
  repeat split; auto.
Qed.

(** ** Calls on a closed session *)

Lemma refused_bind `{Library} {A B} status Inv (m : M world A)
    (k : A -> M world B) (w : world) :
  refused status Inv (m w) -> refused status Inv (bind m k w).
Proof.
  intros (msg & Hm & Hinv). exists msg. unfold bind.
  destruct (m w) as [[] w1]; cbn in Hm, Hinv |- *; try discriminate.
  injection Hm as ->. split; [reflexivity|exact Hinv].
Qed.

(** A native call that the store refuses, followed by the status check. *)
Lemma native_refused `{Library} {R A} fuel Inv (c : call R) status
    (w : world) (k : R -> M world A) :
  refuses fuel Inv c status ->
  status <> 0 ->
  Inv (lib w) ->
  refused status Inv
    ((r <- native c ;;
      let '(st, out) := r in
      check_lib_status fuel st ;;; k out) w).
Proof.
  intros Href Hst Hinv.
  destruct (Href _ Hinv) as [Hs (lens & s' & msg & Hn & Hf & Hinv')].
  destruct (lib_call R c (lib w)) as [s1 [st out]] eqn:E.
  cbn in Hs, Hn. subst st.
  step_native E.
  erewrite bind_Raise;
    [|eapply check_lib_status_raises with (w := Build_world _ s1 _);
      [exact Hst|exact Hn|exact Hf]].
  exists msg. split; [reflexivity|exact Hinv'].
Qed.

Lemma number_of_samples_refused `{Library} fuel Inv ch h status (w : world) :
  reader_handle ch = Some h ->
  refuses fuel Inv (DWIGetScaledSamplesCount h (index (base ch))) status ->
  status <> 0 -> Inv (lib w) ->
  refused status Inv (number_of_samples fuel ch w).
Proof.
  intros Hh Href Hst Hinv. unfold number_of_samples. rewrite Hh.
  apply native_refused; assumption.
Qed.

Lemma reduced_refused `{Library} fuel Inv ch h status (w : world) :
  reader_handle ch = Some h ->
  refuses fuel Inv (DWIGetReducedValuesCount h (index (base ch))) status ->
  status <> 0 -> Inv (lib w) ->
  refused status Inv (reduced fuel ch w).
Proof.
  intros Hh Href Hst Hinv. unfold reduced. rewrite Hh. cbn [c_arg default].
  destruct (Href _ Hinv) as [Hs (lens & s' & msg & Hn & Hf & Hinv')].
  destruct (lib_call _ (DWIGetReducedValuesCount h (index (base ch))) (lib w))
    as [s1 [st [count block]]] eqn:E.
  cbn in Hs, Hn. subst st.
  step_native E.
  erewrite bind_Raise;
    [|eapply check_lib_status_raises with (w := Build_world _ s1 _);
      [exact Hst|exact Hn|exact Hf]].
  exists msg. split; [reflexivity|exact Hinv'].
Qed.

Lemma array_info_scalar `{Library} fuel ch (w : world) :
  array_size (base ch) < 2 -> array_info fuel ch w = (Ret [], w).
Proof.
  intros Hs. unfold array_info.
  destruct (Z.ltb_spec (array_size (base ch)) 2); [reflexivity|lia].
Qed.

Lemma scaled_out_of_range `{Library} fuel ch (w : world) ai :
  ~ 0 <= ai < array_size (base ch) ->
  scaled fuel ch ai w = (Raise (IndexError "array index is out of range"), w).
Proof.
  intros Hai. unfold scaled.
  destruct (Z.leb_spec 0 ai); destruct (Z.ltb_spec ai (array_size (base ch)));
    cbn [andb negb]; try reflexivity; lia.
Qed.

Lemma series_generator_refused `{Library} fuel Inv ch h status (w : world)
    cs ai ys :
  reader_handle ch = Some h ->
  refuses fuel Inv (DWIGetScaledSamplesCount h (index (base ch))) status ->
  status <> 0 -> Inv (lib w) ->
  exists msg w3,
    series_generator fuel ch cs ai (ys, w)
    = (Raise (RuntimeError (error_text status msg)), (ys, w3))
    /\ Inv (lib w3).
Proof.
  intros Hh Href Hst Hinv.
  destruct (number_of_samples_refused fuel Inv ch h status w Hh Href Hst Hinv)
    as (msg & Hm & Hinv').
  destruct (number_of_samples fuel ch w) as [o w3] eqn:E.
  cbn in Hm, Hinv'. subst o.
  exists msg, w3. split; [|exact Hinv'].
  unfold series_generator.
  erewrite bind_Raise; [reflexivity|].
  apply lift_eq. exact E.
Qed.

(** C2, as stated, fails.  After [close()], [array_info] of a scalar channel
    still succeeds, with an empty list and without a native call, and
    [scaled] with an out-of-range array index fails with [IndexError], not an
    invalid-reader error; [len(f)] and [f[name]] answer from the emptied
    catalog.  And what a query does after [close()] is the store's doing: on
    a store that gives the released handle out again, once a second session
    is open the channel object of the closed one reads that session's
    samples. *)
Lemma closed_session_calls_that_succeed :
  let closed_file := (demo_closed "" None).2.1 in
  let w := (demo_closed "" None).2.2 in
  let f_open := reuse_reopened.1.1 in
  let f_closed := reuse_reopened.1.2 in
  let w_again := reuse_reopened.2 in
  (closed closed_file = true
   /\ released (@trace RefLib w) = 1%nat
   /\ @array_info RefLib 4 demo_ch0 w = (Ret [], w)
   /\ @scaled RefLib 4 demo_ch0 1 w
      = (Raise (IndexError "array index is out of range"), w)
   /\ DWFile_len closed_file w = (Ret 0, w)
   /\ getitem closed_file (KeyStr "AI 1") w = (Ret None, w))
  /\ (getitem f_open (KeyStr "AI 1") w_again = (Ret (Some demo_ch0), w_again)
      /\ closed f_closed = true
      /\ channels f_closed = Some []
      /\ released (@trace ReuseLib w_again) = 1%nat
      /\ (@number_of_samples ReuseLib 4 demo_ch0 w_again).1 = Ret 5
      /\ (@scaled ReuseLib 4 demo_ch0 0 w_again).1
         = Ret ([0; 1; 2; 3; 4], [10; 11; 12; 13; 14])).
Proof. vm_compute. repeat split. Qed.

(** C2, amended: the wrapper itself never looks at [closed], and the channel
    objects of a session keep the handle that [close()] releases; what a call
    does afterwards is decided by the store.  For a session that is open,
    [close()] closes the data file and releases the reader [h].  On a store
    that does not serve a released reader -- it refuses the queries on [h]
    with a failure status, [DWSTAT_ERROR_INVALID_READER] or another -- every
    later call on a channel of the session that starts with such a query
    ([number_of_samples], [scaled] with an array index in range,
    [series_generator], [reduced], the property fetches, [array_info] of an
    array channel) raises the [RuntimeError] built from that status and
    returns or yields nothing, and leaves the store refusing: the next such
    call fails in the same way.  [scaled] with an index out of range raises
    [IndexError] and [array_info] of a scalar channel returns the empty list,
    both before any query. *)
Theorem closed_session_calls_fail `{Library} (fuel : nat)
    (Inv : lib_state -> Prop) (self : DWFile) (w : world) (h : handle)
    (chs : list DWChannel) (ch : DWChannel) (status : Z) :
  closed self = false ->
  f_reader_handle self = Some h ->
  channels self = Some chs ->
  Forall (fun c => reader_handle c = Some h) chs ->
  ch ∈ chs ->
  status <> status_value DWSTAT_OK ->
  rejects_released fuel Inv h (index (base ch)) status ->
  exists self' w',
    close (self, w) = (Ret tt, (self', w'))
    /\ closed self' = true
    /\ channels self' = Some []
    /\ trace w' = trace w ++ [existT _ (DWICloseDataFile h);
                              existT _ (DWIDestroyReader h)]
    /\ Inv (lib w')
    /\ forall w2 : world, Inv (lib w2) ->
         refused status Inv (number_of_samples fuel ch w2)
         /\ (forall ai, 0 <= ai < array_size (base ch) ->
               refused status Inv (scaled fuel ch ai w2))
         /\ (forall cs ai ys, exists msg w3,
               series_generator fuel ch cs ai (ys, w2)
               = (Raise (RuntimeError (error_text status msg)), (ys, w3))
               /\ Inv (lib w3))
         /\ refused status Inv (reduced fuel ch w2)
         /\ (forall p, refused status Inv (_chan_prop_int fuel ch p w2))
         /\ (forall p, refused status Inv (_chan_prop_double fuel ch p w2))
         /\ (forall p plen,
               refused status Inv (_chan_prop_str fuel ch p plen w2))
         /\ (2 <= array_size (base ch) ->
               refused status Inv (array_info fuel ch w2))
         /\ (forall ai, ~ 0 <= ai < array_size (base ch) ->
               scaled fuel ch ai w2
               = (Raise (IndexError "array index is out of range"), w2))
         /\ (array_size (base ch) < 2 ->
               array_info fuel ch w2 = (Ret [], w2)).
Proof.
  intros Hc Hh Hchs Hall Hin Hst (Hdestroy & Hcount & Hred & Hax & Hint & Hdbl).
  assert (Hrh : reader_handle ch = Some h).
  { rewrite Forall_forall in Hall. apply Hall, Hin. }
  cbn [status_value] in Hst.
  eexists _, _. split; [apply (close_open_session self w h Hc Hh)|].
  split; [reflexivity|]. split; [reflexivity|].
  split; [cbn [trace]; rewrite <- app_assoc; reflexivity|].
  split; [cbn [lib]; apply Hdestroy|].
  intros w2 Hinv.
  assert (Hn : refused status Inv (number_of_samples fuel ch w2)).
  { eapply number_of_samples_refused; eassumption. }
  assert (Hi : forall p, refused status Inv (_chan_prop_int fuel ch p w2)).
  { intros p. unfold _chan_prop_int. rewrite Hrh.
    apply native_refused; [apply Hint|assumption|assumption]. }
  split; [exact Hn|].
  split.
  { intros ai Hai. unfold scaled.
    destruct (Z.leb_spec 0 ai); [|lia].
    destruct (Z.ltb_spec ai (array_size (base ch))); [|lia].
    cbn [andb negb]. apply refused_bind, Hn. }
  split.
  { intros cs ai ys. eapply series_generator_refused; eassumption. }
  split; [eapply reduced_refused; eassumption|].
  split; [exact Hi|].
  split.
  { intros p. unfold _chan_prop_double. rewrite Hrh.
    apply native_refused; [apply Hdbl|assumption|assumption]. }
  split.
  { intros p plen. unfold _chan_prop_str. apply refused_bind, Hi. }
  split.
  { intros Hs. unfold array_info.
    destruct (Z.ltb_spec (array_size (base ch)) 2); [lia|].
    rewrite Hrh. apply native_refused; assumption. }
  split.
  - intros ai Hai. apply scaled_out_of_range, Hai.
  - apply array_info_scalar.
Qed.

Lemma ref_reader_filter (rs : list (handle * bool)) (h : handle) :
  list_find (fun r : handle * bool => bool_decide (r.1 = h))
            (filter (fun r : handle * bool => r.1 <> h) rs) = None.
Proof.
  apply list_find_None, Forall_forall. intros r Hr.
  apply list_elem_of_filter in Hr as [Hne _].
  rewrite bool_decide_eq_false_2 by exact Hne. auto.
Qed.

Lemma ref_on_channel_released {R} (s : RefState) (h : handle) (ch : Z)
    (dflt : R) (k : RefChannel -> RefState * (Z * R)) :
  ref_reader s h = None ->
  ref_on_channel s h ch dflt k = ref_fail s 11 dflt.
Proof.
  intros Hr. unfold ref_on_channel, ref_on_file. rewrite Hr. reflexivity.
Qed.

Lemma ref_refuses_released {R} (c : call R) (h : handle) (dflt : R) :
  (forall s, ref_reader s h = None -> ref_call R c s = ref_fail s 11 dflt) ->
  @refuses RefLib R 4 (fun s => ref_reader s h = None) c 11.
Proof.
  intros Hcall s Hs. cbn [lib_call RefLib]. rewrite (Hcall s Hs).
  split; [reflexivity|].
  exists [1024], (ref_fail s 11 dflt).1, "invalid reader".
  split; [|split; [cbn; lia|exact Hs]].
  eapply (@negotiates_done RefLib); [reflexivity|discriminate].
Qed.

(** The reference store does not serve a released reader. *)
Lemma ref_rejects_released (h : handle) (i : Z) :
  @rejects_released RefLib 4 (fun s => ref_reader s h = None) h i 11.
Proof.
  split.
  { intros s. cbn [lib_call RefLib ref_call].
    destruct (ref_reader s h) eqn:Hr; [|exact Hr].
    unfold ref_reader. cbn. rewrite ref_reader_filter. reflexivity. }
  split; [|split; [|split; [|split]]]; try intros p;
    eapply ref_refuses_released; intros s Hs;
    apply ref_on_channel_released, Hs.
Qed.

Lemma closed_session_calls_fail_witness :
  exists self' w',
    @close RefLib (demo_open "" None).2 = (Ret tt, (self', w'))
    /\ closed self' = true
    /\ (exists msg,
          (@number_of_samples RefLib 4 demo_ch0 w').1
          = Raise (RuntimeError (error_text 11 msg)))
    /\ (exists msg,
          (@scaled RefLib 4 demo_ch0 0 w').1
          = Raise (RuntimeError (error_text 11 msg)))
    /\ (exists msg,
          (@reduced RefLib 4 demo_ch0 w').1
          = Raise (RuntimeError (error_text 11 msg))).
Proof.
  destruct (@closed_session_calls_fail RefLib 4
              (fun s => ref_reader s 4096 = None)
              (demo_open "" None).2.1 (demo_open "" None).2.2 4096
              [demo_ch0; demo_ch1] demo_ch0 11)
    as (self' & w' & Hclose & Hc & _ & _ & Hinv & Hcalls).
  - reflexivity.
  - reflexivity.
  - reflexivity.
  - repeat constructor.
  - apply list_elem_of_here.
  - discriminate.
  - apply ref_rejects_released.
  - destruct (Hcalls w' Hinv) as (Hn & Hs & _ & Hr & _).
    exists self', w'. split; [exact Hclose|]. split; [exact Hc|].
    split; [|split].
    + destruct Hn as (msg & Hm & _). exists msg. exact Hm.
    + destruct (Hs 0 ltac:(cbn; lia)) as (msg & Hm & _). exists msg. exact Hm.
    + destruct Hr as (msg & Hm & _). exists msg. exact Hm.
Defined.

(** ** The file header *)

Lemma header_of_size entries :
  forall m0, (size (header_of entries m0) <= size m0 + length entries)%nat.
Proof.
  induction entries as [|[n t] es IH]; intros m0; cbn; [lia|].
  destruct (kept (decode_bytes t)).
  - specialize (IH (<[decode_bytes n := decode_bytes t]> m0)).
    rewrite map_size_insert in IH.
    unfold header_of in *.
    destruct (m0 !! decode_bytes n); unfold id in IH; lia.
  - specialize (IH m0). unfold header_of in *. lia.
Qed.

Lemma header_of_lookup entries :
  forall m0 k v,
  header_of entries m0 !! k = Some v ->
  m0 !! k = Some v
  \/ exists n t, (n, t) ∈ entries /\ kept (decode_bytes t) = true
                 /\ k = decode_bytes n /\ v = decode_bytes t.
Proof.
  induction entries as [|[n t] es IH]; intros m0 k v; cbn; [auto|].
  intros Hl. apply IH in Hl as [Hl|(n' & t' & Hin & Hk & -> & ->)].
  - destruct (kept (decode_bytes t)) eqn:Hk; [|auto].
    destruct (decide (decode_bytes n = k)) as [<-|Hne].
    + rewrite lookup_insert_eq in Hl. injection Hl as <-.
      right. exists n, t. rewrite elem_of_cons. auto.
    + rewrite lookup_insert_ne in Hl by assumption. auto.
  - right. exists n', t'. rewrite elem_of_cons. auto.
Qed.

Lemma header_of_unshadowed entries :
  forall m0 k v,
  m0 !! k = Some v ->
  (forall n t, (n, t) ∈ entries -> decode_bytes n = k ->
     kept (decode_bytes t) = false) ->
  header_of entries m0 !! k = Some v.
Proof.
  induction entries as [|[n t] es IH]; intros m0 k v Hl Hno; cbn; [exact Hl|].
  apply IH.
  - destruct (kept (decode_bytes t)) eqn:Hk; [|exact Hl].
    destruct (decide (decode_bytes n = k)) as [Heq|Hne].
    + rewrite (Hno n t) in Hk; [discriminate| |exact Heq].
      rewrite elem_of_cons. auto.
    + rewrite lookup_insert_ne by assumption. exact Hl.
  - intros n' t' Hin. apply Hno. rewrite elem_of_cons. auto.
Qed.

Lemma header_of_last_wins entries :
  forall m0 i n t,
  entries !! i = Some (n, t) ->
  kept (decode_bytes t) = true ->
  (forall j n' t', (i < j)%nat -> entries !! j = Some (n', t') ->
     decode_bytes n' = decode_bytes n -> kept (decode_bytes t') = false) ->
  header_of entries m0 !! decode_bytes n = Some (decode_bytes t).
Proof.
  induction entries as [|[n0 t0] es IH]; intros m0 i n t Hi Hk Hlater;
    [discriminate|].
  destruct i as [|i]; cbn in Hi |- *.
  - injection Hi as -> ->. rewrite Hk.
    apply header_of_unshadowed; [apply lookup_insert_eq|].
    intros n' t' Hin Hn.
    apply list_elem_of_lookup in Hin as [j Hj].
    apply (Hlater (S j) n' t'); [lia|exact Hj|exact Hn].
  - eapply IH; [exact Hi|exact Hk|].
    intros j n' t' Hlt Hj. apply (Hlater (S j)); [lia|exact Hj].
Qed.

Lemma header_entry_run `{Library} fuel Inv h entries i nm tx m0 (w : world) :
  serves_header Inv h entries ->
  Inv (lib w) ->
  entries !! i = Some (nm, tx) ->
  exists w',
    header_entry fuel h m0 (Z.of_nat i) w
    = (Ret (if kept (decode_bytes tx)
            then <[decode_bytes nm := decode_bytes tx]> m0 else m0), w')
    /\ Inv (lib w').
Proof.
  intros [_ Hserve] Hinv Hi.
  destruct (Hserve _ _ _ _ Hinv Hi) as [(s1 & E1 & Hinv1) _].
  unfold header_entry. step_native E1. step_ok.
  change (negb (String.length (decode_bytes tx) =? 0)%nat
          && negb (String.prefix "Select..." (decode_bytes tx)
                   || String.prefix "To fill out" (decode_bytes tx)))
    with (kept (decode_bytes tx)).
  destruct (kept (decode_bytes tx)) eqn:Hk.
  - destruct (Hserve s1 _ _ _ Hinv1 Hi) as [_ (s2 & E2 & Hinv2)].
    step_native E2. step_ok. eexists. split; [reflexivity|exact Hinv2].
  - eexists. split; [reflexivity|exact Hinv1].
Qed.

Lemma header_loop_run `{Library} fuel Inv h entries :
  serves_header Inv h entries ->
  forall n i m0 (w : world),
  Inv (lib w) ->
  (i + n)%nat = length entries ->
  exists w',
    header_loop fuel h m0 (Z.of_nat <$> seq i n) w
    = (Ret (header_of (drop i entries) m0), w')
    /\ Inv (lib w').
Proof.
  intros Hserve. induction n as [|n IH]; intros i m0 w Hinv Hlen.
  - cbn. rewrite drop_ge by lia. eauto.
  - destruct (lookup_lt_is_Some_2 entries i) as [[nm tx] Hi]; [lia|].
    rewrite (drop_S _ _ _ Hi).
    destruct (header_entry_run fuel Inv h entries i nm tx m0 w Hserve Hinv Hi)
      as (w1 & Hrun & Hinv1).
    cbn [seq fmap list_fmap header_loop].
    erewrite bind_Ret by exact Hrun.
    apply IH; [exact Hinv1|lia].
Qed.

(** C9, as stated, fails: an entry whose text is empty starts with neither
    placeholder prefix, yet [header] leaves it out. *)
Lemma header_drops_empty_text :
  let opened := (demo_open "" None).2 in
  ("Note", "") ∈ rf_header (demo_file "")
  /\ placeholder "" = false
  /\ exists m w',
       @header RefLib 4 opened = (Ret m, w')
       /\ m !! "Note" = None
       /\ m !! "Operator" = Some "Ann"
       /\ size m = 1%nat.
Proof.
  split; [|split].
  - cbn. rewrite !elem_of_cons. auto.
  - reflexivity.
  - eexists _, _. split; [vm_compute; reflexivity|].
    split; [|split]; vm_compute; reflexivity.
Qed.

(** C9, amended: for a store that serves [N] header entries, [header]
    returns a mapping of size at most [N]; every text in it is non-empty,
    starts with neither placeholder prefix and is the text of a served entry
    stored under that entry's name; and every served entry whose text is
    non-empty and not a placeholder appears under its name, unless a later
    such entry carries the same name (the later one then takes its
    place). *)
Theorem header_spec `{Library} (fuel : nat) (Inv : lib_state -> Prop)
    (self : DWFile) (w : world) (entries : list (string * string)) :
  serves_header Inv (c_arg (f_reader_handle self)) entries ->
  Inv (lib w) ->
  exists m w',
    header fuel (self, w) = (Ret m, (self, w'))
    /\ (size m <= length entries)%nat
    /\ (forall k v, m !! k = Some v ->
          v <> "" /\ placeholder v = false
          /\ exists n t, (n, t) ∈ entries
                         /\ k = decode_bytes n /\ v = decode_bytes t)
    /\ (forall i n t,
          entries !! i = Some (n, t) ->
          decode_bytes t <> "" ->
          placeholder (decode_bytes t) = false ->
          (forall j n' t', (i < j)%nat -> entries !! j = Some (n', t') ->
             decode_bytes n' = decode_bytes n ->
             kept (decode_bytes t') = false) ->
          m !! decode_bytes n = Some (decode_bytes t)).
Proof.
  intros Hserve Hinv.
  destruct Hserve as [Hcount Hentries].
  destruct (Hcount _ Hinv) as (s1 & E1 & Hinv1).
  destruct (header_loop_run fuel Inv _ entries (conj Hcount Hentries)
              (length entries) 0 ∅
              {| lib := s1;
                 trace := trace w ++
                   [existT _ (DWIGetHeaderEntryCount
                                (c_arg (f_reader_handle self)))] |}
              Hinv1 eq_refl) as (w' & Hloop & _).
  exists (header_of entries ∅), w'. split; [|split; [|split]].
  - unfold header. step_ok. step_native E1. step_ok.
    rewrite Nat2Z.id. eapply lift_eq. exact Hloop.
  - pose proof (header_of_size entries ∅) as Hs.
    rewrite map_size_empty in Hs. exact Hs.
  - intros k v Hl.
    apply header_of_lookup in Hl as [Hl|(n & t & Hin & Hk & -> & ->)].
    + rewrite lookup_empty in Hl. discriminate.
    + unfold kept in Hk. apply andb_prop in Hk as [Hne Hpl].
      split; [|split].
      * intros Hempty. rewrite Hempty in Hne. discriminate.
      * destruct (placeholder (decode_bytes t)); [discriminate|reflexivity].
      * eauto.
  - intros i n t Hi Hne Hpl Hlater.
    apply (header_of_last_wins entries ∅ i n t Hi); [|exact Hlater].
    unfold kept. rewrite Hpl.
    destruct (decode_bytes t); [contradiction|reflexivity].
Qed.

Lemma ref_serves_header :
  @serves_header RefLib (fun s => s = @lib RefLib (demo_open "" None).2.2)
    4096 (rf_header (demo_file "")).
Proof.
  split.
  - intros s ->. eexists. split; reflexivity.
  - intros s i n t -> Hi.
    destruct i as [|[|[|i]]]; cbn in Hi; simplify_eq;
      split; eexists; split; reflexivity.
Qed.

Lemma header_spec_witness :
  exists m w',
    @header RefLib 4 (demo_open "" None).2
    = (Ret m, ((demo_open "" None).2.1, w'))
    /\ (size m <= length (rf_header (demo_file "")))%nat
    /\ (forall k v, m !! k = Some v ->
          v <> "" /\ placeholder v = false
          /\ exists n t, (n, t) ∈ rf_header (demo_file "")
                         /\ k = decode_bytes n /\ v = decode_bytes t)
    /\ (forall i n t,
          rf_header (demo_file "") !! i = Some (n, t) ->
          decode_bytes t <> "" ->
          placeholder (decode_bytes t) = false ->
          (forall j n' t', (i < j)%nat ->
             rf_header (demo_file "") !! j = Some (n', t') ->
             decode_bytes n' = decode_bytes n ->
             kept (decode_bytes t') = false) ->
          m !! decode_bytes n = Some (decode_bytes t)).
Proof.
  exact (@header_spec RefLib 4 _ (demo_open "" None).2.1
           (demo_open "" None).2.2 (rf_header (demo_file ""))
           ref_serves_header eq_refl).
Defined.

(** ** Column names of array axes *)

Lemma columns_cases `{Library} `{XmlParser} fuel (self : DWArrayInfo)
    (w w' : world) xml root :
  channel_xml fuel (channel self) w = (Ret xml, w') ->
  fromstring xml = Some root ->
  columns fuel self w =
    match find ["ArrayInfo"; "Axis"; "StringValues"] root with
    | None =>
        (Raise (AttributeError "'NoneType' object has no attribute 'text'"),
         w')
    | Some found =>
        match text found with
        | Some labels =>
            (Ret ((fun col_name => name (channel self) +:+ "_" +:+ col_name)
                    <$> drop 1 (split_on ";" labels)), w')
        | None =>
            repeat_M (Z.to_nat (ax_size (ax_base self)))
              (axes <- array_info fuel (channel self) ;;
               ax <- py_index axes (ax_index (ax_base self)) ;;
               DWArrayInfo_name ax) w'
        end
    end.
Proof.
  intros Hxml Hroot. unfold columns.
  erewrite bind_Ret by exact Hxml. rewrite Hroot.
  destruct (find _ root) as [found|]; [|reflexivity].
  destruct (text found); reflexivity.
Qed.

Lemma DWArrayInfo_name_stored {St} (self : DWArrayInfo) (s : St) :
  DWArrayInfo_name self s = (Ret (decode_bytes (ax_name_ (ax_base self))), s).
Proof. reflexivity. Qed.

(** C5, the code at the failing input: for an axis with the sentinel name
    whose channel's metadata document has an [Axis] element without
    [StringValues] (so no labels at all), [columns] raises [AttributeError]
    instead of falling back.  With an empty [StringValues] element the
    fall-back names are the stored axis name repeated; with labels
    ["2;X;Y"] the names are [FFT_X] and [FFT_Y]; and [name] reports the
    stored name, sentinel or not. *)
Theorem columns_without_StringValues_raises :
  let axis := {| ax_base := demo_axis; channel := demo_ch1 |} in
  (@columns RefLib RefXml 4 axis (demo_open doc_no_values None).2.2).1
  = Raise (AttributeError "'NoneType' object has no attribute 'text'")
  /\ (@columns RefLib RefXml 4 axis (demo_open doc_empty_values None).2.2).1
     = Ret ["_"; "_"]
  /\ (@columns RefLib RefXml 4 axis (demo_open doc_labels None).2.2).1
     = Ret ["FFT_X"; "FFT_Y"]
  /\ (forall (St : Type) (self : DWArrayInfo) (s : St),
        DWArrayInfo_name self s
        = (Ret (decode_bytes (ax_name_ (ax_base self))), s)).
Proof.
  split; [vm_compute; reflexivity|].
  split; [vm_compute; reflexivity|].
  split; [vm_compute; reflexivity|].
  intros. reflexivity.
Qed.

(** ** Chunked reading *)

Lemma py_range_count (count cs : Z) :
  0 < cs -> 0 <= count ->
  Z.of_nat (Z.to_nat ((count + cs - 1) / cs)) * cs >= count
  /\ forall k, (k < Z.to_nat ((count + cs - 1) / cs))%nat ->
               Z.of_nat k * cs < count.
Proof.
  intros Hcs Hcount.
  assert (Hq : 0 <= (count + cs - 1) / cs) by (apply Z.div_pos; lia).
  pose proof (Z.mul_div_le (count + cs - 1) cs Hcs) as Hle.
  pose proof (Z.mul_succ_div_gt (count + cs - 1) cs Hcs) as Hgt.
  split.
  - rewrite Z2Nat.id by assumption. nia.
  - intros k Hk. apply Nat2Z.inj_lt in Hk.
    rewrite Z2Nat.id in Hk by assumption. nia.
Qed.

Lemma windows_cover_from {A} (l : list A) (c : nat) :
  (0 < c)%nat ->
  forall n i,
  (length l <= (i + n) * c)%nat ->
  concat ((fun k => take (Nat.min c (length l - k * c)) (drop (k * c) l))
            <$> seq i n)
  = drop (i * c) l.
Proof.
  intros Hc. induction n as [|n IH]; intros i Hlen; cbn.
  - rewrite drop_ge by lia. reflexivity.
  - rewrite IH by lia.
    rewrite <- (take_drop (Nat.min c (length l - i * c)) (drop (i * c) l))
      at 2.
    f_equal. rewrite drop_drop.
    destruct (Nat.le_ge_cases c (length l - i * c)).
    + rewrite Nat.min_l by assumption. f_equal. lia.
    + rewrite Nat.min_r by assumption.
      rewrite !drop_ge by lia. reflexivity.
Qed.

Lemma chunk_rows_nat (rows : list (Z * list Z)) (cs : Z) (k : nat) :
  0 < cs ->
  chunk_rows rows cs (Z.of_nat k * cs)
  = take (Nat.min (Z.to_nat cs) (length rows - k * Z.to_nat cs))
         (drop (k * Z.to_nat cs) rows).
Proof.
  intros Hcs. unfold chunk_rows, window.
  replace (Z.to_nat (Z.of_nat k * cs)) with (k * Z.to_nat cs)%nat by lia.
  destruct (Z.le_ge_cases cs (Z.of_nat (length rows) - Z.of_nat k * cs)).
  - rewrite Z.min_l, Nat.min_l by lia. reflexivity.
  - rewrite Z.min_r by lia.
    destruct (Z.le_ge_cases 0 (Z.of_nat (length rows) - Z.of_nat k * cs)).
    + rewrite Nat.min_r by lia. f_equal. lia.
    + rewrite Nat.min_r by lia. f_equal. lia.
Qed.

(** The chunks are consecutive and cover all the samples: joined in order,
    the windows give the sample list back. *)
Lemma chunk_rows_cover (rows : list (Z * list Z)) (cs : Z) :
  0 < cs ->
  concat (chunk_rows rows cs <$> py_range (Z.of_nat (length rows)) cs) = rows.
Proof.
  intros Hcs. unfold py_range. rewrite <- list_fmap_compose.
  destruct (py_range_count (Z.of_nat (length rows)) cs Hcs) as [Hge _]; [lia|].
  set (K := Z.to_nat ((Z.of_nat (length rows) + cs - 1) / cs)) in *.
  rewrite (list_fmap_ext _
             (fun k => take (Nat.min (Z.to_nat cs)
                                     (length rows - k * Z.to_nat cs))
                            (drop (k * Z.to_nat cs) rows)) (seq 0 K))
    by (intros i k _; cbn; apply chunk_rows_nat, Hcs).
  rewrite windows_cover_from; [reflexivity|lia|]. nia.
Qed.

Lemma chunk_rows_length (rows : list (Z * list Z)) (cs start : Z) :
  0 <= start < Z.of_nat (length rows) -> 0 < cs ->
  Z.of_nat (length (chunk_rows rows cs start))
  = Z.min cs (Z.of_nat (length rows) - start).
Proof.
  intros Hs Hcs. unfold chunk_rows, window.
  rewrite length_take, length_drop. lia.
Qed.

Lemma column_concat (col : nat) (chunks : list (list (Z * list Z))) :
  concat (column col <$> chunks) = column col (concat chunks).
Proof.
  unfold column. induction chunks as [|c cs IH]; cbn; [reflexivity|].
  rewrite fmap_app, IH. reflexivity.
Qed.

(** Reading row [i], column [col] out of the flat buffer the rows were
    written to. *)
Lemma flat_lookup (a col : nat) (junk : list Z) (rows : list (Z * list Z)) :
  Forall (fun r => length r.2 = a) rows ->
  (col < a)%nat ->
  forall i r,
  rows !! i = Some r ->
  (concat (snd <$> rows) ++ junk) !! (i * a + col)%nat = r.2 !! col.
Proof.
  intros Hrows Hcol. induction Hrows as [|r0 rows Hr0 _ IH]; intros i r Hi;
    [discriminate|].
  cbn [fmap list_fmap concat]. rewrite <- app_assoc.
  destruct i as [|i]; cbn in Hi.
  - injection Hi as ->. cbn. rewrite lookup_app_l by lia. reflexivity.
  - rewrite lookup_app_r by (cbn; lia).
    replace (S i * a + col - length r0.2)%nat with (i * a + col)%nat
      by (cbn; lia).
    apply IH, Hi.
Qed.

Lemma reshape_pick_rows {St} (a : Z) (ai : Z) (junk : list Z)
    (rows : list (Z * list Z)) (s : St) :
  Forall (fun r => Z.of_nat (length r.2) = a) rows ->
  0 <= ai < a ->
  Z.of_nat (length (concat (snd <$> rows) ++ junk)) mod a = 0 ->
  reshape_pick (concat (snd <$> rows) ++ junk) a (seq 0 (length rows)) ai s
  = (Ret (column (Z.to_nat ai) rows), s).
Proof.
  intros Hrows Hai Hmod. unfold reshape_pick. cbv zeta.
  assert (Ha : (a <=? 0) = false) by lia.
  assert (Hneg : (ai <? 0) = false) by lia.
  assert (Hbig : (a <=? ai) = false) by lia.
  rewrite Ha, Hmod, Hneg. cbn [negb orb Z.eqb]. rewrite Hneg, Hbig.
  cbn [orb].
  assert (Hpick : mapM (fun i => (concat (snd <$> rows) ++ junk)
                                   !! (i * Z.to_nat a + Z.to_nat ai)%nat)
                       (seq 0 (length rows))
                  = Some (column (Z.to_nat ai) rows)).
  { apply mapM_Some. apply Forall2_same_length_lookup_2.
    - unfold column. rewrite length_seq, length_fmap. reflexivity.
    - intros i x y Hx Hy. apply lookup_seq in Hx as [-> Hlt].
      unfold column in Hy. rewrite list_lookup_fmap in Hy.
      destruct (rows !! i) as [r|] eqn:Hr; [|discriminate].
      injection Hy as <-.
      rewrite (flat_lookup (Z.to_nat a) (Z.to_nat ai) junk rows) with (r := r);
        [| |lia|exact Hr].
      + assert (Hlen : Z.of_nat (length r.2) = a).
        { rewrite Forall_forall in Hrows. apply Hrows.
          eapply list_elem_of_lookup_2, Hr. }
        destruct (lookup_lt_is_Some_2 r.2 (Z.to_nat ai)) as [v Hv]; [lia|].
        rewrite Hv. reflexivity.
      + eapply Forall_impl; [exact Hrows|]. cbn. intros; lia. }
  rewrite Hpick. reflexivity.
Qed.

Lemma poke_M_ok {St A} (buf written : list A) (s : St) :
  (length written <= length buf)%nat ->
  poke_M buf written s = (Ret (written ++ drop (length written) buf), s).
Proof.
  intros Hlen. unfold poke_M, poke.
  destruct (Nat.leb_spec (length written) (length buf)); [reflexivity|lia].
Qed.

Lemma np_zeros_ok {St} (n : Z) (s : St) :
  0 <= n -> np_zeros n s = (Ret (replicate (Z.to_nat n) 0), s).
Proof.
  intros Hn. unfold np_zeros.
  destruct (Z.ltb_spec n 0); [lia|reflexivity].
Qed.

Lemma flat_length (a : nat) (rows : list (Z * list Z)) :
  Forall (fun r => length r.2 = a) rows ->
  length (concat (snd <$> rows)) = (length rows * a)%nat.
Proof.
  induction 1 as [|r rows Hr _ IH]; cbn; [reflexivity|].
  rewrite length_app, IH, Hr. reflexivity.
Qed.

Lemma chunk_rows_Forall (P : Z * list Z -> Prop) rows cs start :
  Forall P rows -> Forall P (chunk_rows rows cs start).
Proof. intros HP. unfold chunk_rows, window. apply Forall_take, Forall_drop, HP. Qed.

(** One turn of the generator's loop, on a window with strictly increasing
    timestamps: the chunk yielded holds the window's timestamps and the
    requested column of its rows, and the locals keep their sizes. *)
Lemma series_step_run `{Library} fuel Inv ch ai rows cs loc k ys (w : world) :
  serves_samples Inv (c_arg (reader_handle ch)) (index (base ch)) rows ->
  Forall (fun r => Z.of_nat (length r.2) = array_size (base ch)) rows ->
  0 <= ai < array_size (base ch) ->
  0 < cs ->
  Z.of_nat k * cs < Z.of_nat (length rows) ->
  StronglySorted Z.lt (chunk_rows rows cs (Z.of_nat k * cs)).*1 ->
  Inv (lib w) ->
  chunk_size loc = cs ->
  length (time loc) = Z.to_nat cs ->
  length (data loc) = (Z.to_nat cs * Z.to_nat (array_size (base ch)))%nat ->
  exists w' buf,
    series_step fuel ch ai (Z.of_nat (length rows)) loc (Z.of_nat k * cs)
      (ys, w)
    = (Ret {| chunk_size :=
                Z.min cs (Z.of_nat (length rows) - Z.of_nat k * cs);
              data := buf;
              time := (chunk_rows rows cs (Z.of_nat k * cs)).*1 |},
       (ys ++ [{| s_index := (chunk_rows rows cs (Z.of_nat k * cs)).*1;
                  s_data := column (Z.to_nat ai)
                              (chunk_rows rows cs (Z.of_nat k * cs));
                  s_name := name ch |}],
        w'))
    /\ Inv (lib w')
    /\ length buf = length (data loc)
    /\ trace w' = trace w ++
         [existT _ (DWIGetScaledSamples (c_arg (reader_handle ch))
                      (index (base ch)) (Z.of_nat k * cs)
                      (Z.min cs (Z.of_nat (length rows) - Z.of_nat k * cs)))].
Proof.
  intros [_ Hserve] Hrows Hai Hcs Hk Hsorted Hinv Hsize Htime Hdata.
  set (start := Z.of_nat k * cs) in *.
  set (m := Z.min cs (Z.of_nat (length rows) - start)).
  set (W := chunk_rows rows cs start) in *.
  assert (HW : window start m rows = W) by reflexivity.
  destruct (Hserve (lib w) start m Hinv) as (s1 & E & Hinv1);
    [lia|lia|lia|]. rewrite HW in E.
  assert (HlenW : Z.of_nat (length W) = m).
  { apply chunk_rows_length; lia. }
  assert (HrowsW : Forall (fun r => length r.2
                                    = Z.to_nat (array_size (base ch))) W).
  { apply chunk_rows_Forall. eapply Forall_impl; [exact Hrows|].
    cbn. intros; lia. }
  assert (Hflat : length (concat W.*2)
                  = (length W * Z.to_nat (array_size (base ch)))%nat).
  { apply flat_length, HrowsW. }
  assert (Hfit : (length (concat W.*2) <= length (data loc))%nat).
  { rewrite Hflat, Hdata. apply Nat.mul_le_mono_r. lia. }
  exists {| lib := s1;
            trace := trace w ++
              [existT _ (DWIGetScaledSamples (c_arg (reader_handle ch))
                           (index (base ch)) start m)] |},
         (concat W.*2 ++ drop (length (concat W.*2)) (data loc)).
  split; [|split; [exact Hinv1|split; [|reflexivity]]].
  - unfold series_step. cbv zeta. rewrite Hsize. fold m.
    step_native E.
    erewrite bind_Ret by (apply poke_M_ok; exact Hfit). cbv beta.
    erewrite bind_Ret
      by (apply poke_M_ok; rewrite length_fmap, Htime; lia). cbv beta.
    step_ok.
    rewrite take_app_length' by (rewrite length_fmap; lia).
    rewrite (np_unique_increasing _ Hsorted). cbv beta iota.
    rewrite length_fmap.
    erewrite bind_Ret; cycle 1.
    { apply reshape_pick_rows.
      - apply chunk_rows_Forall, Hrows.
      - exact Hai.
      - rewrite length_app, length_drop.
        replace (length (concat W.*2) + (length (data loc)
                                         - length (concat W.*2)))%nat
          with (length (data loc)) by lia.
        rewrite Hdata, Nat2Z.inj_mul, Z2Nat.id, Z2Nat.id by lia.
        apply Z.mod_mul. lia. }
    cbv beta. step_ok. reflexivity.
  - rewrite length_app, length_drop. lia.
Qed.

Lemma elem_of_py_range (count cs : Z) (k : nat) :
  (k < Z.to_nat ((count + cs - 1) / cs))%nat ->
  Z.of_nat k * cs ∈ py_range count cs.
Proof.
  intros Hk. unfold py_range. apply list_elem_of_fmap.
  exists k. split; [reflexivity|]. apply elem_of_seq. lia.
Qed.

Lemma series_loop_run `{Library} fuel Inv ch ai rows cs :
  serves_samples Inv (c_arg (reader_handle ch)) (index (base ch)) rows ->
  Forall (fun r => Z.of_nat (length r.2) = array_size (base ch)) rows ->
  0 <= ai < array_size (base ch) ->
  0 < cs ->
  (forall start, start ∈ py_range (Z.of_nat (length rows)) cs ->
     StronglySorted Z.lt (chunk_rows rows cs start).*1) ->
  forall n k loc ys (w : world),
  (k + n)%nat = Z.to_nat ((Z.of_nat (length rows) + cs - 1) / cs) ->
  Inv (lib w) ->
  chunk_size loc = cs ->
  length (time loc) = Z.to_nat cs ->
  length (data loc) = (Z.to_nat cs * Z.to_nat (array_size (base ch)))%nat ->
  exists w',
    series_loop fuel ch ai (Z.of_nat (length rows)) loc
      ((fun j => Z.of_nat j * cs) <$> seq k n) (ys, w)
    = (Ret tt,
       (ys ++ (chunk_series ch ai rows cs
                 <$> ((fun j => Z.of_nat j * cs) <$> seq k n)), w'))
    /\ Inv (lib w')
    /\ trace w' = trace w ++
         (chunk_request ch (Z.of_nat (length rows)) cs
            <$> ((fun j => Z.of_nat j * cs) <$> seq k n)).
Proof.
  intros Hserve Hrows Hai Hcs Hsorted.
  destruct (py_range_count (Z.of_nat (length rows)) cs Hcs) as [_ Hlt]; [lia|].
  induction n as [|n IH]; intros k loc ys w HK Hinv Hsize Htime Hdata.
  - exists w. cbn. rewrite !app_nil_r. auto.
  - assert (Hk : Z.of_nat k * cs < Z.of_nat (length rows))
      by (apply Hlt; lia).
    assert (Hmem : Z.of_nat k * cs ∈ py_range (Z.of_nat (length rows)) cs)
      by (apply elem_of_py_range; lia).
    destruct (series_step_run fuel Inv ch ai rows cs loc k ys w
                Hserve Hrows Hai Hcs Hk (Hsorted _ Hmem)
                Hinv Hsize Htime Hdata)
      as (w1 & buf & Hstep & Hinv1 & Hbuf & Htr1).
    cbn [seq fmap list_fmap series_loop].
    erewrite bind_Ret by exact Hstep.
    destruct n as [|n].
    + exists w1. cbn. split; [reflexivity|]. split; [exact Hinv1|exact Htr1].
    + assert (Hk1 : Z.of_nat (S k) * cs < Z.of_nat (length rows))
        by (apply Hlt; lia).
      destruct (IH (S k)
                  {| chunk_size :=
                       Z.min cs (Z.of_nat (length rows) - Z.of_nat k * cs);
                     data := buf;
                     time := (chunk_rows rows cs (Z.of_nat k * cs)).*1 |}
                  (ys ++ [chunk_series ch ai rows cs (Z.of_nat k * cs)]) w1)
        as (w' & Hloop & Hinv' & Htr'); [lia|exact Hinv1|cbn; lia| |cbn; lia|].
      { cbn. rewrite length_fmap.
        pose proof (chunk_rows_length rows cs (Z.of_nat k * cs)) as Hl. lia. }
      exists w'. split; [|split; [exact Hinv'|]].
      * unfold chunk_series in *. rewrite Hloop.
        rewrite <- app_assoc. reflexivity.
      * rewrite Htr', Htr1, <- app_assoc. reflexivity.
Qed.

Lemma number_of_samples_run `{Library} fuel Inv ch rows (w : world) :
  serves_samples Inv (c_arg (reader_handle ch)) (index (base ch)) rows ->
  Inv (lib w) ->
  exists w',
    number_of_samples fuel ch w = (Ret (Z.of_nat (length rows)), w')
    /\ Inv (lib w')
    /\ trace w' = trace w ++
         [existT _ (DWIGetScaledSamplesCount (c_arg (reader_handle ch))
                      (index (base ch)))].
Proof.
  intros [Hcount _] Hinv. destruct (Hcount _ Hinv) as (s1 & E & Hinv1).
  eexists. split; [|split].
  - unfold number_of_samples. step_native E. step_ok. reflexivity.
  - exact Hinv1.
  - reflexivity.
Qed.

(** The bulk read on a store that serves [rows]: all timestamps, and all
    values row by row. *)
Lemma scaled_run `{Library} fuel Inv ch ai rows (w : world) :
  serves_samples Inv (c_arg (reader_handle ch)) (index (base ch)) rows ->
  Forall (fun r => Z.of_nat (length r.2) = array_size (base ch)) rows ->
  0 <= ai < array_size (base ch) ->
  Inv (lib w) ->
  exists w', scaled fuel ch ai w = (Ret (rows.*1, concat rows.*2), w').
Proof.
  intros Hserve Hrows Hai Hinv.
  destruct (number_of_samples_run fuel Inv ch rows w Hserve Hinv)
    as (w1 & Hn1 & Hinv1 & _).
  destruct (number_of_samples_run fuel Inv ch rows w1 Hserve Hinv1)
    as (w2 & Hn2 & Hinv2 & _).
  destruct Hserve as [_ Hwin].
  destruct (Hwin (lib w2) 0 (Z.of_nat (length rows)) Hinv2)
    as (s3 & E & _); [lia|lia|lia|].
  assert (Hall : window 0 (Z.of_nat (length rows)) rows = rows).
  { unfold window. rewrite Nat2Z.id. cbn. apply firstn_all. }
  rewrite Hall in E.
  assert (Hflat : length (concat rows.*2)
                  = (length rows * Z.to_nat (array_size (base ch)))%nat).
  { apply flat_length. eapply Forall_impl; [exact Hrows|]. cbn. intros; lia. }
  eexists. unfold scaled.
  assert (Hin : (0 <=? ai) && (ai <? array_size (base ch)) = true) by lia.
  rewrite Hin. cbn [negb].
  erewrite bind_Ret by exact Hn1.
  erewrite bind_Ret by (apply np_zeros_ok; lia).
  erewrite bind_Ret by (apply np_zeros_ok; lia).
  erewrite bind_Ret by exact Hn2.
  step_native E.
  erewrite bind_Ret
    by (apply poke_M_ok; rewrite length_replicate, Hflat; lia).
  erewrite bind_Ret
    by (apply poke_M_ok; rewrite length_replicate, length_fmap; lia).
  step_ok.
  rewrite !drop_ge
    by (rewrite length_replicate, ?length_fmap, ?Hflat; lia).
  rewrite !app_nil_r. reflexivity.
Qed.

Lemma py_range_bounds (count cs start : Z) :
  0 < cs -> 0 <= count ->
  start ∈ py_range count cs -> 0 <= start < count.
Proof.
  intros Hcs Hcount Hin. unfold py_range in Hin.
  apply list_elem_of_fmap in Hin as (k & -> & Hk).
  apply elem_of_seq in Hk.
  destruct (py_range_count count cs Hcs Hcount) as [_ Hlt].
  specialize (Hlt k ltac:(lia)). lia.
Qed.

Lemma column_scalar (rows : list (Z * list Z)) :
  Forall (fun r => Z.of_nat (length r.2) = 1) rows ->
  column 0 rows = concat rows.*2.
Proof.
  induction 1 as [|r rows Hr _ IH]; [reflexivity|].
  destruct r as [t [|v [|v' l]]]; cbn [snd length] in Hr; try lia.
  cbn. unfold column in IH. rewrite IH. reflexivity.
Qed.

(** C1, as stated, fails on an array channel: the chunks hold one column
    (here column 0 of a channel with two values per sample), the bulk read
    returns every value of every sample. *)
Lemma chunks_of_array_channel_differ_from_scaled :
  let w := (demo_open "" None).2.2 in
  exists ys w1 t d w2,
    @series_generator RefLib 4 demo_ch1 2 0 ([], w) = (Ret tt, (ys, w1))
    /\ @scaled RefLib 4 demo_ch1 0 w = (Ret (t, d), w2)
    /\ 1 <= 2 <= Z.of_nat (length t)
    /\ concat (s_data <$> ys) = [1; 3; 5]
    /\ d = [1; 2; 3; 4; 5; 6]
    /\ concat (s_data <$> ys) <> d.
Proof.
  eexists _, _, _, _, _.
  split; [vm_compute; reflexivity|].
  split; [vm_compute; reflexivity|].
  split; [cbn; lia|].
  split; [reflexivity|]. split; [reflexivity|]. discriminate.
Qed.

(** With a timestamp repeated inside a chunk, the chunk keeps one row per
    distinct timestamp, and the shortened timestamp array is the buffer of
    the next native call, which writes past its end. *)
Lemma series_generator_repeated_timestamps :
  @series_generator RefLib 4 demo_ch0 2 0 ([], repeats_open.2.2)
  = (Fault,
     ([{| s_index := [0]; s_data := [10]; s_name := "AI 1" |}],
      @Build_world RefLib (@lib RefLib repeats_open.2.2)
        (@trace RefLib repeats_open.2.2
         ++ [existT _ (DWIGetScaledSamplesCount 4096 0);
             existT _ (DWIGetScaledSamples 4096 0 0 2);
             existT _ (DWIGetScaledSamples 4096 0 2 2)]))).
Proof. vm_compute. reflexivity. Qed.

(** C1, amended: on a store that serves the samples [rows], for a chunk size
    in [1, sample_count], an array index in range, and timestamps strictly
    increasing inside every chunk's window, [series_generator] ends after
    yielding one chunk per start in [range(0, count, chunk_size)]; it
    requests the windows [start, start + min(chunk_size, count - start)),
    which are consecutive and together give [rows] back; each chunk holds
    between 1 and [chunk_size] values, namely column [array_index] of its
    window; and the chunks' values joined are column [array_index] of the
    values the bulk [scaled] call returns -- those values themselves when the
    channel is scalar. *)
Theorem series_generator_chunks `{Library} (fuel : nat)
    (Inv : lib_state -> Prop) (ch : DWChannel) (ai cs : Z)
    (rows : list (Z * list Z)) (w : world) :
  serves_samples Inv (c_arg (reader_handle ch)) (index (base ch)) rows ->
  Inv (lib w) ->
  Forall (fun r => Z.of_nat (length r.2) = array_size (base ch)) rows ->
  0 <= ai < array_size (base ch) ->
  1 <= cs <= Z.of_nat (length rows) ->
  (forall start, start ∈ py_range (Z.of_nat (length rows)) cs ->
     StronglySorted Z.lt (chunk_rows rows cs start).*1) ->
  exists ys w' w'',
    series_generator fuel ch cs ai ([], w) = (Ret tt, (ys, w'))
    /\ ys = chunk_series ch ai rows cs <$> py_range (Z.of_nat (length rows)) cs
    /\ trace w' = trace w
         ++ [existT _ (DWIGetScaledSamplesCount (c_arg (reader_handle ch))
                         (index (base ch)))]
         ++ (chunk_request ch (Z.of_nat (length rows)) cs
               <$> py_range (Z.of_nat (length rows)) cs)
    /\ concat (chunk_rows rows cs <$> py_range (Z.of_nat (length rows)) cs)
       = rows
    /\ Forall (fun y => (1 <= length (s_data y) <= Z.to_nat cs)%nat) ys
    /\ scaled fuel ch ai w = (Ret (rows.*1, concat rows.*2), w'')
    /\ concat (s_data <$> ys) = column (Z.to_nat ai) rows
    /\ reshape_pick (concat rows.*2) (array_size (base ch))
         (seq 0 (length rows)) ai w''
       = (Ret (concat (s_data <$> ys)), w'')
    /\ (array_size (base ch) = 1 -> concat (s_data <$> ys) = concat rows.*2).
Proof.
  intros Hserve Hinv Hrows Hai Hcs Hsorted.
  destruct (number_of_samples_run fuel Inv ch rows w Hserve Hinv)
    as (w1 & Hn & Hinv1 & Htr1).
  destruct (series_loop_run fuel Inv ch ai rows cs Hserve Hrows Hai
              ltac:(lia) Hsorted
              (Z.to_nat ((Z.of_nat (length rows) + cs - 1) / cs)) 0%nat
              {| chunk_size := cs;
                 data := replicate (Z.to_nat (cs * array_size (base ch))) 0;
                 time := replicate (Z.to_nat cs) 0 |}
              [] w1 eq_refl Hinv1 eq_refl)
    as (w' & Hloop & _ & Htr');
    [apply length_replicate|cbn; rewrite length_replicate; lia|].
  destruct (scaled_run fuel Inv ch ai rows w Hserve Hrows Hai Hinv)
    as (w'' & Hscaled).
  fold (py_range (Z.of_nat (length rows)) cs) in Hloop, Htr'.
  assert (Hjoin : concat (s_data <$> (chunk_series ch ai rows cs
                            <$> py_range (Z.of_nat (length rows)) cs))
                  = column (Z.to_nat ai) rows).
  { rewrite <- list_fmap_compose.
    rewrite (list_fmap_ext _ (column (Z.to_nat ai) ∘ chunk_rows rows cs)
               (py_range (Z.of_nat (length rows)) cs))
      by reflexivity.
    rewrite list_fmap_compose, column_concat, chunk_rows_cover by lia.
    reflexivity. }
  exists (chunk_series ch ai rows cs <$> py_range (Z.of_nat (length rows)) cs),
         w', w''.
  repeat apply conj.
  - unfold series_generator.
    erewrite bind_Ret by (eapply lift_eq; exact Hn). cbv zeta.
    rewrite Z.min_l by lia.
    erewrite bind_Ret by (apply np_zeros_ok; nia).
    erewrite bind_Ret by (apply np_zeros_ok; lia).
    assert (Hnz : (cs =? 0) = false) by lia. rewrite Hnz.
    exact Hloop.
  - reflexivity.
  - rewrite Htr', Htr1, <- app_assoc. reflexivity.
  - apply chunk_rows_cover. lia.
  - apply Forall_fmap, Forall_forall. intros start Hin. cbn.
    apply py_range_bounds in Hin; [|lia|lia].
    unfold column. rewrite length_fmap.
    pose proof (chunk_rows_length rows cs start Hin ltac:(lia)). lia.
  - exact Hscaled.
  - exact Hjoin.
  - rewrite Hjoin. rewrite <- (app_nil_r (concat rows.*2)).
    apply reshape_pick_rows; [exact Hrows|exact Hai|].
    rewrite app_nil_r.
    rewrite (flat_length (Z.to_nat (array_size (base ch))))
      by (eapply Forall_impl; [exact Hrows|]; cbn; intros; lia).
    rewrite Nat2Z.inj_mul, Z2Nat.id by lia. apply Z.mod_mul. lia.
  - intros Ha. rewrite Hjoin. rewrite Ha in Hai, Hrows.
    replace ai with 0 by lia. apply column_scalar, Hrows.
Qed.

Lemma ref_serves_samples :
  @serves_samples RefLib (fun s => s = @lib RefLib (demo_open "" None).2.2)
    4096 0 (rc_samples demo_scalar).
Proof.
  split.
  - intros s ->. eexists. split; reflexivity.
  - intros s pos n -> Hpos Hn Hfit. eexists. split; [|reflexivity].
    change (@lib_call RefLib) with ref_call.
    unfold ref_call, ref_on_channel, ref_on_file.
    change (ref_reader (@lib RefLib (demo_open "" None).2.2) 4096)
      with (Some true).
    cbv beta iota.
    change (rs_file (@lib RefLib (demo_open "" None).2.2))
      with (demo_file "").
    change (list_find (fun c => bool_decide (index (rc_struct c) = 0))
              (rf_channels (demo_file "")))
      with (Some (0%nat, demo_scalar)).
    cbv beta iota.
    assert (Hin : ref_in_range pos n (rc_samples demo_scalar) = true).
    { unfold ref_in_range.
      apply andb_true_intro; split; [apply andb_true_intro; split|];
        apply Z.leb_le; assumption. }
    rewrite Hin. reflexivity.
Qed.

Lemma series_generator_chunks_witness :
  exists ys w' t d w'',
    @series_generator RefLib 4 demo_ch0 2 0 ([], (demo_open "" None).2.2)
    = (Ret tt, (ys, w'))
    /\ @scaled RefLib 4 demo_ch0 0 (demo_open "" None).2.2
       = (Ret (t, d), w'')
    /\ concat (s_data <$> ys) = d.
Proof.
  assert (Hrows : Forall (fun r : Z * list Z =>
                            Z.of_nat (length r.2)
                            = array_size (base demo_ch0))
                         (rc_samples demo_scalar)).
  { repeat constructor. }
  assert (Hsorted : forall start,
            start ∈ py_range (Z.of_nat (length (rc_samples demo_scalar))) 2 ->
            StronglySorted Z.lt
              (chunk_rows (rc_samples demo_scalar) 2 start).*1).
  { intros start Hin.
    change (py_range (Z.of_nat (length (rc_samples demo_scalar))) 2)
      with [0; 2; 4] in Hin.
    rewrite !elem_of_cons, elem_of_nil in Hin.
    destruct Hin as [->|[->|[->|[]]]]; cbn; repeat constructor; lia. }
  destruct (@series_generator_chunks RefLib 4
              (fun s => s = @lib RefLib (demo_open "" None).2.2)
              demo_ch0 0 2 (rc_samples demo_scalar) (demo_open "" None).2.2
              ref_serves_samples eq_refl Hrows
              ltac:(cbn; lia) ltac:(cbn; lia) Hsorted)
    as (ys & w' & w'' & Hgen & _ & _ & _ & _ & Hscaled & _ & _ & Hscalar).
  exists ys, w', (rc_samples demo_scalar).*1,
         (concat (rc_samples demo_scalar).*2), w''.
  split; [exact Hgen|]. split; [exact Hscaled|]. apply Hscalar. reflexivity.
Defined.

(** * Further properties *)

(** ** Decoding fixed-width text *)

Lemma append_String (c : ascii) (s t : string) :
  String c s +:+ t = String c (s +:+ t).
Proof. reflexivity. Qed.

Lemma append_empty (t : string) : "" +:+ t = t.
Proof. reflexivity. Qed.

Lemma rstrip_nul_nuls (n : nat) : rstrip_nul (nuls n) = "".
Proof.
  induction n as [|n IH]; cbn; [reflexivity|]. rewrite IH. reflexivity.
Qed.

Lemma rstrip_nul_app_nuls (s : string) (n : nat) :
  rstrip_nul (s +:+ nuls n) = rstrip_nul s.
Proof.
  induction s as [|c s IH].
  - rewrite append_empty. apply rstrip_nul_nuls.
  - rewrite append_String. cbn. rewrite IH. reflexivity.
Qed.

Lemma rstrip_nul_fixed (s : string) :
  ends_with_nul s = false -> rstrip_nul s = s.
Proof.
  induction s as [|c s IH]; cbn; [reflexivity|].
  destruct s as [|c' s'].
  - cbn. intros ->. reflexivity.
  - intros Hend. rewrite (IH Hend). reflexivity.
Qed.

Lemma rstrip_nul_no_trailing (s : string) :
  ends_with_nul (rstrip_nul s) = false.
Proof.
  induction s as [|c s IH]; cbn; [reflexivity|].
  destruct (rstrip_nul s) as [|c' r] eqn:Hr.
  - destruct (Ascii.eqb c Ascii.zero) eqn:Hc; cbn; [reflexivity|exact Hc].
  - exact IH.
Qed.

Lemma rstrip_nul_padding (s : string) :
  exists n, s = rstrip_nul s +:+ nuls n.
Proof.
  induction s as [|c s [n IH]]; cbn.
  - exists 0%nat. reflexivity.
  - destruct (rstrip_nul s) as [|c' r] eqn:Hr.
    + rewrite append_empty in IH.
      destruct (Ascii.eqb_spec c Ascii.zero) as [->|Hc].
      * exists (S n). rewrite append_empty. cbn. rewrite <- IH. reflexivity.
      * exists n. rewrite append_String, append_empty, <- IH. reflexivity.
    + exists n. rewrite append_String, <- IH. reflexivity.
Qed.

Lemma append_assoc (s t u : string) : (s +:+ t) +:+ u = s +:+ (t +:+ u).
Proof.
  induction s as [|c s IH]; [reflexivity|].
  rewrite !append_String, IH. reflexivity.
Qed.

Lemma append_nil_r (s : string) : s +:+ "" = s.
Proof.
  induction s as [|c s IH]; [reflexivity|].
  rewrite append_String, IH. reflexivity.
Qed.

Lemma utf8_lead_wf (c : ascii) : utf8_wf (utf8_lead c).2.
Proof.
  unfold utf8_lead.
  repeat match goal with
         | |- context [if ?b then _ else _] => destruct b
         end; cbn; lia.
Qed.

Lemma utf8_step_wf (st : utf8_state) (c : ascii) :
  utf8_wf st -> utf8_wf (utf8_step st c).2.
Proof.
  intros Hwf. destruct st as [|seen need lo hi]; cbn [utf8_step].
  - apply utf8_lead_wf.
  - destruct ((lo <=? byte_val c) && (byte_val c <=? hi)).
    + destruct need as [|[|n]]; cbn; lia.
    + pose proof (utf8_lead_wf c) as Hl.
      destruct (utf8_lead c) as [out st']. exact Hl.
Qed.

(** An ASCII byte ends whatever sequence is open and is copied. *)
Lemma utf8_step_ascii (st : utf8_state) (c : ascii) :
  utf8_wf st ->
  byte_val c < 0x80 ->
  utf8_step st c = (utf8_flush st +:+ String c "", Idle).
Proof.
  intros Hwf Hc.
  assert (Hlead : utf8_lead c = (String c "", Idle)).
  { unfold utf8_lead.
    destruct (Z.ltb_spec (byte_val c) 0x80); [reflexivity|lia]. }
  destruct st as [|seen need lo hi]; cbn [utf8_step utf8_flush].
  - rewrite append_empty. exact Hlead.
  - cbn in Hwf.
    destruct (Z.leb_spec lo (byte_val c)); [lia|].
    cbn [andb]. rewrite Hlead. reflexivity.
Qed.

Lemma utf8_run_nuls (st : utf8_state) (n : nat) :
  utf8_wf st -> utf8_run st (nuls n) = utf8_flush st +:+ nuls n.
Proof.
  revert st. induction n as [|n IH]; intros st Hwf.
  { cbn [nuls utf8_run]. rewrite append_nil_r. reflexivity. }
  cbn [nuls utf8_run].
  rewrite (utf8_step_ascii st Ascii.zero Hwf) by (vm_compute; reflexivity).
  rewrite (IH Idle I). cbn [utf8_flush].
  rewrite append_empty, append_assoc. reflexivity.
Qed.

(** NUL bytes after the input come out after the decoded input. *)
Lemma utf8_run_app_nuls (s : string) (n : nat) :
  forall st, utf8_wf st ->
  utf8_run st (s +:+ nuls n) = utf8_run st s +:+ nuls n.
Proof.
  induction s as [|c s IH]; intros st Hwf.
  - rewrite append_empty. apply utf8_run_nuls, Hwf.
  - rewrite append_String. cbn [utf8_run].
    pose proof (utf8_step_wf st c Hwf) as Hwf'.
    destruct (utf8_step st c) as [out st']. cbn in Hwf'.
    rewrite (IH st' Hwf'), append_assoc. reflexivity.
Qed.

Lemma utf8_decode_ascii (s : string) :
  is_ascii s = true -> utf8_decode_replace s = s.
Proof.
  unfold utf8_decode_replace.
  induction s as [|c s IH]; intros Ha; [reflexivity|].
  cbn [is_ascii] in Ha. apply andb_true_iff in Ha as [Hc Hs].
  cbn [utf8_run].
  rewrite (utf8_step_ascii Idle c I) by lia.
  cbn [utf8_flush]. rewrite append_empty, append_String, append_empty.
  rewrite (IH Hs). reflexivity.
Qed.

(** X1: NUL padding does not change what [decode_bytes] returns, whatever
    the bytes before it.  A well-formed text that does not itself end in NUL
    therefore survives the fixed-width round trip: padded with any number of
    NUL bytes and decoded, it comes back unchanged.  Every ASCII text is
    well-formed. *)
Theorem decode_bytes_padded (t : string) (n : nat) :
  decode_bytes (t +:+ nuls n) = decode_bytes t
  /\ (utf8_decode_replace t = t -> ends_with_nul t = false ->
        decode_bytes (t +:+ nuls n) = t)
  /\ (is_ascii t = true -> utf8_decode_replace t = t).
Proof.
  assert (Hpad : decode_bytes (t +:+ nuls n) = decode_bytes t).
  { unfold decode_bytes, utf8_decode_replace.
    rewrite (utf8_run_app_nuls t n Idle I). apply rstrip_nul_app_nuls. }
  split; [exact Hpad|]. split; [|apply utf8_decode_ascii].
  intros Hwell Hend. rewrite Hpad. unfold decode_bytes.
  rewrite Hwell. apply rstrip_nul_fixed, Hend.
Qed.

Lemma decode_bytes_padded_witness :
  decode_bytes ("AI 1" +:+ nuls 3) = "AI 1".
Proof.
  exact (proj1 (proj2 (decode_bytes_padded "AI 1" 3)) eq_refl eq_refl).
Defined.

(** X2: [decode_bytes] removes trailing NULs from the decoded text and
    nothing else: the decoded text is the result followed by NULs only, and
    the result does not end in NUL.  What is decoded is not always the
    input: a byte of [0x80] or above that stands alone is ill-formed and
    comes out as U+FFFD. *)
Theorem decode_bytes_strips_trailing_nuls (s : string) :
  (exists n, utf8_decode_replace s = decode_bytes s +:+ nuls n)
  /\ ends_with_nul (decode_bytes s) = false
  /\ (forall c, 0x80 <= byte_val c ->
        decode_bytes (String c "") = replacement).
Proof.
  unfold decode_bytes. split; [apply rstrip_nul_padding|].
  split; [apply rstrip_nul_no_trailing|].
  intros c Hc. unfold utf8_decode_replace. cbn [utf8_run utf8_step].
  unfold utf8_lead.
  repeat match goal with
         | |- context [if ?b <? ?x then _ else _] =>
             destruct (Z.ltb_spec b x); [try lia|]
         | |- context [if ?b =? ?x then _ else _] =>
             destruct (Z.eqb_spec b x)
         end; reflexivity.
Qed.

(** ** The retry loop of the status translation *)

Lemma last_status_loop_stubborn `{Library} :
  (forall s len, exists s' e m len',
     lib_call _ (DWGetLastStatus len) s
     = (s', (status_value DWSTAT_ERROR_NO_MEMORY_ALLOC, (e, m, len')))
     /\ 0 <= len') ->
  forall fuel len (w : world),
  exists w', last_status_loop fuel len w = (Diverge, w')
             /\ length (trace w') = (length (trace w) + fuel)%nat.
Proof.
  intros Hstub. induction fuel as [|fuel IH]; intros len w.
  - exists w. split; [reflexivity|lia].
  - destruct (Hstub (lib w) len) as (s' & e & m & len' & E & Hlen).
    destruct (IH len' {| lib := s';
                         trace := trace w ++
                           [existT _ (DWGetLastStatus len)] |})
      as (w' & Hloop & Htr).
    exists w'. split.
    + cbn [last_status_loop]. step_native E.
      assert (Hneg : (len' <? 0) = false) by lia.
      cbn [status_value]. rewrite Z.eqb_refl, Hneg. exact Hloop.
    + rewrite Htr. cbn. rewrite length_app. cbn. lia.
Qed.

(** X3: the retry loop has no bound.  Against a store that answers every
    [DWGetLastStatus] with the retry status, [check_lib_status] on a failure
    status neither returns nor raises, whatever the budget of queries: every
    one of them is spent. *)
Theorem check_lib_status_unbounded `{Library} (fuel : nat) (status : Z)
    (w : world) :
  (forall s len, exists s' e m len',
     lib_call _ (DWGetLastStatus len) s
     = (s', (status_value DWSTAT_ERROR_NO_MEMORY_ALLOC, (e, m, len')))
     /\ 0 <= len') ->
  status <> status_value DWSTAT_OK ->
  exists w', check_lib_status fuel status w = (Diverge, w')
             /\ length (trace w') = (length (trace w) + fuel)%nat.
Proof.
  intros Hstub Hs.
  destruct (last_status_loop_stubborn Hstub fuel 1024 w) as (w' & Hloop & Htr).
  exists w'. split; [|exact Htr].
  unfold check_lib_status. cbn [status_value] in *.
  destruct (Z.eqb_spec status 0); [contradiction|].
  unfold bind. rewrite Hloop. reflexivity.
Qed.

Lemma check_lib_status_unbounded_witness :
  exists w',
    @check_lib_status (RetryLib 2048) 3 11
      (@Build_world (RetryLib 2048) tt []) = (Diverge, w')
    /\ length (@trace (RetryLib 2048) w') = (0 + 3)%nat.
Proof.
  refine (@check_lib_status_unbounded (RetryLib 2048) 3 11
            (@Build_world (RetryLib 2048) tt []) _ _).
  - intros s len. exists tt, 1, "", 2048. split; [reflexivity|lia].
  - discriminate.
Defined.

(** ** The scans of the channel lookup *)

Lemma getitem_str_first (chs : list DWChannel) (key : string)
    (ch : DWChannel) :
  getitem_str chs key = Some ch <->
  exists i, chs !! i = Some ch /\ name ch = key
            /\ forall j c, (j < i)%nat -> chs !! j = Some c -> name c <> key.
Proof.
  induction chs as [|c0 chs IH]; cbn.
  - split; [discriminate|]. intros (i & Hi & _). discriminate.
  - destruct (String.eqb_spec (name c0) key) as [Heq|Hne].
    + split.
      * intros [= <-]. exists 0%nat. split; [reflexivity|].
        split; [exact Heq|]. intros j c Hj. lia.
      * intros ([|i] & Hi & _ & Hfirst); cbn in Hi.
        -- congruence.
        -- destruct (Hfirst 0%nat c0 ltac:(lia) eq_refl Heq).
    + rewrite IH. split.
      * intros (i & Hi & Hname & Hfirst). exists (S i).
        split; [exact Hi|]. split; [exact Hname|].
        intros [|j] c Hj Hc; cbn in Hc; [congruence|].
        apply (Hfirst j c); [lia|exact Hc].
      * intros ([|i] & Hi & Hname & Hfirst); cbn in Hi.
        -- congruence.
        -- exists i. split; [exact Hi|]. split; [exact Hname|].
           intros j c Hj Hc. apply (Hfirst (S j) c); [lia|exact Hc].
Qed.

Lemma channel_match_spec (c k : DWChannel) :
  (index (base c) =? index (base k)) || String.eqb (name c) (name k) = true
  <-> index (base c) = index (base k) \/ name c = name k.
Proof.
  rewrite orb_true_iff, Z.eqb_eq.
  destruct (String.eqb_spec (name c) (name k)); intuition congruence.
Qed.

Lemma getitem_channel_first (chs : list DWChannel) (k ch : DWChannel) :
  getitem_channel chs k = Some ch <->
  exists i, chs !! i = Some ch
            /\ (index (base ch) = index (base k) \/ name ch = name k)
            /\ forall j c, (j < i)%nat -> chs !! j = Some c ->
                 index (base c) <> index (base k) /\ name c <> name k.
Proof.
  induction chs as [|c0 chs IH]; cbn.
  - split; [discriminate|]. intros (i & Hi & _). discriminate.
  - destruct ((index (base c0) =? index (base k))
              || String.eqb (name c0) (name k)) eqn:Hm.
    + apply channel_match_spec in Hm. split.
      * intros [= <-]. exists 0%nat. split; [reflexivity|].
        split; [exact Hm|]. intros j c Hj. lia.
      * intros ([|i] & Hi & _ & Hfirst); cbn in Hi.
        -- congruence.
        -- destruct (Hfirst 0%nat c0 ltac:(lia) eq_refl) as [Hi0 Hn0].
           destruct Hm; contradiction.
    + assert (Hno : index (base c0) <> index (base k)
                    /\ name c0 <> name k).
      { split; intros Heq;
          assert (Ht : (index (base c0) =? index (base k))
                       || String.eqb (name c0) (name k) = true)
            by (apply channel_match_spec; auto);
          congruence. }
      rewrite IH. split.
      * intros (i & Hi & Hmatch & Hfirst). exists (S i).
        split; [exact Hi|]. split; [exact Hmatch|].
        intros [|j] c Hj Hc; cbn in Hc; [congruence|].
        apply (Hfirst j c); [lia|exact Hc].
      * intros ([|i] & Hi & Hmatch & Hfirst); cbn in Hi.
        -- injection Hi as ->. destruct Hno, Hmatch; contradiction.
        -- exists i. split; [exact Hi|]. split; [exact Hmatch|].
           intros j c Hj Hc. apply (Hfirst (S j) c); [lia|exact Hc].
Qed.

(** X4: a string key is looked up by name alone, in catalog order: the
    result is the first channel whose name equals the key, and [None] --
    never an error -- exactly when no channel has that name. *)
Theorem getitem_by_name {St : Type} (self : DWFile) (chs : list DWChannel)
    (key : string) (s : St) :
  exists r,
    getitem (set_channels chs self) (KeyStr key) s = (Ret r, s)
    /\ (forall ch, r = Some ch <->
          exists i, chs !! i = Some ch /\ name ch = key
                    /\ forall j c, (j < i)%nat -> chs !! j = Some c ->
                         name c <> key)
    /\ (r = None <-> forall ch, ch ∈ chs -> name ch <> key).
Proof.
  exists (getitem_str chs key). split; [reflexivity|].
  split; [intros ch; apply getitem_str_first|apply getitem_str_None].
Qed.

(** X5: a channel object used as key is matched by index or by name, in
    catalog order: the result is the first channel that shares the key's
    index or its name; it is [None] exactly when no channel shares either,
    so a catalogued channel is always found. *)
Theorem getitem_by_channel {St : Type} (self : DWFile)
    (chs : list DWChannel) (k : DWChannel) (s : St) :
  exists r,
    getitem (set_channels chs self) (KeyChannel k) s = (Ret r, s)
    /\ (forall ch, r = Some ch <->
          exists i, chs !! i = Some ch
                    /\ (index (base ch) = index (base k) \/ name ch = name k)
                    /\ forall j c, (j < i)%nat -> chs !! j = Some c ->
                         index (base c) <> index (base k)
                         /\ name c <> name k)
    /\ (r = None <->
          forall c, c ∈ chs ->
            index (base c) <> index (base k) /\ name c <> name k)
    /\ (k ∈ chs -> r <> None).
Proof.
  exists (getitem_channel chs k). split; [reflexivity|].
  assert (Hnone : getitem_channel chs k = None <->
            forall c, c ∈ chs ->
              index (base c) <> index (base k) /\ name c <> name k).
  { induction chs as [|c0 chs IH]; cbn.
    - split; [intros _ c Hin; inversion Hin|reflexivity].
    - destruct ((index (base c0) =? index (base k))
                || String.eqb (name c0) (name k)) eqn:Hm.
      + split; [discriminate|]. intros Hall.
        apply channel_match_spec in Hm.
        destruct (Hall c0 (list_elem_of_here _ _)), Hm; contradiction.
      + rewrite IH. split.
        * intros Hall c Hin. apply elem_of_cons in Hin as [->|Hin]; [|auto].
          split; intros Heq;
            assert (Ht : (index (base c0) =? index (base k))
                         || String.eqb (name c0) (name k) = true)
              by (apply channel_match_spec; auto);
            congruence.
        * intros Hall c Hin. apply Hall, list_elem_of_further, Hin. }
  split; [intros ch; apply getitem_channel_first|].
  split; [exact Hnone|].
  intros Hin Hr. destruct (proj1 Hnone Hr k Hin) as [Hi _].
  contradiction.
Qed.

(** X6: in a catalog whose channels differ pairwise in index and in name,
    looking a catalogued channel up by the object itself or by its name
    returns that very channel. *)
Theorem getitem_round_trip {St : Type} (self : DWFile)
    (chs : list DWChannel) (i : nat) (ch : DWChannel) (s : St) :
  (forall j j' c c', chs !! j = Some c -> chs !! j' = Some c' ->
     index (base c) = index (base c') \/ name c = name c' -> j = j') ->
  chs !! i = Some ch ->
  getitem (set_channels chs self) (KeyChannel ch) s = (Ret (Some ch), s)
  /\ getitem (set_channels chs self) (KeyStr (name ch)) s
     = (Ret (Some ch), s).
Proof.
  intros Hdistinct Hi. split; cbn; unfold ret; do 2 f_equal.
  - apply getitem_channel_first. exists i. split; [exact Hi|].
    split; [auto|]. intros j c Hj Hc.
    split; intros Heq;
      assert (j = i) by (eapply Hdistinct; eauto); lia.
  - apply getitem_str_first. exists i. split; [exact Hi|].
    split; [reflexivity|]. intros j c Hj Hc Heq.
    assert (j = i) by (eapply Hdistinct; eauto). lia.
Qed.

Lemma getitem_round_trip_witness :
  getitem (set_channels [demo_ch0; demo_ch1] new_file) (KeyChannel demo_ch1) tt
  = (Ret (Some demo_ch1), tt)
  /\ getitem (set_channels [demo_ch0; demo_ch1] new_file)
       (KeyStr (name demo_ch1)) tt
     = (Ret (Some demo_ch1), tt).
Proof.
  refine (@getitem_round_trip unit new_file [demo_ch0; demo_ch1] 1 demo_ch1 tt
            _ eq_refl).
  intros [|[|j]] [|[|j']] c c' Hc Hc' Hsame; cbn in Hc, Hc';
    try discriminate; try reflexivity;
    injection Hc as <-; injection Hc' as <-;
    destruct Hsame as [Hsame|Hsame]; vm_compute in Hsame; discriminate.
Defined.

(** ** Opening and closing *)

Lemma open_body_run `{Library} fuel source self (w : world)
    s1 i1 s2 i2 s3 n s4 written :
  lib_call _ (DWIOpenDataFile (c_arg (f_reader_handle self)) source) (lib w)
    = (s1, (0, i1)) ->
  lib_call _ (DWIGetMeasurementInfo (c_arg (f_reader_handle self))) s1
    = (s2, (0, i2)) ->
  lib_call _ (DWIGetChannelListCount (c_arg (f_reader_handle self))) s2
    = (s3, (0, n)) ->
  0 <= n ->
  lib_call _ (DWIGetChannelList (c_arg (f_reader_handle self))) s3
    = (s4, (0, written)) ->
  (length written <= Z.to_nat n)%nat ->
  open fuel source (self, w)
  = (Ret tt,
     (set_channels (catalog (f_reader_handle self) n written)
        (set_closed false
           (set_info i2 (set_info i1 (set_info zero_info self)))),
      {| lib := s4;
         trace := (((trace w
           ++ [existT _ (DWIOpenDataFile (c_arg (f_reader_handle self))
                           source)])
           ++ [existT _ (DWIGetMeasurementInfo
                           (c_arg (f_reader_handle self)))])
           ++ [existT _ (DWIGetChannelListCount
                           (c_arg (f_reader_handle self)))])
           ++ [existT _ (DWIGetChannelList
                           (c_arg (f_reader_handle self)))] |})).
Proof.
  intros E1 E2 E3 Hn E4 Hfit.
  assert (Hbody : open_body fuel source (self, w) =
    (Ret tt,
     (set_channels (catalog (f_reader_handle self) n written)
        (set_closed false
           (set_info i2 (set_info i1 (set_info zero_info self)))),
      {| lib := s4;
         trace := (((trace w
           ++ [existT _ (DWIOpenDataFile (c_arg (f_reader_handle self))
                           source)])
           ++ [existT _ (DWIGetMeasurementInfo
                           (c_arg (f_reader_handle self)))])
           ++ [existT _ (DWIGetChannelListCount
                           (c_arg (f_reader_handle self)))])
           ++ [existT _ (DWIGetChannelList
                           (c_arg (f_reader_handle self)))] |}))).
  { unfold open_body.
    step_ok. step_ok. step_native E1. step_ok. step_ok.
    step_native E2. step_ok. step_ok. step_ok.
    step_native E3. step_ok.
    assert (Hneg : (n <? 0) = false) by lia. rewrite Hneg. step_ok.
    step_native E4.
    erewrite bind_Ret
      by (apply poke_M_ok; rewrite length_replicate; exact Hfit).
    cbv beta. step_ok. reflexivity. }
  unfold open, try_except_RuntimeError. rewrite Hbody. reflexivity.
Qed.

Lemma catalog_facts (h : option handle) (n : Z)
    (written : list DWChannelStruct) :
  0 <= n -> (length written <= Z.to_nat n)%nat ->
  length (catalog h n written) = Z.to_nat n
  /\ base <$> catalog h n written
     = written ++ replicate (Z.to_nat n - length written) zero_channel_struct
  /\ Forall (fun c => reader_handle c = h) (catalog h n written).
Proof.
  intros Hn Hfit. unfold catalog. rewrite drop_replicate.
  split; [|split].
  - rewrite length_fmap, length_app, length_replicate. lia.
  - rewrite <- list_fmap_compose.
    rewrite (list_fmap_ext _ id _) by reflexivity.
    apply list_fmap_id.
  - apply Forall_fmap, Forall_forall. intros c _. reflexivity.
Qed.

(** X7: when the store answers the four queries of [open] with OK -- a
    channel count [n >= 0] and at most [n] channel structures -- [open]
    returns with the session marked open, the measurement info of the second
    query stored, and a catalog of exactly [n] channels in the store's order
    (zero-filled where the store wrote fewer), each carrying the session's
    reader handle; exactly those four native calls are made. *)
Theorem open_builds_catalog `{Library} (fuel : nat) (source : string)
    (self : DWFile) (w : world) s1 i1 s2 i2 s3 n s4 written :
  lib_call _ (DWIOpenDataFile (c_arg (f_reader_handle self)) source) (lib w)
    = (s1, (0, i1)) ->
  lib_call _ (DWIGetMeasurementInfo (c_arg (f_reader_handle self))) s1
    = (s2, (0, i2)) ->
  lib_call _ (DWIGetChannelListCount (c_arg (f_reader_handle self))) s2
    = (s3, (0, n)) ->
  0 <= n ->
  lib_call _ (DWIGetChannelList (c_arg (f_reader_handle self))) s3
    = (s4, (0, written)) ->
  (length written <= Z.to_nat n)%nat ->
  exists self' w' chs,
    open fuel source (self, w) = (Ret tt, (self', w'))
    /\ closed self' = false
    /\ info self' = Some i2
    /\ f_reader_handle self' = f_reader_handle self
    /\ channels self' = Some chs
    /\ length chs = Z.to_nat n
    /\ base <$> chs
       = written ++ replicate (Z.to_nat n - length written) zero_channel_struct
    /\ Forall (fun c => reader_handle c = f_reader_handle self) chs
    /\ DWFile_len self' w' = (Ret n, w')
    /\ lib w' = s4
    /\ length (trace w') = (length (trace w) + 4)%nat.
Proof.
  intros E1 E2 E3 Hn E4 Hfit.
  destruct (catalog_facts (f_reader_handle self) n written Hn Hfit)
    as (Hlen & Hbase & Hall).
  eexists _, _, _. split; [eapply open_body_run; eassumption|].
  cbn. repeat split; try assumption; try reflexivity.
  - unfold ret. rewrite Hlen, Z2Nat.id by lia. reflexivity.
  - rewrite !length_app. cbn. lia.
Qed.

Lemma open_builds_catalog_witness :
  exists self' w' chs,
    @open RefLib 4 "demo.d7d" ((demo_init "" None).1, (demo_init "" None).2)
    = (Ret tt, (self', w'))
    /\ closed self' = false
    /\ channels self' = Some chs
    /\ length chs = Z.to_nat 2.
Proof.
  edestruct (@open_builds_catalog RefLib 4 "demo.d7d" (demo_init "" None).1
               (demo_init "" None).2)
    as (self' & w' & chs & Hopen & Hc & _ & _ & Hch & Hlen & _);
    [reflexivity|reflexivity|reflexivity|lia|reflexivity|cbn; lia|].
  exists self', w', chs. auto.
Defined.

(** X8: the roll-back of [open] at the channel count, on any library.  When
    the store has accepted the file and the measurement-info query and then
    fails [DWIGetChannelListCount], [open] raises the [RuntimeError] for that
    status after closing the data file and releasing the reader, once each
    and as its last two native calls; the session is left marked closed,
    without handle and with an empty catalog. *)
Theorem open_rolls_back_at_channel_count `{Library} (fuel : nat)
    (source : string) (self : DWFile) (w : world) (h : handle)
    s1 i1 s2 i2 s3 status n lens s' msg :
  f_reader_handle self = Some h ->
  lib_call _ (DWIOpenDataFile h source) (lib w) = (s1, (0, i1)) ->
  lib_call _ (DWIGetMeasurementInfo h) s1 = (s2, (0, i2)) ->
  lib_call _ (DWIGetChannelListCount h) s2 = (s3, (status, n)) ->
  status <> 0 ->
  negotiates s3 1024 lens s' msg ->
  (length lens <= fuel)%nat ->
  exists self' w' before,
    open fuel source (self, w)
    = (Raise (RuntimeError (error_text status msg)), (self', w'))
    /\ closed self' = true
    /\ f_reader_handle self' = None
    /\ channels self' = Some []
    /\ trace w' = trace w ++ before
                  ++ [existT _ (DWICloseDataFile h);
                      existT _ (DWIDestroyReader h)]
    /\ released before = 0%nat
    /\ files_closed before = 0%nat.
Proof.
  intros Hh E1 E2 E3 Hst Hn Hf.
  assert (Hbody : open_body fuel source (self, w) =
    (Raise (RuntimeError (error_text status msg)),
     (set_closed false (set_info i2 (set_info i1 (set_info zero_info self))),
      {| lib := s';
         trace := (((trace w ++ [existT _ (DWIOpenDataFile h source)])
                    ++ [existT _ (DWIGetMeasurementInfo h)])
                   ++ [existT _ (DWIGetChannelListCount h)])
                  ++ last_status_calls lens |}))).
  { unfold open_body.
    step_ok. step_ok. cbn [fst snd set_info f_reader_handle].
    rewrite Hh. cbn [c_arg default].
    step_native E1. step_ok. step_ok.
    step_native E2. step_ok. step_ok. step_ok.
    step_native E3.
    erewrite bind_Raise; [reflexivity|].
    eapply lift_eq, check_lib_status_raises; eauto. }
  unfold open, try_except_RuntimeError. rewrite Hbody.
  erewrite close_open_session; [|reflexivity|cbn; exact Hh].
  destruct (released_last_status_calls lens) as [Hr Hfc].
  eexists _, _,
    ([existT _ (DWIOpenDataFile h source) : event;
      existT _ (DWIGetMeasurementInfo h) : event;
      existT _ (DWIGetChannelListCount h) : event]
     ++ last_status_calls lens).
  split; [reflexivity|]. cbn [closed f_reader_handle channels set_channels
                               set_closed set_reader_handle trace].
  repeat split.
  - rewrite <- !app_assoc. reflexivity.
  - unfold released in *. rewrite List.filter_app, length_app, Hr. reflexivity.
  - unfold files_closed in *.
    rewrite List.filter_app, length_app, Hfc. reflexivity.
Qed.

Lemma open_rolls_back_at_channel_count_witness :
  exists self' w' before,
    @open RefLib 4 "demo.d7d"
      ((demo_init "" (Some (AtCount, 4))).1,
       (demo_init "" (Some (AtCount, 4))).2)
    = (Raise (RuntimeError (error_text 4 "file is corrupt")), (self', w'))
    /\ closed self' = true
    /\ @trace RefLib w'
       = @trace RefLib (demo_init "" (Some (AtCount, 4))).2 ++ before
         ++ [existT _ (DWICloseDataFile 4096);
             existT _ (DWIDestroyReader 4096)].
Proof.
  edestruct (@open_rolls_back_at_channel_count RefLib 4 "demo.d7d"
               (demo_init "" (Some (AtCount, 4))).1
               (demo_init "" (Some (AtCount, 4))).2 4096)
    as (self' & w' & before & Hopen & Hc & _ & _ & Htr & _);
    [reflexivity|reflexivity|reflexivity|reflexivity|discriminate| |
     |exists self', w', before; eauto].
  - eapply (@negotiates_done RefLib); [reflexivity|discriminate].
  - cbn. lia.
Defined.

(** X9: every channel object that [open] puts in the catalog holds the
    handle that [close()] afterwards hands to [DWIDestroyReader]: closing
    empties the file's own catalog and drops its own handle, but channel
    objects obtained before keep the released one. *)
Theorem close_leaves_channels_with_released_handle `{Library} (fuel : nat)
    (source : string) (self : DWFile) (w : world) (h : handle)
    s1 i1 s2 i2 s3 n s4 written :
  f_reader_handle self = Some h ->
  lib_call _ (DWIOpenDataFile h source) (lib w) = (s1, (0, i1)) ->
  lib_call _ (DWIGetMeasurementInfo h) s1 = (s2, (0, i2)) ->
  lib_call _ (DWIGetChannelListCount h) s2 = (s3, (0, n)) ->
  0 <= n ->
  lib_call _ (DWIGetChannelList h) s3 = (s4, (0, written)) ->
  (length written <= Z.to_nat n)%nat ->
  exists f1 w1 chs f2 w2,
    open fuel source (self, w) = (Ret tt, (f1, w1))
    /\ channels f1 = Some chs
    /\ Forall (fun c => reader_handle c = Some h) chs
    /\ close (f1, w1) = (Ret tt, (f2, w2))
    /\ trace w2 = trace w1 ++ [existT _ (DWICloseDataFile h);
                               existT _ (DWIDestroyReader h)]
    /\ f_reader_handle f2 = None
    /\ channels f2 = Some [].
Proof.
  intros Hh E1 E2 E3 Hn E4 Hfit.
  destruct (catalog_facts (Some h) n written Hn Hfit) as (_ & _ & Hall).
  eexists _, _, _, _, _.
  split.
  { eapply open_body_run; rewrite ?Hh; cbn [c_arg default]; eassumption. }
  rewrite Hh. split; [reflexivity|]. split; [exact Hall|].
  split; [apply close_open_session; [reflexivity|exact Hh]|].
  cbn. split; [rewrite <- app_assoc; reflexivity|]. split; reflexivity.
Qed.

Lemma close_leaves_channels_with_released_handle_witness :
  exists f1 w1 chs f2 w2,
    @open RefLib 4 "demo.d7d" ((demo_init "" None).1, (demo_init "" None).2)
    = (Ret tt, (f1, w1))
    /\ channels f1 = Some chs
    /\ Forall (fun c => reader_handle c = Some 4096) chs
    /\ @close RefLib (f1, w1) = (Ret tt, (f2, w2))
    /\ f_reader_handle f2 = None.
Proof.
  edestruct (@close_leaves_channels_with_released_handle RefLib 4 "demo.d7d"
               (demo_init "" None).1 (demo_init "" None).2 4096)
    as (f1 & w1 & chs & f2 & w2 & Hopen & Hch & Hall & Hclose & _ & Hh & _);
    [reflexivity|reflexivity|reflexivity|reflexivity|lia|reflexivity
    |cbn; lia|].
  exists f1, w1, chs, f2, w2. auto.
Defined.

(** X10: a session that was constructed but never opened.  After
    [DWFile()] on a store that hands out a reader, the session is marked
    closed and has no catalog: [len(f)] and [f[name]] raise [TypeError], and
    [close()], however often it is called, makes no native call -- the reader
    created by [__init__] is never released. *)
Theorem never_opened_session `{Library} (fuel : nat) (w : world)
    (s1 : lib_state) (h : handle) :
  lib_call _ DWICreateReader (lib w) = (s1, (0, h)) ->
  exists f w1,
    DWFile_init fuel None (new_file, w) = (Ret tt, (f, w1))
    /\ closed f = true
    /\ f_reader_handle f = Some h
    /\ trace w1 = trace w ++ [existT _ DWICreateReader]
    /\ (exists msg, DWFile_len f w1 = (Raise (TypeError msg), w1))
    /\ (forall key, exists msg,
          getitem f (KeyStr key) w1 = (Raise (TypeError msg), w1))
    /\ (forall n, closes n (f, w1) = (Ret tt, (f, w1))).
Proof.
  intros E. eexists _, _. split.
  { unfold DWFile_init. step_native E. step_ok. step_ok. reflexivity. }
  cbn. repeat split.
  - eexists. reflexivity.
  - intros key. eexists. reflexivity.
  - intros n. apply closes_closed. reflexivity.
Qed.

Lemma never_opened_session_witness :
  exists f w1,
    @DWFile_init RefLib 4 None (new_file, ref_world (demo_file "") None)
    = (Ret tt, (f, w1))
    /\ closed f = true
    /\ (forall n, @closes RefLib n (f, w1) = (Ret tt, (f, w1))).
Proof.
  edestruct (@never_opened_session RefLib 4 (ref_world (demo_file "") None))
    as (f & w1 & Hinit & Hc & _ & _ & _ & _ & Hcloses); [reflexivity|].
  exists f, w1. auto.
Defined.

(** X11: scoped use of a session object.  [with f: body] ends with the
    session marked closed whether the body returns or raises; the body's
    result or exception is what the statement gives; and leaving the block
    releases the reader once if the body left the session open, and not at
    all if the body had closed it. *)
Theorem with_session_closes `{Library} {A : Type} (body : method A)
    (f1 : DWFile) (w1 : world) (o : outcome A) (f2 : DWFile) (w2 : world) :
  body (f1, w1) = (o, (f2, w2)) ->
  o <> Diverge -> o <> Fault ->
  exists f3 w3 calls,
    with_session body (f1, w1) = (o, (f3, w3))
    /\ closed f3 = true
    /\ trace w3 = trace w2 ++ calls
    /\ released calls
       = (if negb (closed f2) && bool_decide (is_Some (f_reader_handle f2))
          then 1 else 0)%nat.
Proof.
  intros Hbody Hd Hf.
  destruct (close_run f2 w2) as (f3 & w3 & calls & Hclose & Hc & Htr & Hr & _).
  exists f3, w3, calls. split; [|auto].
  unfold with_session, finally, DWFile_exit. rewrite Hbody.
  destruct o; try contradiction; rewrite Hclose; reflexivity.
Qed.

Lemma with_session_closes_witness :
  exists f3 w3 calls,
    @with_session RefLib Z (lift (@number_of_samples RefLib 4 demo_ch1))
      (demo_open "" None).2
    = (Ret 3, (f3, w3))
    /\ closed f3 = true
    /\ released calls = 1%nat.
Proof.
  edestruct (@with_session_closes RefLib Z
               (lift (@number_of_samples RefLib 4 demo_ch1))
               (demo_open "" None).2.1 (demo_open "" None).2.2)
    as (f3 & w3 & calls & Hwith & Hc & _ & Hr);
    [vm_compute; reflexivity|discriminate|discriminate|].
  exists f3, w3, calls. split; [exact Hwith|]. split; [exact Hc|exact Hr].
Defined.

(** X23: scoped use from [open_file].  On a store that hands out a reader
    and answers the four queries of [open] with OK, [open_file(source)] with a
    non-empty source returns an open session whose catalog has the counted
    number of channels, each carrying the new reader's handle, and nothing
    has been released.  [with open_file(source) as f: body] then runs the body
    on that session, gives the body's result or exception, and ends with the
    session closed; the reader is released once unless the body had closed
    the session itself. *)
Theorem with_open_file_session `{Library} {A : Type} (fuel : nat)
    (source : string) (body : method A) (w : world) (h : handle)
    s0 s1 i1 s2 i2 s3 n s4 written :
  source <> "" ->
  lib_call _ DWICreateReader (lib w) = (s0, (0, h)) ->
  lib_call _ (DWIOpenDataFile h source) s0 = (s1, (0, i1)) ->
  lib_call _ (DWIGetMeasurementInfo h) s1 = (s2, (0, i2)) ->
  lib_call _ (DWIGetChannelListCount h) s2 = (s3, (0, n)) ->
  0 <= n ->
  lib_call _ (DWIGetChannelList h) s3 = (s4, (0, written)) ->
  (length written <= Z.to_nat n)%nat ->
  exists f1 w1 chs calls1,
    open_file fuel (Some source) (new_file, w) = (Ret tt, (f1, w1))
    /\ closed f1 = false
    /\ f_reader_handle f1 = Some h
    /\ channels f1 = Some chs
    /\ length chs = Z.to_nat n
    /\ Forall (fun c => reader_handle c = Some h) chs
    /\ trace w1 = trace w ++ calls1
    /\ length calls1 = 5%nat
    /\ released calls1 = 0%nat
    /\ forall o f2 w2,
         body (f1, w1) = (o, (f2, w2)) -> o <> Diverge -> o <> Fault ->
         exists f3 w3 calls,
           with_open_file fuel (Some source) body (new_file, w)
           = (o, (f3, w3))
           /\ closed f3 = true
           /\ trace w3 = trace w2 ++ calls
           /\ released calls
              = (if negb (closed f2)
                    && bool_decide (is_Some (f_reader_handle f2))
                 then 1 else 0)%nat.
Proof.
  intros Hsrc E0 E1 E2 E3 Hn E4 Hfit.
  destruct (catalog_facts (Some h) n written Hn Hfit) as (Hlen & _ & Hall).
  assert (Hopen : open_file fuel (Some source) (new_file, w)
    = (Ret tt,
       (set_channels (catalog (Some h) n written)
          (set_closed false
             (set_info i2 (set_info i1 (set_info zero_info
                (set_reader_handle (Some h) new_file))))),
        {| lib := s4;
           trace := (((((trace w ++ [existT _ DWICreateReader])
             ++ [existT _ (DWIOpenDataFile h source)])
             ++ [existT _ (DWIGetMeasurementInfo h)])
             ++ [existT _ (DWIGetChannelListCount h)])
             ++ [existT _ (DWIGetChannelList h)]) |}))).
  { unfold open_file, DWFile_init. step_native E0. step_ok. step_ok.
    destruct (String.eqb_spec source "") as [->|_]; [contradiction|].
    erewrite (open_body_run fuel source _ _ s1 i1 s2 i2 s3 n s4 written);
      [reflexivity|exact E1|exact E2|exact E3|exact Hn|exact E4|exact Hfit]. }
  eexists _, _, _, _. split; [exact Hopen|].
  split; [reflexivity|]. split; [reflexivity|]. split; [reflexivity|].
  split; [exact Hlen|]. split; [exact Hall|].
  split; [cbn [trace]; rewrite <- !app_assoc; reflexivity|].
  split; [reflexivity|]. split; [reflexivity|].
  intros o f2 w2 Hbody Hd Hf.
  destruct (close_run f2 w2) as (f3 & w3 & calls & Hclose & Hc & Htr & Hr & _).
  exists f3, w3, calls. split; [|auto].
  unfold with_open_file. erewrite bind_Ret by exact Hopen.
  unfold with_session, finally, DWFile_exit. rewrite Hbody.
  destruct o; try contradiction; rewrite Hclose; reflexivity.
Qed.

Lemma with_open_file_session_witness :
  exists f3 w3 calls,
    @with_open_file RefLib Z 4 (Some "demo.d7d")
      (lift (@number_of_samples RefLib 4 demo_ch1))
      (new_file, ref_world (demo_file "") None)
    = (Ret 3, (f3, w3))
    /\ closed f3 = true
    /\ released calls = 1%nat.
Proof.
  edestruct (@with_open_file_session RefLib Z 4 "demo.d7d"
               (lift (@number_of_samples RefLib 4 demo_ch1))
               (ref_world (demo_file "") None) 4096)
    as (f1 & w1 & chs & calls1 & Hopen & _ & _ & _ & _ & _ & _ & _ & _
        & Hwith);
    [discriminate|reflexivity|reflexivity|reflexivity|reflexivity|lia
    |reflexivity|cbn; lia|].
  injection Hopen as <- <-.
  edestruct Hwith as (f3 & w3 & calls & Hrun & Hc & _ & Hr);
    [vm_compute; reflexivity|discriminate|discriminate|].
  exists f3, w3, calls. split; [exact Hrun|]. split; [exact Hc|exact Hr].
Defined.

(** ** Channel properties and axes *)

(** X12: the two-phase string fetch.  The length the store reports for the
    length property is the size of the buffer handed to the second query,
    and the text left there is returned with its trailing NULs removed;
    exactly these two queries are made.  A negative length raises
    [ValueError] after the first. *)
Theorem chan_prop_str_two_phase `{Library} (fuel : nat) (self : DWChannel)
    (chan_prop chan_prop_len : DWChannelProps) (w : world)
    (s1 s2 : lib_state) (len : Z) (st2 : Z) (p_buff : string) :
  lib_call _ (DWIGetChannelProps (c_arg (reader_handle self))
                (index (base self)) chan_prop_len IntBuf) (lib w)
    = (s1, (0, len)) ->
  lib_call _ (DWIGetChannelProps (c_arg (reader_handle self))
                (index (base self)) chan_prop (StrBuf len)) s1
    = (s2, (st2, p_buff)) ->
  (len < 0 ->
     exists msg,
       _chan_prop_str fuel self chan_prop chan_prop_len w
       = (Raise (ValueError msg),
          {| lib := s1;
             trace := trace w ++
               [existT _ (DWIGetChannelProps (c_arg (reader_handle self))
                            (index (base self)) chan_prop_len IntBuf)] |}))
  /\ (0 <= len -> st2 = 0 ->
        _chan_prop_str fuel self chan_prop chan_prop_len w
        = (Ret (decode_bytes p_buff),
           {| lib := s2;
              trace := (trace w ++
                [existT _ (DWIGetChannelProps (c_arg (reader_handle self))
                             (index (base self)) chan_prop_len IntBuf)])
                ++ [existT _ (DWIGetChannelProps (c_arg (reader_handle self))
                                (index (base self)) chan_prop
                                (StrBuf len))] |})).
Proof.
  intros E1 E2.
  assert (Hint : _chan_prop_int fuel self chan_prop_len w
                 = (Ret len,
                    {| lib := s1;
                       trace := trace w ++
                         [existT _ (DWIGetChannelProps
                                      (c_arg (reader_handle self))
                                      (index (base self)) chan_prop_len
                                      IntBuf)] |})).
  { unfold _chan_prop_int. step_native E1. step_ok. reflexivity. }
  split.
  - intros Hneg. eexists. unfold _chan_prop_str.
    erewrite bind_Ret by exact Hint.
    assert (Hlt : (len <? 0) = true) by lia. rewrite Hlt. reflexivity.
  - intros Hpos ->. unfold _chan_prop_str.
    erewrite bind_Ret by exact Hint.
    assert (Hlt : (len <? 0) = false) by lia. rewrite Hlt.
    erewrite bind_Ret by reflexivity. cbv beta.
    step_native E2. step_ok. reflexivity.
Qed.

Lemma chan_prop_str_two_phase_witness :
  (@channel_xml RefLib 4 demo_ch1 (demo_open doc_labels None).2.2).1
  = Ret doc_labels.
Proof.
  edestruct (@chan_prop_str_two_phase RefLib 4 demo_ch1 DW_CH_XML
               DW_CH_XML_LEN (demo_open doc_labels None).2.2)
    as [_ Hok]; [reflexivity|reflexivity|].
  unfold channel_xml. rewrite Hok; [reflexivity|lia|reflexivity].
Defined.

(** X13: the axes of an array channel.  For a channel with
    [array_size >= 2], when the store reports [n >= 1] axes and writes at
    most [n] structures, [array_info] returns exactly [n] axes in the
    store's order, each attached to this very channel.  A count below one
    raises [IndexError]; more structures than counted overrun the buffer. *)
Theorem array_info_axes `{Library} (fuel : nat) (self : DWChannel)
    (w : world) (s1 s2 : lib_state) (n : Z)
    (written : list DWArrayInfoStruct) :
  2 <= array_size (base self) ->
  lib_call _ (DWIGetArrayInfoCount (c_arg (reader_handle self))
                (index (base self))) (lib w) = (s1, (0, n)) ->
  lib_call _ (DWIGetArrayInfoList (c_arg (reader_handle self))
                (index (base self))) s1 = (s2, (0, written)) ->
  (n < 1 -> exists msg w', array_info fuel self w = (Raise (IndexError msg), w'))
  /\ (1 <= n -> (Z.to_nat n < length written)%nat ->
        exists w', array_info fuel self w = (Fault, w'))
  /\ (1 <= n -> (length written <= Z.to_nat n)%nat ->
        exists axes w',
          array_info fuel self w = (Ret axes, w')
          /\ length axes = Z.to_nat n
          /\ ax_base <$> axes
             = written ++ replicate (Z.to_nat n - length written)
                            zero_array_struct
          /\ Forall (fun ax => channel ax = self) axes
          /\ lib w' = s2).
Proof.
  intros Hsize E1 E2.
  assert (Hbig : (array_size (base self) <? 2) = false) by lia.
  split; [|split].
  - intros Hn. eexists _, _. unfold array_info. rewrite Hbig.
    step_native E1. step_ok.
    assert (Hlt : (n <? 1) = true) by lia. rewrite Hlt. reflexivity.
  - intros Hn Hover. eexists. unfold array_info. rewrite Hbig.
    step_native E1. step_ok.
    assert (Hlt : (n <? 1) = false) by lia. rewrite Hlt. cbv zeta.
    step_native E2. unfold bind, poke_M, poke.
    rewrite length_replicate.
    destruct (Nat.leb_spec (length written) (Z.to_nat n)); [lia|].
    reflexivity.
  - intros Hn Hfit. eexists _, _. split.
    { unfold array_info. rewrite Hbig.
      step_native E1. step_ok.
      assert (Hlt : (n <? 1) = false) by lia. rewrite Hlt. cbv zeta.
      step_native E2.
      erewrite bind_Ret
        by (apply poke_M_ok; rewrite length_replicate; exact Hfit).
      cbv beta. step_ok. reflexivity. }
    rewrite drop_replicate. split; [|split; [|split]].
    + rewrite length_fmap, length_app, length_replicate. lia.
    + rewrite <- list_fmap_compose.
      rewrite (list_fmap_ext _ id _) by reflexivity. apply list_fmap_id.
    + apply Forall_fmap, Forall_forall. intros ax _. reflexivity.
    + reflexivity.
Qed.

Lemma array_info_axes_witness :
  exists axes w',
    @array_info RefLib 4 demo_ch1 (demo_open "" None).2.2 = (Ret axes, w')
    /\ length axes = Z.to_nat 1
    /\ Forall (fun ax => channel ax = demo_ch1) axes.
Proof.
  edestruct (@array_info_axes RefLib 4 demo_ch1 (demo_open "" None).2.2)
    as (_ & _ & Hok); [change (2 <= 2); lia|reflexivity|reflexivity|].
  destruct Hok as (axes & w' & Hrun & Hlen & _ & Hall & _);
    [vm_compute; discriminate|vm_compute; lia|].
  exists axes, w'. auto.
Defined.

(** ** Bulk reads *)

Lemma bind_inv {St A B} (m : M St A) (k : A -> M St B) s b s' :
  bind m k s = (Ret b, s') ->
  exists a s1, m s = (Ret a, s1) /\ k a s1 = (Ret b, s').
Proof.
  unfold bind. destruct (m s) as [[a| | |] s1]; try discriminate. eauto.
Qed.

Lemma check_lib_status_inv `{Library} fuel status (w : world) r w' :
  check_lib_status fuel status w = (Ret r, w') -> status = 0 /\ w' = w.
Proof.
  intros Hrun. pose proof (check_lib_status_not_ret _ _ _ _ _ Hrun) as ->.
  rewrite check_lib_status_ok in Hrun. injection Hrun as _ <-. auto.
Qed.

Lemma poke_M_inv {St A} (buf written b : list A) (s s' : St) :
  poke_M buf written s = (Ret b, s') ->
  s' = s /\ length b = length buf
  /\ b = written ++ drop (length written) buf.
Proof.
  unfold poke_M, poke.
  destruct (Nat.leb_spec (length written) (length buf)); [|discriminate].
  intros [= <- <-]. rewrite length_app, length_drop. repeat split. lia.
Qed.

Lemma np_zeros_inv {St} (n : Z) (b : list Z) (s s' : St) :
  np_zeros n s = (Ret b, s') ->
  0 <= n /\ b = replicate (Z.to_nat n) 0 /\ s' = s.
Proof.
  unfold np_zeros. destruct (Z.ltb_spec n 0); [discriminate|].
  intros [= <- <-]. auto.
Qed.

Lemma number_of_samples_inv `{Library} fuel self (w : world) count w' :
  number_of_samples fuel self w = (Ret count, w') ->
  (lib_call _ (DWIGetScaledSamplesCount (c_arg (reader_handle self))
                 (index (base self))) (lib w)).2 = (0, count).
Proof.
  unfold number_of_samples. intros Hrun.
  apply bind_inv in Hrun as ([st c] & w1 & Hnat & Hrest).
  rewrite native_run in Hnat. injection Hnat as Hr _.
  apply bind_inv in Hrest as ([] & w2 & Hchk & Hret).
  apply check_lib_status_inv in Hchk as [-> ->].
  injection Hret as -> _. exact Hr.
Qed.

(** X14: the sizes of what [scaled] returns.  Whenever [scaled] returns,
    on any library, the array index was in range, the store had answered the
    first count query with OK and a count [>= 0], and the two arrays have
    the sizes of the buffers allocated from that count: [count] timestamps
    and [count * array_size] values, whatever the store wrote into them. *)
Theorem scaled_sizes `{Library} (fuel : nat) (self : DWChannel) (ai : Z)
    (w w' : world) (t d : list Z) :
  scaled fuel self ai w = (Ret (t, d), w') ->
  0 <= ai < array_size (base self)
  /\ exists count,
       (lib_call _ (DWIGetScaledSamplesCount (c_arg (reader_handle self))
                      (index (base self))) (lib w)).2 = (0, count)
       /\ 0 <= count
       /\ length t = Z.to_nat count
       /\ length d = Z.to_nat (count * array_size (base self)).
Proof.
  unfold scaled. intros Hrun.
  destruct ((0 <=? ai) && (ai <? array_size (base self))) eqn:Hin;
    cbn [negb] in Hrun; [|discriminate].
  split; [lia|].
  apply bind_inv in Hrun as (count & w1 & Hcount & Hrun).
  apply bind_inv in Hrun as (data & w2 & Hdata & Hrun).
  apply bind_inv in Hrun as (time & w3 & Htime & Hrun).
  apply bind_inv in Hrun as (n & w4 & _ & Hrun).
  apply bind_inv in Hrun as ([st [wdata wtime]] & w5 & _ & Hrun).
  apply bind_inv in Hrun as (data' & w6 & Hpd & Hrun).
  apply bind_inv in Hrun as (time' & w7 & Hpt & Hrun).
  apply bind_inv in Hrun as ([] & w8 & _ & Hret).
  injection Hret as -> -> _.
  apply np_zeros_inv in Hdata as (_ & -> & _).
  apply np_zeros_inv in Htime as (Hpos & -> & _).
  apply poke_M_inv in Hpd as (_ & Hld & _).
  apply poke_M_inv in Hpt as (_ & Hlt & _).
  rewrite length_replicate in Hld, Hlt.
  exists count. split; [eapply number_of_samples_inv, Hcount|]. auto.
Qed.

Lemma scaled_sizes_witness :
  exists t d w',
    @scaled RefLib 4 demo_ch1 0 (demo_open "" None).2.2 = (Ret (t, d), w')
    /\ length t = Z.to_nat 3
    /\ length d = Z.to_nat (3 * 2).
Proof.
  eexists _, _, _. split; [vm_compute; reflexivity|].
  edestruct (@scaled_sizes RefLib 4 demo_ch1 0 (demo_open "" None).2.2)
    as (_ & count & Hc & _ & Ht & Hd); [vm_compute; reflexivity|].
  injection Hc as <-. split; [exact Ht|exact Hd].
Defined.

(** X15: the array index given to [scaled] only passes the range check: for
    any two indices in range the call is the same, data and native calls
    alike. *)
Theorem scaled_array_index_irrelevant `{Library} (fuel : nat)
    (self : DWChannel) (ai aj : Z) (w : world) :
  0 <= ai < array_size (base self) ->
  0 <= aj < array_size (base self) ->
  scaled fuel self ai w = scaled fuel self aj w.
Proof.
  intros Hi Hj. unfold scaled.
  assert (Hini : (0 <=? ai) && (ai <? array_size (base self)) = true) by lia.
  assert (Hinj : (0 <=? aj) && (aj <? array_size (base self)) = true) by lia.
  rewrite Hini, Hinj. reflexivity.
Qed.

Lemma scaled_array_index_irrelevant_witness :
  @scaled RefLib 4 demo_ch1 0 (demo_open "" None).2.2
  = @scaled RefLib 4 demo_ch1 1 (demo_open "" None).2.2.
Proof.
  apply (@scaled_array_index_irrelevant RefLib 4 demo_ch1 0 1);
    change (array_size (base demo_ch1)) with 2; lia.
Defined.

Lemma np_zeros_neg {St} (n : Z) (s : St) :
  n < 0 ->
  np_zeros n s
  = (Raise (ValueError "negative dimensions are not allowed"), s).
Proof.
  intros Hn. unfold np_zeros.
  destruct (Z.ltb_spec n 0); [reflexivity|lia].
Qed.

Lemma scaled_run_inv `{Library} fuel Inv ch ai rows (w : world) :
  serves_samples Inv (c_arg (reader_handle ch)) (index (base ch)) rows ->
  Forall (fun r => Z.of_nat (length r.2) = array_size (base ch)) rows ->
  0 <= ai < array_size (base ch) ->
  Inv (lib w) ->
  exists w', scaled fuel ch ai w = (Ret (rows.*1, concat rows.*2), w')
             /\ Inv (lib w').
Proof.
  intros Hserve Hrows Hai Hinv.
  destruct (number_of_samples_run fuel Inv ch rows w Hserve Hinv)
    as (w1 & Hn1 & Hinv1 & _).
  destruct (number_of_samples_run fuel Inv ch rows w1 Hserve Hinv1)
    as (w2 & Hn2 & Hinv2 & _).
  destruct Hserve as [_ Hwin].
  destruct (Hwin (lib w2) 0 (Z.of_nat (length rows)) Hinv2)
    as (s3 & E & Hinv3); [lia|lia|lia|].
  assert (Hall : window 0 (Z.of_nat (length rows)) rows = rows).
  { unfold window. rewrite Nat2Z.id. cbn. apply firstn_all. }
  rewrite Hall in E.
  assert (Hflat : length (concat rows.*2)
                  = (length rows * Z.to_nat (array_size (base ch)))%nat).
  { apply flat_length. eapply Forall_impl; [exact Hrows|]. cbn. intros; lia. }
  eexists. split.
  - unfold scaled.
    assert (Hin : (0 <=? ai) && (ai <? array_size (base ch)) = true) by lia.
    rewrite Hin. cbn [negb].
    erewrite bind_Ret by exact Hn1.
    erewrite bind_Ret by (apply np_zeros_ok; nia).
    erewrite bind_Ret by (apply np_zeros_ok; lia).
    erewrite bind_Ret by exact Hn2.
    step_native E.
    erewrite bind_Ret
      by (apply poke_M_ok; rewrite length_replicate, Hflat; lia).
    erewrite bind_Ret
      by (apply poke_M_ok; rewrite length_replicate, length_fmap; lia).
    step_ok.
    rewrite !drop_ge
      by (rewrite length_replicate, ?length_fmap, ?Hflat; lia).
    rewrite !app_nil_r. reflexivity.
  - exact Hinv3.
Qed.

Lemma ref_serves_channel (c : RefChannel) (pos : nat) :
  rf_channels (demo_file "") !! pos = Some c ->
  index (rc_struct c) = Z.of_nat pos ->
  @serves_samples RefLib (fun s => s = @lib RefLib (demo_open "" None).2.2)
    4096 (index (rc_struct c)) (rc_samples c).
Proof.
  intros Hc Hidx.
  assert (Hfind : list_find
            (fun c' => bool_decide (index (rc_struct c')
                                    = index (rc_struct c)))
            (rf_channels (demo_file "")) = Some (pos, c)).
  { destruct pos as [|[|pos]]; cbn in Hc; [| |discriminate];
      injection Hc as <-; reflexivity. }
  split.
  - intros s ->. eexists. split; [|reflexivity].
    change (@lib_call RefLib) with ref_call.
    unfold ref_call, ref_on_channel, ref_on_file.
    change (ref_reader (@lib RefLib (demo_open "" None).2.2) 4096)
      with (Some true).
    cbv beta iota.
    change (rs_file (@lib RefLib (demo_open "" None).2.2))
      with (demo_file "").
    rewrite Hfind. reflexivity.
  - intros s p n -> Hp Hn Hfit. eexists. split; [|reflexivity].
    change (@lib_call RefLib) with ref_call.
    unfold ref_call, ref_on_channel, ref_on_file.
    change (ref_reader (@lib RefLib (demo_open "" None).2.2) 4096)
      with (Some true).
    cbv beta iota.
    change (rs_file (@lib RefLib (demo_open "" None).2.2))
      with (demo_file "").
    rewrite Hfind.
    assert (Hin : ref_in_range p n (rc_samples c) = true).
    { unfold ref_in_range.
      apply andb_true_intro; split; [apply andb_true_intro; split|];
        apply Z.leb_le; assumption. }
    rewrite Hin. reflexivity.
Qed.

(** X16: [series] of a scalar channel returns every sample the store
    serves, in the store's order: the index is the full timestamp sequence,
    repeated timestamps included, and the values are the full value
    sequence. *)
Theorem series_keeps_every_sample `{Library} (fuel : nat)
    (Inv : lib_state -> Prop) (ch : DWChannel) (rows : list (Z * list Z))
    (w : world) :
  serves_samples Inv (c_arg (reader_handle ch)) (index (base ch)) rows ->
  Inv (lib w) ->
  Forall (fun r => Z.of_nat (length r.2) = array_size (base ch)) rows ->
  array_size (base ch) = 1 ->
  exists w',
    series fuel ch w
    = (Ret {| ps_index := rows.*1; ps_values := concat rows.*2;
              ps_name := None |}, w')
    /\ length (concat rows.*2) = length rows.
Proof.
  intros Hserve Hinv Hrows Ha.
  destruct (scaled_run_inv fuel Inv ch 0 rows w Hserve Hrows ltac:(lia) Hinv)
    as (w' & Hscaled & _).
  assert (Hflat : length (concat rows.*2) = length rows).
  { rewrite (flat_length 1); [lia|].
    eapply Forall_impl; [exact Hrows|]. cbn. intros; lia. }
  exists w'. split; [|exact Hflat].
  unfold series. erewrite bind_Ret by exact Hscaled. cbv beta iota.
  unfold pd_Series. rewrite Hflat, length_fmap, Nat.eqb_refl. reflexivity.
Qed.

Lemma series_keeps_every_sample_witness :
  exists w',
    @series RefLib 4 demo_ch0 (demo_open "" None).2.2
    = (Ret {| ps_index := [0; 1; 2; 3; 4];
              ps_values := [10; 11; 12; 13; 14]; ps_name := None |}, w').
Proof.
  edestruct (@series_keeps_every_sample RefLib 4
               (fun s => s = @lib RefLib (demo_open "" None).2.2)
               demo_ch0 (rc_samples demo_scalar) (demo_open "" None).2.2)
    as (w' & Hrun & _).
  - exact (ref_serves_channel demo_scalar 0 eq_refl eq_refl).
  - reflexivity.
  - repeat constructor.
  - reflexivity.
  - exists w'. exact Hrun.
Defined.

(** X17: [series] of an array channel that has samples fails: [scaled]
    returns [array_size] values per timestamp, and [pd.Series] refuses
    values and index of different lengths with [ValueError]. *)
Theorem series_of_array_channel_raises `{Library} (fuel : nat)
    (Inv : lib_state -> Prop) (ch : DWChannel) (rows : list (Z * list Z))
    (w : world) :
  serves_samples Inv (c_arg (reader_handle ch)) (index (base ch)) rows ->
  Inv (lib w) ->
  Forall (fun r => Z.of_nat (length r.2) = array_size (base ch)) rows ->
  2 <= array_size (base ch) ->
  rows <> [] ->
  exists msg w', series fuel ch w = (Raise (ValueError msg), w').
Proof.
  intros Hserve Hinv Hrows Ha Hne.
  destruct (scaled_run_inv fuel Inv ch 0 rows w Hserve Hrows ltac:(lia) Hinv)
    as (w' & Hscaled & _).
  assert (Hflat : length (concat rows.*2)
                  = (length rows * Z.to_nat (array_size (base ch)))%nat).
  { apply flat_length. eapply Forall_impl; [exact Hrows|]. cbn. intros; lia. }
  assert (Hpos : (0 < length rows)%nat).
  { destruct rows; [contradiction|cbn; lia]. }
  eexists _, w'.
  unfold series. erewrite bind_Ret by exact Hscaled. cbv beta iota.
  unfold pd_Series. rewrite Hflat, length_fmap.
  destruct (Nat.eqb_spec (length rows * Z.to_nat (array_size (base ch)))
              (length rows)); [nia|reflexivity].
Qed.

Lemma series_of_array_channel_raises_witness :
  exists msg w',
    @series RefLib 4 demo_ch1 (demo_open "" None).2.2
    = (Raise (ValueError msg), w').
Proof.
  apply (@series_of_array_channel_raises RefLib 4
           (fun s => s = @lib RefLib (demo_open "" None).2.2)
           demo_ch1 (rc_samples (demo_array ""))).
  - exact (ref_serves_channel (demo_array "") 1 eq_refl eq_refl).
  - reflexivity.
  - repeat constructor.
  - change (2 <= 2). lia.
  - discriminate.
Defined.

(** ** Chunked reads at the edges *)

(** X18: [series_generator] yields nothing and raises [ValueError] when the
    channel has no samples or the chunk size is not positive: the clipped
    chunk size is then zero, which [range] refuses as a step, or negative,
    which [np.zeros] refuses as a size.  Only the count query is made. *)
Theorem series_generator_degenerate `{Library} (fuel : nat) (ch : DWChannel)
    (cs ai count : Z) (ys : list Series) (w : world) (s1 : lib_state) :
  lib_call _ (DWIGetScaledSamplesCount (c_arg (reader_handle ch))
                (index (base ch))) (lib w) = (s1, (0, count)) ->
  count <= 0 \/ cs <= 0 ->
  exists msg,
    series_generator fuel ch cs ai (ys, w)
    = (Raise (ValueError msg),
       (ys, {| lib := s1;
               trace := trace w ++
                 [existT _ (DWIGetScaledSamplesCount
                              (c_arg (reader_handle ch))
                              (index (base ch)))] |})).
Proof.
  intros E Hdeg.
  assert (Hn : number_of_samples fuel ch w
               = (Ret count,
                  {| lib := s1;
                     trace := trace w ++
                       [existT _ (DWIGetScaledSamplesCount
                                    (c_arg (reader_handle ch))
                                    (index (base ch)))] |})).
  { unfold number_of_samples. step_native E. step_ok. reflexivity. }
  unfold series_generator.
  erewrite bind_Ret by (eapply lift_eq; exact Hn). cbv zeta.
  set (c := Z.min cs count). assert (Hc : c <= 0) by (subst c; lia).
  destruct (Z.lt_ge_cases (c * array_size (base ch)) 0).
  - eexists. erewrite bind_Raise; [reflexivity|]. apply np_zeros_neg. lia.
  - erewrite bind_Ret by (apply np_zeros_ok; lia). cbv beta.
    destruct (Z.lt_ge_cases c 0).
    + eexists. erewrite bind_Raise; [reflexivity|]. apply np_zeros_neg. lia.
    + erewrite bind_Ret by (apply np_zeros_ok; lia). cbv beta.
      assert (Hz : (c =? 0) = true) by lia. rewrite Hz.
      eexists. reflexivity.
Qed.

Lemma series_generator_degenerate_witness :
  exists msg w',
    @series_generator RefLib 4 demo_ch0 0 0 ([], (demo_open "" None).2.2)
    = (Raise (ValueError msg), ([], w')).
Proof.
  edestruct (@series_generator_degenerate RefLib 4 demo_ch0 0 0 5 []
               (demo_open "" None).2.2) as [msg Hrun];
    [reflexivity|right; lia|].
  exists msg. eexists. exact Hrun.
Defined.

(** X19: a chunk size above the sample count is clipped to it: the
    generator then behaves exactly as with the count itself as chunk
    size. *)
Theorem series_generator_clips_chunk_size `{Library} (fuel : nat)
    (ch : DWChannel) (cs ai count : Z) (ys : list Series) (w : world)
    (s1 : lib_state) :
  lib_call _ (DWIGetScaledSamplesCount (c_arg (reader_handle ch))
                (index (base ch))) (lib w) = (s1, (0, count)) ->
  count <= cs ->
  series_generator fuel ch cs ai (ys, w)
  = series_generator fuel ch count ai (ys, w).
Proof.
  intros E Hbig.
  assert (Hn : number_of_samples fuel ch w
               = (Ret count,
                  {| lib := s1;
                     trace := trace w ++
                       [existT _ (DWIGetScaledSamplesCount
                                    (c_arg (reader_handle ch))
                                    (index (base ch)))] |})).
  { unfold number_of_samples. step_native E. step_ok. reflexivity. }
  unfold series_generator.
  erewrite bind_Ret by (eapply lift_eq; exact Hn). cbv zeta.
  rewrite (Z.min_r cs count) by lia. symmetry.
  erewrite bind_Ret by (eapply lift_eq; exact Hn). cbv zeta.
  rewrite (Z.min_r count count) by lia. reflexivity.
Qed.

Lemma series_generator_clips_chunk_size_witness :
  @series_generator RefLib 4 demo_ch0 100 0 ([], (demo_open "" None).2.2)
  = @series_generator RefLib 4 demo_ch0 5 0 ([], (demo_open "" None).2.2).
Proof.
  eapply (@series_generator_clips_chunk_size RefLib 4 demo_ch0 100 0 5);
    [reflexivity|lia].
Defined.

(** ** Reduced values *)

(** X20: [reduced] asks for as many records as the store counted, from
    record 0 on, and returns exactly that many: what the store wrote, in its
    order, zero-filled where it wrote fewer.  A negative count raises
    [ValueError] before the second query. *)
Theorem reduced_returns_counted_records `{Library} (fuel : nat)
    (self : DWChannel) (w : world) (s1 s2 : lib_state) (count block : Z)
    (written : list DWReducedValue) :
  lib_call _ (DWIGetReducedValuesCount (c_arg (reader_handle self))
                (index (base self))) (lib w) = (s1, (0, (count, block))) ->
  lib_call _ (DWIGetReducedValues (c_arg (reader_handle self))
                (index (base self)) 0 count) s1 = (s2, (0, written)) ->
  (count < 0 -> exists msg w', reduced fuel self w = (Raise (ValueError msg), w'))
  /\ (0 <= count -> (length written <= Z.to_nat count)%nat ->
        exists data w',
          reduced fuel self w = (Ret data, w')
          /\ length data = Z.to_nat count
          /\ take (length written) data = written
          /\ lib w' = s2).
Proof.
  intros E1 E2. split.
  - intros Hneg. eexists _, _. unfold reduced.
    step_native E1. step_ok.
    assert (Hlt : (count <? 0) = true) by lia. rewrite Hlt. reflexivity.
  - intros Hpos Hfit. eexists _, _. split.
    { unfold reduced. step_native E1. step_ok.
      assert (Hlt : (count <? 0) = false) by lia. rewrite Hlt.
      erewrite bind_Ret by reflexivity. cbv beta zeta.
      step_native E2.
      erewrite bind_Ret
        by (apply poke_M_ok; rewrite length_replicate; exact Hfit).
      cbv beta. step_ok. reflexivity. }
    split; [|split].
    + rewrite length_app, length_drop, length_replicate. lia.
    + apply take_app_length.
    + reflexivity.
Qed.

Lemma reduced_returns_counted_records_witness :
  exists data w',
    @reduced RefLib 4 demo_ch0 reduced_open.2.2 = (Ret data, w')
    /\ length data = Z.to_nat 1.
Proof.
  edestruct (@reduced_returns_counted_records RefLib 4 demo_ch0
               reduced_open.2.2) as [_ Hok]; [reflexivity|reflexivity|].
  destruct Hok as (data & w' & Hrun & Hlen & _);
    [vm_compute; discriminate|vm_compute; lia|].
  exists data, w'. auto.
Defined.

(** ** The table of one channel *)

Lemma flat_take_drop (a : nat) (rows : list (Z * list Z)) :
  Forall (fun r => length r.2 = a) rows ->
  forall i r, rows !! i = Some r ->
  take a (drop (i * a) (concat rows.*2)) = r.2.
Proof.
  induction 1 as [|r0 rows Hr0 _ IH]; intros i r Hi; [discriminate|].
  cbn [fmap list_fmap concat]. destruct i as [|i]; cbn in Hi.
  - injection Hi as ->. cbn. apply take_app_length'. lia.
  - replace (S i * a)%nat with (length r0.2 + i * a)%nat by (cbn; lia).
    rewrite drop_app_add. apply IH, Hi.
Qed.

Lemma rows_of_concat (a : nat) (rows : list (Z * list Z)) :
  Forall (fun r => length r.2 = a) rows ->
  rows_of (concat rows.*2) (length rows) a = rows.*2.
Proof.
  intros Hrows. apply list_eq. intros i. unfold rows_of.
  rewrite !list_lookup_fmap.
  destruct (rows !! i) as [r|] eqn:Hi.
  - rewrite lookup_seq_lt by (eapply lookup_lt_Some, Hi). cbn.
    f_equal. eapply flat_take_drop; eauto.
  - rewrite lookup_seq_ge by (apply lookup_ge_None, Hi). reflexivity.
Qed.

Lemma unique_from_values (ar : list Z) :
  forall i v, v ∈ (unique_from i ar).*1 <-> v ∈ ar.
Proof.
  induction ar as [|t ar IH]; intros i v; cbn.
  - reflexivity.
  - rewrite insert_first_fst, IH, elem_of_cons. reflexivity.
Qed.

Lemma unique_from_rows (rows : list (Z * list Z)) (t : Z) (j : nat) :
  (t, j) ∈ unique_from 0 rows.*1 ->
  exists row, rows !! j = Some (t, row)
              /\ forall k, (k < j)%nat -> rows.*1 !! k <> Some t.
Proof.
  intros Hin. apply unique_from_elem in Hin as (k & -> & Hk & Hfirst).
  rewrite list_lookup_fmap in Hk.
  destruct (rows !! k) as [[t' row]|] eqn:Hr; [|discriminate].
  injection Hk as ->. exists row. auto.
Qed.

(** X21: the table of a scalar channel.  On a store that serves the
    samples, [dataframe] returns one column named after the channel; its
    index is strictly increasing and holds exactly the distinct timestamps;
    and each row is the sample at the first occurrence of its timestamp, so
    later samples with a repeated timestamp are left out. *)
Theorem dataframe_of_scalar_channel `{Library} `{XmlParser} (fuel : nat)
    (Inv : lib_state -> Prop) (ch : DWChannel) (rows : list (Z * list Z))
    (w : world) :
  serves_samples Inv (c_arg (reader_handle ch)) (index (base ch)) rows ->
  Inv (lib w) ->
  Forall (fun r => Z.of_nat (length r.2) = array_size (base ch)) rows ->
  array_size (base ch) = 1 ->
  exists df w',
    dataframe fuel ch w = (Ret df, w')
    /\ df_columns df = [name ch]
    /\ StronglySorted Z.lt (df_index df)
    /\ (forall t, t ∈ df_index df <-> t ∈ rows.*1)
    /\ Forall2 (fun t row =>
                  exists j, rows !! j = Some (t, row)
                            /\ forall k, (k < j)%nat ->
                                 rows.*1 !! k <> Some t)
               (df_index df) (df_values df).
Proof.
  intros Hserve Hinv Hrows Ha.
  destruct (scaled_run_inv fuel Inv ch 0 rows w Hserve Hrows ltac:(lia) Hinv)
    as (w1 & Hscaled & Hinv1).
  destruct (number_of_samples_run fuel Inv ch rows w1 Hserve Hinv1)
    as (w2 & Hn & _ & _).
  assert (Hrows1 : Forall (fun r : Z * list Z => length r.2 = 1%nat) rows).
  { eapply Forall_impl; [exact Hrows|]. cbn. intros; lia. }
  assert (Hflat : length (concat rows.*2) = length rows).
  { rewrite (flat_length 1 rows Hrows1). lia. }
  set (s := unique_from 0 rows.*1).
  set (picked := (fun p : Z * nat => default [] (rows.*2 !! p.2)) <$> s).
  assert (Hpick : mapM (fun i => rows.*2 !! i) s.*2 = Some picked).
  { apply mapM_Some. unfold picked. apply Forall2_fmap.
    apply Forall_Forall2_diag, Forall_forall. intros [t j] Hin.
    apply unique_from_rows in Hin as (row & Hj & _). cbn.
    rewrite list_lookup_fmap, Hj. reflexivity. }
  exists {| df_index := s.*1; df_columns := [name ch];
            df_values := picked |}, w2.
  split; [|split; [reflexivity|split; [|split]]].
  - unfold dataframe. erewrite bind_Ret by exact Hscaled. cbv beta iota.
    rewrite Ha. cbn [Z.eqb Pos.eqb].
    erewrite bind_Ret by reflexivity. cbv beta.
    change (np_unique rows.*1) with (s.*1, s.*2). cbv beta iota.
    erewrite bind_Ret by exact Hn.
    erewrite bind_Ret; cycle 1.
    { unfold np_reshape. cbv zeta.
      assert (Hn1 : (Z.of_nat (length rows) =? -1) = false) by lia.
      rewrite Hn1. cbn [andb Z.eqb].
      assert (Hshape : (Z.of_nat (length rows) <? 0) || (1 <? 0)
                       || negb (Z.of_nat (length rows) * 1
                                =? Z.of_nat (length (concat rows.*2)))
                       = false).
      { rewrite Hflat. lia. }
      rewrite Hshape. reflexivity. }
    cbv beta iota. rewrite Nat2Z.id.
    change (Z.to_nat 1) with 1%nat.
    rewrite (rows_of_concat 1 rows Hrows1).
    unfold pick_rows. rewrite Hpick.
    erewrite bind_Ret by reflexivity.
    unfold pd_DataFrame, picked. rewrite !length_fmap, Nat.eqb_refl.
    reflexivity.
  - apply unique_from_sorted.
  - intros t. apply unique_from_values.
  - cbn. unfold picked. apply Forall2_fmap.
    apply Forall_Forall2_diag, Forall_forall. intros [t j] Hin.
    apply unique_from_rows in Hin as (row & Hj & Hfirst). cbn.
    exists j. rewrite list_lookup_fmap, Hj. cbn. auto.
Qed.

Lemma dataframe_of_scalar_channel_witness :
  exists df w',
    @dataframe RefLib RefXml 4 demo_ch0 (demo_open "" None).2.2
    = (Ret df, w')
    /\ df_columns df = ["AI 1"]
    /\ StronglySorted Z.lt (df_index df).
Proof.
  edestruct (@dataframe_of_scalar_channel RefLib RefXml 4
               (fun s => s = @lib RefLib (demo_open "" None).2.2)
               demo_ch0 (rc_samples demo_scalar) (demo_open "" None).2.2)
    as (df & w' & Hrun & Hcols & Hsorted & _).
  - exact (ref_serves_channel demo_scalar 0 eq_refl eq_refl).
  - reflexivity.
  - repeat constructor.
  - reflexivity.
  - exists df, w'. auto.
Defined.

(** ** Events *)

Lemma native_event_eq `{EventLibrary} {R} (c : event_call R) (w : world)
    s1 r :
  lib_event_call R c (lib w) = (s1, r) ->
  native_event c w = (Ret r, {| lib := s1; trace := trace w |}).
Proof. intros Hc. unfold native_event. rewrite Hc. reflexivity. Qed.

(** X22: [events] returns one row per counted event, in the store's
    order, with every text decoded (trailing NULs removed); the three
    columns have the counted length.  With a count of zero the list is not
    queried at all and the frame is empty; a negative count raises
    [ValueError]. *)
Theorem events_rows `{EventLibrary} (fuel : nat) (self : DWFile) (w : world)
    (s1 s2 : lib_state) (n : Z) (written : list DWEvent) :
  lib_event_call _ (DWIGetEventListCount (c_arg (f_reader_handle self)))
    (lib w) = (s1, (0, n)) ->
  lib_event_call _ (DWIGetEventList (c_arg (f_reader_handle self))) s1
    = (s2, (0, written)) ->
  (n = 0 ->
     events fuel (self, w)
     = (Ret {| ef_index := []; ef_type := []; ef_text := [] |},
        (self, {| lib := s1; trace := trace w |})))
  /\ (n < 0 ->
        exists msg st, events fuel (self, w) = (Raise (ValueError msg), st))
  /\ (0 < n -> (length written <= Z.to_nat n)%nat ->
        exists frame,
          events fuel (self, w)
          = (Ret frame, (self, {| lib := s2; trace := trace w |}))
          /\ length (ef_index frame) = Z.to_nat n
          /\ length (ef_type frame) = Z.to_nat n
          /\ length (ef_text frame) = Z.to_nat n
          /\ take (length written) (ef_index frame)
             = ev_time_stamp <$> written
          /\ take (length written) (ef_type frame)
             = event_type <$> written
          /\ take (length written) (ef_text frame)
             = (fun e => decode_bytes (_event_text e)) <$> written).
Proof.
  intros E1 E2.
  assert (Hcount : lift (O := DWFile)
                     (native_event (DWIGetEventListCount
                                      (c_arg (f_reader_handle self))))
                     (self, w)
                   = (Ret (0, n), (self, {| lib := s1; trace := trace w |})))
    by (eapply lift_eq, native_event_eq; exact E1).
  split; [|split].
  - intros ->. unfold events. step_ok. cbn [fst snd].
    erewrite bind_Ret by exact Hcount. cbv beta iota.
    step_ok. reflexivity.
  - intros Hneg. eexists _, _. unfold events. step_ok. cbn [fst snd].
    erewrite bind_Ret by exact Hcount. cbv beta iota.
    step_ok.
    assert (Hz : (n =? 0) = false) by lia.
    assert (Hlt : (n <? 0) = true) by lia.
    rewrite Hz, Hlt. reflexivity.
  - intros Hpos Hfit. eexists. split.
    { unfold events. step_ok. cbn [fst snd].
      erewrite bind_Ret by exact Hcount. cbv beta iota.
      step_ok.
      assert (Hz : (n =? 0) = false) by lia.
      assert (Hlt : (n <? 0) = false) by lia.
      rewrite Hz, Hlt.
      erewrite bind_Ret by reflexivity. cbv beta zeta.
      erewrite bind_Ret by (eapply lift_eq, native_event_eq; exact E2).
      cbv beta iota.
      erewrite bind_Ret
        by (apply poke_M_ok; rewrite length_replicate; exact Hfit).
      cbv beta. step_ok. reflexivity. }
    cbn [ef_index ef_type ef_text].
    assert (Hlen : length (written ++ drop (length written)
                             (replicate (Z.to_nat n) zero_event))
                   = Z.to_nat n).
    { rewrite length_app, length_drop, length_replicate. lia. }
    rewrite !length_fmap, Hlen, !fmap_app.
    split; [reflexivity|]. split; [reflexivity|]. split; [reflexivity|].
    split; [|split].
    + apply take_app_length'. rewrite length_fmap. reflexivity.
    + apply take_app_length'. rewrite length_fmap. reflexivity.
    + apply take_app_length'. rewrite length_fmap. reflexivity.
Qed.

Lemma events_rows_witness :
  exists frame,
    @events RefLib RefEvents 4
      ((demo_open "" None).2.1, (demo_open "" None).2.2)
    = (Ret frame,
       ((demo_open "" None).2.1,
        @Build_world RefLib (@lib RefLib (demo_open "" None).2.2)
          (@trace RefLib (demo_open "" None).2.2)))
    /\ length (ef_text frame) = Z.to_nat 2
    /\ take 2 (ef_text frame)
       = (fun e => decode_bytes (_event_text e)) <$> demo_events.
Proof.
  edestruct (@events_rows RefLib RefEvents 4 (demo_open "" None).2.1
               (demo_open "" None).2.2) as (_ & _ & Hok);
    [reflexivity|reflexivity|].
  destruct Hok as (frame & Hrun & _ & _ & Hlen & _ & _ & Htext);
    [vm_compute; reflexivity|vm_compute; lia|].
  exists frame. split; [exact Hrun|]. split; [exact Hlen|exact Htext].
Defined.
